(** * nginx-config-builder: block composition and serialization

    A shallow embedding of the TypeScript classes under [src/nginx]
    ([Block], [EventsBlock], [IfBlock], [MapBlock], [UpstreamBlock],
    [LocationBlock], [ServerBlock], [HttpBlock], [NginxConfig],
    [SiteConfig]) together with the properties their [build] methods
    satisfy.

    Conventions of the embedding:
    - a JavaScript string is a [string]; every character stands for one
      code unit below 256;
    - a JavaScript [number] is a [Z] (the builders only interpolate
      integers such as ports, weights and timeouts);
    - a mutating method [o.m(args)] is a function returning the new state
      of [o]; methods that return a freshly created child return the new
      state of the parent, the child being the last member of its
      collection;
    - an optional property is an [option], [None] standing for
      [undefined]. *)

From Stdlib Require Import Bool List ZArith Lia.
From Stdlib Require Import Strings.Ascii Strings.String Numbers.DecimalString.
Import ListNotations.

Open Scope list_scope.
Open Scope string_scope.

(* ================================================================== *)
(** ** JavaScript string primitives *)
(* ================================================================== *)

Module JS.

(** The line feed written [\n] in the source. *)
Definition LF : string := String (ascii_of_nat 10) "".

(** [s.endsWith(suf)]. *)
Fixpoint endsWith (s suf : string) : bool :=
  (s =? suf) ||
  match s with
  | EmptyString => false
  | String _ s' => endsWith s' suf
  end.

(** [s.startsWith(pre)]. *)
Definition startsWith (s pre : string) : bool := String.prefix pre s.

(** White space and line terminators stripped by [String.prototype.trim],
    restricted to code units below 256: TAB, LF, VT, FF, CR, SP, NBSP. *)
Definition isWhiteSpace (c : ascii) : bool :=
  let n := nat_of_ascii c in
  (Nat.leb 9 n && Nat.leb n 13) || Nat.eqb n 32 || Nat.eqb n 160.

Fixpoint trimStart (s : string) : string :=
  match s with
  | EmptyString => EmptyString
  | String c s' => if isWhiteSpace c then trimStart s' else s
  end.

Fixpoint trimEnd (s : string) : string :=
  match s with
  | EmptyString => EmptyString
  | String c s' =>
      let r := trimEnd s' in
      if (r =? "") && isWhiteSpace c then EmptyString else String c r
  end.

(** [s.trim()]. *)
Definition trim (s : string) : string := trimEnd (trimStart s).

(** Truthiness of a string: every string but the empty one. *)
Definition truthy (s : string) : bool := negb (s =? "").

(** [xs.join(sep)] on an array of strings. *)
Definition join (sep : string) (xs : list string) : string :=
  String.concat sep xs.

(** [xs.push(x)]. *)
Definition push {A} (xs : list A) (x : A) : list A := (xs ++ [x])%list.

(** [`${n}`] and [n.toString()] for an integral number. *)
Definition numberToString (n : Z) : string :=
  NilZero.string_of_int (Z.to_int n).

(** [b ? "on" : "off"]. *)
Definition onOff (b : bool) : string := if b then "on" else "off".

(** Truthiness of an optional string: [undefined] and the empty string
    are falsy. *)
Definition truthyOpt (x : option string) : bool :=
  match x with
  | Some s => truthy s
  | None => false
  end.

(** The double quote character, as a text. *)
Definition DQ : string := String (ascii_of_nat 34) "".

End JS.

(* ================================================================== *)
(** ** The option records of [interfaces/common-directives] *)
(* ================================================================== *)

Module CommonDirectives.

(** [accessLog?: { path: string; format?: string } | "off"]. *)
Inductive AccessLog :=
| AccessLogOff
| AccessLogTo (path : string) (format : option string).

Record ErrorLog := mkErrorLog { path : string; level : option string }.

Record t := mk {
  accessLog : option AccessLog;
  errorLog : option ErrorLog;
  clientMaxBodySize : option string;
  sendTimeout : option string;
  sendfile : option bool;
  tcp_nopush : option bool;
  tcp_nodelay : option bool;
  keepaliveTimeout : option Z;
  keepaliveRequests : option Z;
  resetTimedoutConnection : option bool;
  serverTokens : option bool;
  hideNginxVersion : option bool;
  expires : option string
}.

(** The record [{}]. *)
Definition empty : t :=
  mk None None None None None None None None None None None None None.

End CommonDirectives.

Module CompressionOptions.

Inductive Proxied :=
| off | expired | no_cache | no_store | private | no_last_modified
| no_etag | auth | any.

Definition proxiedText (p : Proxied) : string :=
  match p with
  | off => "off"
  | expired => "expired"
  | no_cache => "no-cache"
  | no_store => "no-store"
  | private => "private"
  | no_last_modified => "no_last_modified"
  | no_etag => "no_etag"
  | auth => "auth"
  | any => "any"
  end.

Record Buffers := mkBuffers { number : Z; size : string }.

Record t := mk {
  enable : option bool;
  minLength : option string;
  types : option (list string);
  proxied : option Proxied;
  vary : option bool;
  level : option Z;
  buffers : option Buffers
}.

Definition empty : t := mk None None None None None None None.

End CompressionOptions.

Module CacheOptions.

Inductive StaleCase :=
| error | timeout | invalid_header | updating | http_500 | http_503.

Definition staleText (c : StaleCase) : string :=
  match c with
  | error => "error"
  | timeout => "timeout"
  | invalid_header => "invalid_header"
  | updating => "updating"
  | http_500 => "http_500"
  | http_503 => "http_503"
  end.

Record t := mk {
  path : option string;
  maxSize : option string;
  inactiveTime : option string;
  validTime : option string;
  useStale : option (list StaleCase);
  key : option string
}.

Definition empty : t := mk None None None None None None.

End CacheOptions.

(* ================================================================== *)
(** ** [Block]: the directive store shared by every block kind *)
(* ================================================================== *)

Module Block.

(** The protected field [directives: string[]]. *)
Definition store := list string.

(** [addDirective]: the text is first given a semicolon when it does not
    end with one already ([terminated]), then pushed on the store. *)
Definition terminated (directive : string) : string :=
  if negb (JS.endsWith directive ";") then directive ++ ";" else directive.

Definition addDirective (directive : string) (directives : store) : store :=
  JS.push directives (terminated directive).

(** [formatDirectives(indent)]. *)
Definition formatDirectives (indent : string) (directives : store) : string :=
  JS.join JS.LF (map (fun d => indent ++ d) directives).

(** [applyCommonDirectives(directives)], on the store. *)
Definition applyCommonDirectives (d : CommonDirectives.t) (ds : store) : store :=
  let ds :=
    match CommonDirectives.accessLog d with
    | Some CommonDirectives.AccessLogOff => addDirective "access_log off" ds
    | Some (CommonDirectives.AccessLogTo path format) =>
        let format :=
          match format with
          | Some f => if JS.truthy f then " " ++ f else ""
          | None => ""
          end in
        addDirective ("access_log " ++ path ++ format) ds
    | None => ds
    end in
  let ds :=
    match CommonDirectives.errorLog d with
    | Some e =>
        let level :=
          match CommonDirectives.level e with
          | Some l => if JS.truthy l then " " ++ l else ""
          | None => ""
          end in
        addDirective ("error_log " ++ CommonDirectives.path e ++ level) ds
    | None => ds
    end in
  let ds :=
    match CommonDirectives.clientMaxBodySize d with
    | Some v =>
        if JS.truthy v then addDirective ("client_max_body_size " ++ v) ds
        else ds
    | None => ds
    end in
  let ds :=
    match CommonDirectives.sendTimeout d with
    | Some v =>
        if JS.truthy v then addDirective ("send_timeout " ++ v) ds else ds
    | None => ds
    end in
  let ds :=
    match CommonDirectives.sendfile d with
    | Some v => addDirective ("sendfile " ++ JS.onOff v) ds
    | None => ds
    end in
  let ds :=
    match CommonDirectives.tcp_nopush d with
    | Some v => addDirective ("tcp_nopush " ++ JS.onOff v) ds
    | None => ds
    end in
  let ds :=
    match CommonDirectives.tcp_nodelay d with
    | Some v => addDirective ("tcp_nodelay " ++ JS.onOff v) ds
    | None => ds
    end in
  ds.

(** [configureCompression(options)], on the store. *)
Definition configureCompression (o : CompressionOptions.t) (ds : store)
  : store :=
  let ds :=
    match CompressionOptions.enable o with
    | Some v => addDirective ("gzip " ++ JS.onOff v) ds
    | None => ds
    end in
  let ds :=
    match CompressionOptions.minLength o with
    | Some v =>
        if JS.truthy v then addDirective ("gzip_min_length " ++ v) ds else ds
    | None => ds
    end in
  let ds :=
    match CompressionOptions.types o with
    | Some ts =>
        if Nat.ltb 0 (List.length ts)
        then addDirective ("gzip_types " ++ JS.join " " ts) ds
        else ds
    | None => ds
    end in
  let ds :=
    match CompressionOptions.proxied o with
    | Some p =>
        if JS.truthy (CompressionOptions.proxiedText p)
        then addDirective
               ("gzip_proxied " ++ CompressionOptions.proxiedText p) ds
        else ds
    | None => ds
    end in
  let ds :=
    match CompressionOptions.vary o with
    | Some v => addDirective ("gzip_vary " ++ JS.onOff v) ds
    | None => ds
    end in
  let ds :=
    match CompressionOptions.level o with
    | Some n => addDirective ("gzip_comp_level " ++ JS.numberToString n) ds
    | None => ds
    end in
  let ds :=
    match CompressionOptions.buffers o with
    | Some b =>
        addDirective
          ("gzip_buffers " ++ JS.numberToString (CompressionOptions.number b)
                           ++ " " ++ CompressionOptions.size b) ds
    | None => ds
    end in
  ds.

(** [configureCache(options)], on the store. *)
Definition configureCache (o : CacheOptions.t) (ds : store) : store :=
  let ds :=
    match CacheOptions.path o with
    | Some p =>
        if JS.truthy p
        then addDirective
               (("proxy_cache_path " ++ p)
                  ++ (match CacheOptions.maxSize o with
                      | Some m => if JS.truthy m then " max_size=" ++ m else ""
                      | None => ""
                      end)
                  ++ (match CacheOptions.inactiveTime o with
                      | Some i => if JS.truthy i then " inactive=" ++ i else ""
                      | None => ""
                      end)
                  ++ " keys_zone=my_cache:10m") ds
        else ds
    | None => ds
    end in
  let ds :=
    match CacheOptions.validTime o with
    | Some v =>
        if JS.truthy v then addDirective ("proxy_cache_valid " ++ v) ds else ds
    | None => ds
    end in
  let ds :=
    match CacheOptions.useStale o with
    | Some cs =>
        if Nat.ltb 0 (List.length cs)
        then addDirective
               ("proxy_cache_use_stale "
                  ++ JS.join " " (map CacheOptions.staleText cs)) ds
        else ds
    | None => ds
    end in
  let ds :=
    match CacheOptions.key o with
    | Some k =>
        if JS.truthy k then addDirective ("proxy_cache_key " ++ k) ds else ds
    | None => ds
    end in
  ds.

End Block.

(** The common interface of the subclasses of [Block]: access to the
    inherited directive store. *)
Class BlockLike (T : Type) := {
  directivesOf : T -> Block.store;
  withDirectives : Block.store -> T -> T
}.

(** The inherited [addDirective], returning [this]. *)
Definition addDirective {T} `{BlockLike T} (directive : string) (b : T) : T :=
  withDirectives (Block.addDirective directive (directivesOf b)) b.

(** The inherited option helpers, returning [this]. *)
Definition applyCommonDirectives {T} `{BlockLike T}
  (d : CommonDirectives.t) (b : T) : T :=
  withDirectives (Block.applyCommonDirectives d (directivesOf b)) b.

Definition configureCompression {T} `{BlockLike T}
  (o : CompressionOptions.t) (b : T) : T :=
  withDirectives (Block.configureCompression o (directivesOf b)) b.

Definition configureCache {T} `{BlockLike T} (o : CacheOptions.t) (b : T) : T :=
  withDirectives (Block.configureCache o (directivesOf b)) b.

(** [xs[i] = f(xs[i])]: a mutation performed through the handle of the
    [i]-th member of a collection; the collection sees it because the
    member is shared, not copied. *)
Fixpoint updateAt {A} (i : nat) (f : A -> A) (xs : list A) : list A :=
  match xs, i with
  | [], _ => []
  | x :: xs', O => f x :: xs'
  | x :: xs', S i' => x :: updateAt i' f xs'
  end.

(* ================================================================== *)
(** ** [EventsBlock] *)
(* ================================================================== *)

Module EventsBlock.

Record t := mk { directives : Block.store }.

Definition new : t := mk [].

#[global] Instance blockLike : BlockLike t :=
  {| directivesOf := directives; withDirectives := fun ds _ => mk ds |}.

Definition workerConnections (num : Z) (b : t) : t :=
  addDirective ("worker_connections " ++ JS.numberToString num) b.

Definition multiAccept (on : bool) (b : t) : t :=
  addDirective ("multi_accept " ++ JS.onOff on) b.

Definition useEpoll (on : bool) (b : t) : t :=
  addDirective ("use " ++ (if on then "epoll" else "poll")) b.

(** [build()]: the events block takes no indentation argument. *)
Definition build (b : t) : string :=
  let directives := Block.formatDirectives "    " (directives b) in
  "events {" ++ JS.LF ++ directives ++ JS.LF ++ "}".

Definition workerAioRequests (num : Z) (b : t) : t :=
  addDirective ("worker_aio_requests " ++ JS.numberToString num) b.

Definition acceptMutex (on : bool) (b : t) : t :=
  addDirective ("accept_mutex " ++ JS.onOff on) b.

Definition acceptMutexDelay (delay : Z) (b : t) : t :=
  addDirective ("accept_mutex_delay " ++ JS.numberToString delay ++ "ms") b.

Definition debugConnection (address : string) (b : t) : t :=
  addDirective ("debug_connection " ++ address) b.

End EventsBlock.

(* ================================================================== *)
(** ** [IfBlock] *)
(* ================================================================== *)

Module IfBlock.

Record t := mk { condition : string; directives : Block.store }.

Definition new (condition : string) : t := mk condition [].

#[global] Instance blockLike : BlockLike t :=
  {| directivesOf := directives;
     withDirectives := fun ds b => mk (condition b) ds |}.

Definition defaultIndent : string := "    ".

Definition build (indent : string) (b : t) : string :=
  let inner :=
    JS.join JS.LF (map (fun d => indent ++ "    " ++ d) (directives b)) in
  indent ++ "if (" ++ condition b ++ ") {" ++ JS.LF ++ inner ++ JS.LF
         ++ indent ++ "}".

End IfBlock.

(* ================================================================== *)
(** ** [MapBlock] *)
(* ================================================================== *)

Module MapBlock.

Record MapItem := mkItem { key : string; value : string }.

Record t := mk {
  variable : string;
  outputVar : string;
  items : list MapItem;
  directives : Block.store
}.

Definition new (variable outputVar : string) : t :=
  mk variable outputVar [] [].

#[global] Instance blockLike : BlockLike t :=
  {| directivesOf := directives;
     withDirectives := fun ds b => mk (variable b) (outputVar b) (items b) ds |}.

Definition set (k v : string) (b : t) : t :=
  mk (variable b) (outputVar b) (JS.push (items b) (mkItem k v)) (directives b).

Definition defaultIndent : string := "    ".

Definition build (indent : string) (b : t) : string :=
  let items :=
    JS.join JS.LF
      (map (fun i => indent ++ key i ++ " " ++ value i ++ ";") (items b)) in
  indent ++ "map " ++ variable b ++ " " ++ outputVar b ++ " {" ++ JS.LF
         ++ items ++ JS.LF ++ indent ++ "}".

End MapBlock.

(* ================================================================== *)
(** ** [UpstreamBlock] *)
(* ================================================================== *)

Module UpstreamBlock.

(** [interface ServerOptions]. *)
Record ServerOptions := mkOptions {
  weight : option Z;
  maxFails : option Z;
  failTimeout : option string;
  backup : option bool;
  down : option bool
}.

(** The default argument [options = {}]. *)
Definition noOptions : ServerOptions := mkOptions None None None None None.

Record t := mk { name : string; directives : Block.store }.

Definition new (name : string) : t := mk name [].

#[global] Instance blockLike : BlockLike t :=
  {| directivesOf := directives; withDirectives := fun ds b => mk (name b) ds |}.

(** [parts.push(x)] guarded by a condition. *)
Definition pushIf (c : bool) (x : string) (parts : list string) : list string :=
  if c then JS.push parts x else parts.

(** The [parts] array assembled by [server]. *)
Definition serverParts (address : string) (options : ServerOptions)
  : list string :=
  let parts := [address] in
  let parts :=
    match weight options with
    | Some w => JS.push parts ("weight=" ++ JS.numberToString w)
    | None => parts
    end in
  let parts :=
    match maxFails options with
    | Some m => JS.push parts ("max_fails=" ++ JS.numberToString m)
    | None => parts
    end in
  let parts :=
    match failTimeout options with
    | Some f => pushIf (JS.truthy f) ("fail_timeout=" ++ f) parts
    | None => parts
    end in
  let parts :=
    match backup options with
    | Some b => pushIf b "backup" parts
    | None => parts
    end in
  let parts :=
    match down options with
    | Some d => pushIf d "down" parts
    | None => parts
    end in
  parts.

Definition server (address : string) (options : ServerOptions) (b : t) : t :=
  addDirective ("server " ++ JS.join " " (serverParts address options)) b.

Definition leastConn (b : t) : t := addDirective "least_conn" b.

Definition ipHash (b : t) : t := addDirective "ip_hash" b.

Definition hash (k : string) (consistent : bool) (b : t) : t :=
  addDirective ("hash " ++ k ++ (if consistent then " consistent" else "")) b.

Definition random (two : bool) (b : t) : t :=
  addDirective ("random" ++ (if two then " two" else "")) b.

Definition keepalive (connections : Z) (b : t) : t :=
  addDirective ("keepalive " ++ JS.numberToString connections) b.

Definition build (indent : string) (b : t) : string :=
  let blockIndent := indent ++ "    " in
  let directives := Block.formatDirectives blockIndent (directives b) in
  indent ++ "upstream " ++ name b ++ " {" ++ JS.LF ++ directives ++ JS.LF
         ++ indent ++ "}".

Definition keepaliveRequests (number : Z) (b : t) : t :=
  addDirective ("keepalive_requests " ++ JS.numberToString number) b.

Definition keepaliveTimeout (timeout : Z) (b : t) : t :=
  addDirective ("keepalive_timeout " ++ JS.numberToString timeout) b.

Definition queue (number : Z) (timeout : option string) (b : t) : t :=
  let parts := [JS.numberToString number] in
  let parts :=
    match timeout with
    | Some tm => pushIf (JS.truthy tm) ("timeout=" ++ tm) parts
    | None => parts
    end in
  addDirective ("queue " ++ JS.join " " parts) b.

Definition zone (zoneName size : string) (b : t) : t :=
  addDirective ("zone " ++ zoneName ++ " " ++ size) b.

Definition state (file : string) (b : t) : t :=
  addDirective ("state " ++ file) b.

Definition slowStart (time : string) (b : t) : t :=
  addDirective ("slow_start " ++ time) b.

Definition resolve (b : t) : t := addDirective "resolve" b.

End UpstreamBlock.

(* ================================================================== *)
(** ** [LocationBlock] *)
(* ================================================================== *)

Module LocationBlock.

Record t := mk {
  path : string;
  exact : bool;
  ifBlocks : list IfBlock.t;
  directives : Block.store
}.

Definition new (path : string) (exact : bool) : t := mk path exact [] [].

#[global] Instance blockLike : BlockLike t :=
  {| directivesOf := directives;
     withDirectives := fun ds b => mk (path b) (exact b) (ifBlocks b) ds |}.

Definition root (p : string) (b : t) : t := addDirective ("root " ++ p) b.

Definition index (files : list string) (b : t) : t :=
  addDirective ("index " ++ JS.join " " files) b.

Definition addHeader (name value : string) (b : t) : t :=
  addDirective ("add_header " ++ name ++ " " ++ value) b.

Definition expires (time : string) (b : t) : t :=
  addDirective ("expires " ++ time) b.

(** The options record of [enableCors]; every field is optional. *)
Record CorsOptions := mkCors {
  origins : option (list string);
  methods : option (list string);
  headers : option (list string);
  credentials : option bool;
  maxAge : option Z
}.

(** The default argument [options = {}]. *)
Definition noOptions : CorsOptions := mkCors None None None None None.

(** A destructuring default [x = dflt]. *)
Definition orDefault {A} (dflt : A) (x : option A) : A :=
  match x with Some v => v | None => dflt end.

Definition enableCors (options : CorsOptions) (b : t) : t :=
  let origins := orDefault ["*"] (origins options) in
  let methods := orDefault ["GET"; "POST"; "OPTIONS"] (methods options) in
  let headers :=
    orDefault ["DNT"; "X-CustomHeader"; "Keep-Alive"; "User-Agent"]
              (headers options) in
  let credentials := orDefault false (credentials options) in
  let maxAge := orDefault 1728000%Z (maxAge options) in
  let b := addHeader "Access-Control-Allow-Origin" (JS.join " " origins) b in
  let b := addHeader "Access-Control-Allow-Methods" (JS.join " " methods) b in
  let b := addHeader "Access-Control-Allow-Headers" (JS.join " " headers) b in
  let b :=
    if credentials then addHeader "Access-Control-Allow-Credentials" "true" b
    else b in
  addHeader "Access-Control-Max-Age" (JS.numberToString maxAge) b.

(** [if(condition)]: the new conditional section is the last member of
    [ifBlocks]. *)
Definition if_ (condition : string) (b : t) : t :=
  mk (path b) (exact b) (JS.push (ifBlocks b) (IfBlock.new condition))
     (directives b).

Definition build (indent : string) (b : t) : string :=
  let blockIndent := indent ++ "    " in
  let prefix := if exact b then "=" else "" in
  let directives := Block.formatDirectives blockIndent (directives b) in
  let ifs :=
    JS.join (JS.LF ++ JS.LF) (map (IfBlock.build blockIndent) (ifBlocks b)) in
  indent ++ "location " ++ prefix ++ " " ++ path b ++ " {" ++ JS.LF
         ++ directives
         ++ (if JS.truthy ifs then JS.LF ++ JS.LF ++ ifs else "")
         ++ JS.LF ++ indent ++ "}".

Definition alias (p : string) (b : t) : t := addDirective ("alias " ++ p) b.

(** [rules.forEach((rule) => this.addDirective(rule))]. *)
Definition allowDeny (rules : list string) (b : t) : t :=
  fold_left (fun b rule => addDirective rule b) rules b.

Definition auth_basic (realm : string) (b : t) : t :=
  addDirective ("auth_basic " ++ JS.DQ ++ realm ++ JS.DQ) b.

Definition auth_basic_user_file (file : string) (b : t) : t :=
  addDirective ("auth_basic_user_file " ++ file) b.

Definition tryFiles (files : list string) (b : t) : t :=
  addDirective ("try_files " ++ JS.join " " files) b.

Definition proxyPass (url : string) (b : t) : t :=
  addDirective ("proxy_pass " ++ url) b.

Definition proxySetHeader (header value : string) (b : t) : t :=
  addDirective ("proxy_set_header " ++ header ++ " " ++ value) b.

Definition proxyBuffering (on : bool) (b : t) : t :=
  addDirective ("proxy_buffering " ++ JS.onOff on) b.

Definition proxyBufferSize (size : string) (b : t) : t :=
  addDirective ("proxy_buffer_size " ++ size) b.

Definition proxyBuffers (number : Z) (size : string) (b : t) : t :=
  addDirective ("proxy_buffers " ++ JS.numberToString number ++ " " ++ size) b.

Definition proxyBusyBuffersSize (size : string) (b : t) : t :=
  addDirective ("proxy_busy_buffers_size " ++ size) b.

Definition proxyMaxTempFileSize (size : string) (b : t) : t :=
  addDirective ("proxy_max_temp_file_size " ++ size) b.

Definition proxyReadTimeout (timeout : string) (b : t) : t :=
  addDirective ("proxy_read_timeout " ++ timeout) b.

Definition proxyConnectTimeout (timeout : string) (b : t) : t :=
  addDirective ("proxy_connect_timeout " ++ timeout) b.

Definition proxySendTimeout (timeout : string) (b : t) : t :=
  addDirective ("proxy_send_timeout " ++ timeout) b.

Definition proxyRedirect (from to : string) (b : t) : t :=
  addDirective ("proxy_redirect " ++ from ++ " " ++ to) b.

Definition fastcgiPass (address : string) (b : t) : t :=
  addDirective ("fastcgi_pass " ++ address) b.

Definition fastcgiParam (param value : string) (b : t) : t :=
  addDirective ("fastcgi_param " ++ param ++ " " ++ value) b.

Definition fastcgiIndex (i : string) (b : t) : t :=
  addDirective ("fastcgi_index " ++ i) b.

Definition includeTypedDirective (filename : string) (b : t) : t :=
  addDirective ("include " ++ filename) b.

(** A mutation of the [i]-th conditional section through its handle. *)
Definition onIf (i : nat) (f : IfBlock.t -> IfBlock.t) (b : t) : t :=
  mk (path b) (exact b) (updateAt i f (ifBlocks b)) (directives b).

End LocationBlock.

(* ================================================================== *)
(** ** [ServerBlock] *)
(* ================================================================== *)

Module ServerBlock.

Record t := mk {
  locations : list LocationBlock.t;
  directives : Block.store
}.

Definition new : t := mk [] [].

#[global] Instance blockLike : BlockLike t :=
  {| directivesOf := directives;
     withDirectives := fun ds b => mk (locations b) ds |}.

(** [portOrUnix: number | string]. *)
Definition portOrUnixToString (portOrUnix : Z + string) : string :=
  match portOrUnix with
  | inl port => JS.numberToString port
  | inr unix => unix
  end.

Definition listen (portOrUnix : Z + string) (ssl : bool) (b : t) : t :=
  match portOrUnix with
  | inl _ =>
      addDirective
        ("listen " ++ portOrUnixToString portOrUnix
                   ++ (if ssl then " ssl" else "")) b
  | inr _ =>
      addDirective
        ("listen " ++ portOrUnixToString portOrUnix
                   ++ (if ssl then " ssl" else "")) b
  end.

Definition serverName (names : list string) (b : t) : t :=
  addDirective ("server_name " ++ JS.join " " names) b.

Definition root (p : string) (b : t) : t := addDirective ("root " ++ p) b.

Definition index (files : list string) (b : t) : t :=
  addDirective ("index " ++ JS.join " " files) b.

(** [addLocation(path, exact)]: the new location is the last member of
    [locations]. *)
Definition addLocation (path : string) (exact : bool) (b : t) : t :=
  mk (JS.push (locations b) (LocationBlock.new path exact)) (directives b).

(** A mutation of the [i]-th location through its handle. *)
Definition onLocation (i : nat) (f : LocationBlock.t -> LocationBlock.t)
  (b : t) : t :=
  mk (updateAt i f (locations b)) (directives b).

Definition build (indent : string) (b : t) : string :=
  let blockIndent := indent ++ "    " in
  let directives := Block.formatDirectives blockIndent (directives b) in
  let locations :=
    JS.join (JS.LF ++ JS.LF)
            (map (LocationBlock.build blockIndent) (locations b)) in
  indent ++ "server {" ++ JS.LF ++ directives
         ++ (if JS.truthy locations then JS.LF ++ JS.LF ++ locations else "")
         ++ JS.LF ++ indent ++ "}".

Definition sslCertificate (p : string) (b : t) : t :=
  addDirective ("ssl_certificate " ++ p) b.

Definition sslCertificateKey (p : string) (b : t) : t :=
  addDirective ("ssl_certificate_key " ++ p) b.

Definition sslCiphers (ciphers : string) (b : t) : t :=
  addDirective ("ssl_ciphers " ++ ciphers) b.

Definition sslProtocols (protocols : list string) (b : t) : t :=
  addDirective ("ssl_protocols " ++ JS.join " " protocols) b.

Definition sslPreferServerCiphers (on : bool) (b : t) : t :=
  addDirective ("ssl_prefer_server_ciphers " ++ JS.onOff on) b.

Definition sslSessionCache (value : string) (b : t) : t :=
  addDirective ("ssl_session_cache " ++ value) b.

Definition sslSessionTimeout (value : string) (b : t) : t :=
  addDirective ("ssl_session_timeout " ++ value) b.

Definition sslDhparam (p : string) (b : t) : t :=
  addDirective ("ssl_dhparam " ++ p) b.

(** [rules.forEach((rule) => this.addDirective(rule))]. *)
Definition allowDeny (rules : list string) (b : t) : t :=
  fold_left (fun b rule => addDirective rule b) rules b.

Definition auth_basic (realm : string) (b : t) : t :=
  addDirective ("auth_basic " ++ JS.DQ ++ realm ++ JS.DQ) b.

Definition auth_basic_user_file (file : string) (b : t) : t :=
  addDirective ("auth_basic_user_file " ++ file) b.

Definition accessLog (p : string) (format : option string) (b : t) : t :=
  match format with
  | Some f =>
      if JS.truthy f then addDirective ("access_log " ++ p ++ " " ++ f) b
      else addDirective ("access_log " ++ p) b
  | None => addDirective ("access_log " ++ p) b
  end.

Definition errorLog (p : string) (level : option string) (b : t) : t :=
  match level with
  | Some l =>
      if JS.truthy l then addDirective ("error_log " ++ p ++ " " ++ l) b
      else addDirective ("error_log " ++ p) b
  | None => addDirective ("error_log " ++ p) b
  end.

(** [code: number | number[]]. *)
Definition errorPage (code : Z + list Z) (uri : string) (b : t) : t :=
  let codes :=
    match code with
    | inr cs => JS.join " " (map JS.numberToString cs)
    | inl c => JS.numberToString c
    end in
  addDirective ("error_page " ++ codes ++ " " ++ uri) b.

Definition clientMaxBodySize (size : string) (b : t) : t :=
  addDirective ("client_max_body_size " ++ size) b.

Definition returnDirective (code : Z) (url : string) (b : t) : t :=
  addDirective ("return " ++ JS.numberToString code ++ " " ++ url) b.

Definition tryFiles (files : list string) (b : t) : t :=
  addDirective ("try_files " ++ JS.join " " files) b.

Definition rewrite (regex replacement : string) (flag : option string) (b : t)
  : t :=
  addDirective
    ("rewrite " ++ regex ++ " " ++ replacement
       ++ (match flag with
           | Some f => if JS.truthy f then " " ++ f else ""
           | None => ""
           end)) b.

End ServerBlock.

(* ================================================================== *)
(** ** [HttpBlock] *)
(* ================================================================== *)

Module HttpBlock.

(** The property names of [interface HttpTypedDirectives]. *)
Inductive Key :=
| sendfile | keepalive_timeout | client_max_body_size | default_type
| gzip | gzip_types | tcp_nopush | tcp_nodelay.

Definition Key_eqb (a b : Key) : bool :=
  match a, b with
  | sendfile, sendfile | keepalive_timeout, keepalive_timeout
  | client_max_body_size, client_max_body_size
  | default_type, default_type | gzip, gzip | gzip_types, gzip_types
  | tcp_nopush, tcp_nopush | tcp_nodelay, tcp_nodelay => true
  | _, _ => false
  end.

(** One own property of an object of type [Partial<HttpTypedDirectives>]:
    its name with a value of the declared type, [None] when the property
    is set to [undefined]. *)
Inductive Property :=
| P_sendfile (v : option bool)
| P_keepalive_timeout (v : option Z)
| P_client_max_body_size (v : option string)
| P_default_type (v : option string)
| P_gzip (v : option bool)
| P_gzip_types (v : option (list string))
| P_tcp_nopush (v : option bool)
| P_tcp_nodelay (v : option bool).

Definition keyOf (p : Property) : Key :=
  match p with
  | P_sendfile _ => sendfile
  | P_keepalive_timeout _ => keepalive_timeout
  | P_client_max_body_size _ => client_max_body_size
  | P_default_type _ => default_type
  | P_gzip _ => gzip
  | P_gzip_types _ => gzip_types
  | P_tcp_nopush _ => tcp_nopush
  | P_tcp_nodelay _ => tcp_nodelay
  end.

(** An object: its own properties in insertion order. *)
Definition HttpTypedDirectives := list Property.

(** [o[k] = v] for the property [p] = (k, v): an existing property keeps
    its position, a new one goes last. *)
Fixpoint setProperty (p : Property) (o : HttpTypedDirectives)
  : HttpTypedDirectives :=
  match o with
  | [] => [p]
  | q :: o' =>
      if Key_eqb (keyOf q) (keyOf p) then p :: o' else q :: setProperty p o'
  end.

(** [Object.assign(target, source)]: every own property of [source],
    in order, is written to [target], those set to [undefined] too. *)
Definition Object_assign (target source : HttpTypedDirectives)
  : HttpTypedDirectives :=
  fold_left (fun o p => setProperty p o) source target.

(** The own property named [k], if any. *)
Definition getProperty (k : Key) (o : HttpTypedDirectives) : option Property :=
  find (fun q => Key_eqb (keyOf q) k) o.

(** Property reads [o.k]; a missing property reads as [undefined]. *)
Definition readBoolean (k : Key) (o : HttpTypedDirectives) : option bool :=
  match getProperty k o with
  | Some (P_sendfile v) | Some (P_gzip v)
  | Some (P_tcp_nopush v) | Some (P_tcp_nodelay v) => v
  | _ => None
  end.

Definition readNumber (k : Key) (o : HttpTypedDirectives) : option Z :=
  match getProperty k o with
  | Some (P_keepalive_timeout v) => v
  | _ => None
  end.

Definition readString (k : Key) (o : HttpTypedDirectives) : option string :=
  match getProperty k o with
  | Some (P_client_max_body_size v) | Some (P_default_type v) => v
  | _ => None
  end.

Definition readStrings (k : Key) (o : HttpTypedDirectives)
  : option (list string) :=
  match getProperty k o with
  | Some (P_gzip_types v) => v
  | _ => None
  end.

Record t := mk {
  servers : list ServerBlock.t;
  upstreams : list UpstreamBlock.t;
  maps : list MapBlock.t;
  typedDirectives : HttpTypedDirectives;
  directives : Block.store
}.

Definition new : t := mk [] [] [] [] [].

#[global] Instance blockLike : BlockLike t :=
  {| directivesOf := directives;
     withDirectives := fun ds b =>
       mk (servers b) (upstreams b) (maps b) (typedDirectives b) ds |}.

Definition keepaliveTimeout (seconds : Z) (headerTimeout : option Z) (b : t)
  : t :=
  match headerTimeout with
  | Some ht =>
      addDirective ("keepalive_timeout " ++ JS.numberToString seconds ++ " "
                      ++ JS.numberToString ht) b
  | None => addDirective ("keepalive_timeout " ++ JS.numberToString seconds) b
  end.

Definition clientMaxBodySize (size : string) (b : t) : t :=
  addDirective ("client_max_body_size " ++ size) b.

Definition include (p : string) (b : t) : t := addDirective ("include " ++ p) b.

(** [applyTypedDirectives(d)]. *)
Definition applyTypedDirectives (d : HttpTypedDirectives) (b : t) : t :=
  mk (servers b) (upstreams b) (maps b)
     (Object_assign (typedDirectives b) d) (directives b).

(** [addServer(portOrUnix, ssl)]: the new server, already listening, is
    the last member of [servers]. *)
Definition addServer (portOrUnix : Z + string) (ssl : bool) (b : t) : t :=
  let srv := ServerBlock.listen portOrUnix ssl ServerBlock.new in
  mk (JS.push (servers b) srv) (upstreams b) (maps b) (typedDirectives b)
     (directives b).

(** [addUpstream(name)]. *)
Definition addUpstream (name : string) (b : t) : t :=
  let up := UpstreamBlock.new name in
  mk (servers b) (JS.push (upstreams b) up) (maps b) (typedDirectives b)
     (directives b).

(** [addMap(variable, outputVar)]. *)
Definition addMap (variable outputVar : string) (b : t) : t :=
  let map := MapBlock.new variable outputVar in
  mk (servers b) (upstreams b) (JS.push (maps b) map) (typedDirectives b)
     (directives b).

(** Mutations of the [i]-th child through its handle. *)
Definition onServer (i : nat) (f : ServerBlock.t -> ServerBlock.t) (b : t) : t :=
  mk (updateAt i f (servers b)) (upstreams b) (maps b) (typedDirectives b)
     (directives b).

Definition onUpstream (i : nat) (f : UpstreamBlock.t -> UpstreamBlock.t)
  (b : t) : t :=
  mk (servers b) (updateAt i f (upstreams b)) (maps b) (typedDirectives b)
     (directives b).

Definition onMap (i : nat) (f : MapBlock.t -> MapBlock.t) (b : t) : t :=
  mk (servers b) (upstreams b) (updateAt i f (maps b)) (typedDirectives b)
     (directives b).

(** [buildTypedDirectives()], on the typed option object. *)
Definition buildTypedLines (o : HttpTypedDirectives) : list string :=
  let lines := [] in
  let lines :=
    match readBoolean sendfile o with
    | Some v => JS.push lines ("sendfile " ++ JS.onOff v ++ ";")
    | None => lines
    end in
  let lines :=
    match readNumber keepalive_timeout o with
    | Some n => JS.push lines ("keepalive_timeout " ++ JS.numberToString n ++ ";")
    | None => lines
    end in
  let lines :=
    match readString client_max_body_size o with
    | Some s =>
        if JS.truthy s then JS.push lines ("client_max_body_size " ++ s ++ ";")
        else lines
    | None => lines
    end in
  let lines :=
    match readString default_type o with
    | Some s =>
        if JS.truthy s then JS.push lines ("default_type " ++ s ++ ";")
        else lines
    | None => lines
    end in
  let lines :=
    match readBoolean gzip o with
    | Some v => JS.push lines ("gzip " ++ JS.onOff v ++ ";")
    | None => lines
    end in
  let lines :=
    match readStrings gzip_types o with
    | Some ts =>
        if Nat.ltb 0 (List.length ts)
        then JS.push lines ("gzip_types " ++ JS.join " " ts ++ ";")
        else lines
    | None => lines
    end in
  let lines :=
    match readBoolean tcp_nopush o with
    | Some v => JS.push lines ("tcp_nopush " ++ JS.onOff v ++ ";")
    | None => lines
    end in
  let lines :=
    match readBoolean tcp_nodelay o with
    | Some v => JS.push lines ("tcp_nodelay " ++ JS.onOff v ++ ";")
    | None => lines
    end in
  lines.

Definition buildTypedDirectives (b : t) : list string :=
  buildTypedLines (typedDirectives b).

(** [build(indent)]. *)
Definition build (indent : string) (b : t) : string :=
  let blockIndent := indent ++ "    " in
  let typed :=
    JS.join JS.LF (map (fun d => blockIndent ++ d) (buildTypedDirectives b)) in
  let blockDirectives :=
    JS.join JS.LF (map (fun d => blockIndent ++ d) (directives b)) in
  let upstreams :=
    JS.join (JS.LF ++ JS.LF)
            (map (UpstreamBlock.build blockIndent) (upstreams b)) in
  let maps :=
    JS.join (JS.LF ++ JS.LF) (map (MapBlock.build blockIndent) (maps b)) in
  let servers :=
    JS.join (JS.LF ++ JS.LF) (map (ServerBlock.build blockIndent) (servers b)) in
  let parts :=
    JS.join (JS.LF ++ JS.LF)
      (filter (fun part => JS.truthy (JS.trim part))
              [typed; blockDirectives; upstreams; maps; servers]) in
  if JS.truthy (JS.trim parts)
  then indent ++ "http {" ++ JS.LF ++ parts ++ JS.LF ++ indent ++ "}"
  else indent ++ "http {}".

(** [sendfile(on)]; the name [sendfile] is taken by the property key. *)
Definition sendfile_ (on : bool) (b : t) : t :=
  addDirective ("sendfile " ++ JS.onOff on) b.

Definition tcpNopush (on : bool) (b : t) : t :=
  addDirective ("tcp_nopush " ++ JS.onOff on) b.

Definition tcpNodelay (on : bool) (b : t) : t :=
  addDirective ("tcp_nodelay " ++ JS.onOff on) b.

Definition defaultType (type : string) (b : t) : t :=
  addDirective ("default_type " ++ type) b.

Definition types (p : string) (b : t) : t :=
  addDirective ("types { include " ++ p ++ "; }") b.

Definition clientBodyBufferSize (size : string) (b : t) : t :=
  addDirective ("client_body_buffer_size " ++ size) b.

Definition clientBodyTimeout (time : Z) (b : t) : t :=
  addDirective ("client_body_timeout " ++ JS.numberToString time) b.

Definition clientHeaderTimeout (time : Z) (b : t) : t :=
  addDirective ("client_header_timeout " ++ JS.numberToString time) b.

Definition sendTimeout (time : Z) (b : t) : t :=
  addDirective ("send_timeout " ++ JS.numberToString time) b.

Definition clientHeaderBufferSize (size : string) (b : t) : t :=
  addDirective ("client_header_buffer_size " ++ size) b.

Definition largeClientHeaderBuffers (number : Z) (size : string) (b : t) : t :=
  addDirective
    ("large_client_header_buffers " ++ JS.numberToString number ++ " " ++ size)
    b.

(** [gzip(on)]; the name [gzip] is taken by the property key. *)
Definition gzip_ (on : bool) (b : t) : t :=
  addDirective ("gzip " ++ JS.onOff on) b.

Definition gzipTypes (ts : list string) (b : t) : t :=
  addDirective ("gzip_types " ++ JS.join " " ts) b.

Definition gzipMinLength (length : string) (b : t) : t :=
  addDirective ("gzip_min_length " ++ length) b.

Definition gzipProxied (opt : string) (b : t) : t :=
  addDirective ("gzip_proxied " ++ opt) b.

Definition gzipComp (level : Z) (b : t) : t :=
  addDirective ("gzip_comp_level " ++ JS.numberToString level) b.

Definition gzipVary (on : bool) (b : t) : t :=
  addDirective ("gzip_vary " ++ JS.onOff on) b.

Definition sslSessionCache (type : string) (args : list string) (b : t) : t :=
  addDirective ("ssl_session_cache " ++ type ++ " " ++ JS.join " " args) b.

Definition sslSessionTimeout (time : string) (b : t) : t :=
  addDirective ("ssl_session_timeout " ++ time) b.

Definition accessLog (p : string) (format : option string) (b : t) : t :=
  match format with
  | Some f =>
      if JS.truthy f then addDirective ("access_log " ++ p ++ " " ++ f) b
      else addDirective ("access_log " ++ p) b
  | None => addDirective ("access_log " ++ p) b
  end.

Definition errorLog (p : string) (level : option string) (b : t) : t :=
  match level with
  | Some l =>
      if JS.truthy l then addDirective ("error_log " ++ p ++ " " ++ l) b
      else addDirective ("error_log " ++ p) b
  | None => addDirective ("error_log " ++ p) b
  end.

Definition logFormat (name format : string) (b : t) : t :=
  addDirective ("log_format " ++ name ++ " '" ++ format ++ "'") b.

End HttpBlock.

(* ================================================================== *)
(** ** [NginxConfig]: the full top-level document *)
(* ================================================================== *)

Module NginxConfig.

Record t := mk {
  userDirective : option string;
  workerProcessesDirective : option string;
  pidDirective : option string;
  eventsBlock : option EventsBlock.t;
  httpBlock : option HttpBlock.t
}.

(** [new NginxConfig()]. *)
Definition new : t := mk None None None None None.

Definition user (u : string) (c : t) : t :=
  mk (Some ("user " ++ u ++ ";")) (workerProcessesDirective c)
     (pidDirective c) (eventsBlock c) (httpBlock c).

(** [val: string | number]. *)
Definition workerProcesses (val : string + Z) (c : t) : t :=
  let val := match val with inl s => s | inr n => JS.numberToString n end in
  mk (userDirective c) (Some ("worker_processes " ++ val ++ ";"))
     (pidDirective c) (eventsBlock c) (httpBlock c).

Definition pid (p : string) (c : t) : t :=
  mk (userDirective c) (workerProcessesDirective c)
     (Some ("pid " ++ p ++ ";")) (eventsBlock c) (httpBlock c).

(** [events()] creates the singleton on first use; [f] is what the caller
    then does with the returned handle. *)
Definition events (f : EventsBlock.t -> EventsBlock.t) (c : t) : t :=
  let ev :=
    match eventsBlock c with Some e => e | None => EventsBlock.new end in
  mk (userDirective c) (workerProcessesDirective c) (pidDirective c)
     (Some (f ev)) (httpBlock c).

(** [http()], likewise. *)
Definition http (f : HttpBlock.t -> HttpBlock.t) (c : t) : t :=
  let h := match httpBlock c with Some h => h | None => HttpBlock.new end in
  mk (userDirective c) (workerProcessesDirective c) (pidDirective c)
     (eventsBlock c) (Some (f h)).

(** [if (x) parts.push(x)] on an optional string. *)
Definition pushTruthy (x : option string) (parts : list string) : list string :=
  match x with
  | Some s => if JS.truthy s then JS.push parts s else parts
  | None => parts
  end.

Definition build (c : t) : string :=
  let parts := [] in
  let parts := pushTruthy (userDirective c) parts in
  let parts := pushTruthy (workerProcessesDirective c) parts in
  let parts := pushTruthy (pidDirective c) parts in
  let parts :=
    match eventsBlock c with
    | Some e => JS.push parts (EventsBlock.build e)
    | None => parts
    end in
  let parts :=
    match httpBlock c with
    | Some h => JS.push parts (HttpBlock.build "" h)
    | None => parts
    end in
  JS.join (JS.LF ++ JS.LF) parts ++ JS.LF.

(** [interface NginxConfigDefaults]. *)
Record EventsDefaults := mkEventsDefaults {
  workerConnections : option Z;
  multiAccept : option bool
}.

Record LogFormat := mkLogFormat { name : string; format : string }.

Record HttpDefaults := mkHttpDefaults {
  include : option (list string);
  logFormat : option LogFormat;
  sendfile : option bool;
  keepalive_timeout : option Z;
  client_max_body_size : option string;
  default_type : option string;
  gzip : option bool;
  gzip_types : option (list string)
}.

Record NginxConfigDefaults := mkDefaults {
  defaultUser : option string;
  defaultWorkerProcesses : option (string + Z);
  defaultPid : option string;
  defaultEvents : option EventsDefaults;
  defaultHttp : option HttpDefaults
}.

(** What the constructor does with the handle of the events section. *)
Definition constructEvents (e : EventsDefaults) (ev : EventsBlock.t)
  : EventsBlock.t :=
  let ev :=
    match workerConnections e with
    | Some n => EventsBlock.workerConnections n ev
    | None => ev
    end in
  match multiAccept e with
  | Some b => EventsBlock.multiAccept b ev
  | None => ev
  end.

(** What the constructor does with the handle of the http section. *)
Definition constructHttp (d : HttpDefaults) (h : HttpBlock.t) : HttpBlock.t :=
  let h :=
    match include d with
    | Some paths => fold_left (fun h p => HttpBlock.include p h) paths h
    | None => h
    end in
  let h :=
    match logFormat d with
    | Some lf => HttpBlock.logFormat (name lf) (format lf) h
    | None => h
    end in
  HttpBlock.applyTypedDirectives
    [ HttpBlock.P_sendfile (sendfile d);
      HttpBlock.P_keepalive_timeout (keepalive_timeout d);
      HttpBlock.P_client_max_body_size (client_max_body_size d);
      HttpBlock.P_default_type (default_type d);
      HttpBlock.P_gzip (gzip d);
      HttpBlock.P_gzip_types (gzip_types d) ] h.

(** [new NginxConfig(defaults)]. *)
Definition construct (defaults : option NginxConfigDefaults) : t :=
  let c := new in
  match defaults with
  | None => c
  | Some d =>
      let c :=
        match defaultUser d with
        | Some u => if JS.truthy u then user u c else c
        | None => c
        end in
      let c :=
        match defaultWorkerProcesses d with
        | Some v => workerProcesses v c
        | None => c
        end in
      let c :=
        match defaultPid d with
        | Some p => if JS.truthy p then pid p c else c
        | None => c
        end in
      let c :=
        match defaultEvents d with
        | Some e => events (constructEvents e) c
        | None => c
        end in
      let c :=
        match defaultHttp d with
        | Some hd => http (constructHttp hd) c
        | None => c
        end in
      c
  end.

End NginxConfig.

(* ================================================================== *)
(** ** [SiteConfig]: the server-only document *)
(* ================================================================== *)

Module SiteConfig.

Record t := mk {
  directives : list string;
  servers : list ServerBlock.t
}.

(** [new SiteConfig()]. *)
Definition new : t := mk [] [].

Definition include (p : string) (c : t) : t :=
  mk (JS.push (directives c) ("include " ++ p ++ ";")) (servers c).

Definition addServer (portOrUnix : Z + string) (ssl : bool) (c : t) : t :=
  let srv := ServerBlock.listen portOrUnix ssl ServerBlock.new in
  mk (directives c) (JS.push (servers c) srv).

Definition onServer (i : nat) (f : ServerBlock.t -> ServerBlock.t) (c : t) : t :=
  mk (directives c) (updateAt i f (servers c)).

Definition build (c : t) : string :=
  let directives :=
    JS.join JS.LF
      (map (fun d => if JS.endsWith d ";" then d else d ++ ";") (directives c)) in
  let servers := JS.join JS.LF (map (ServerBlock.build "") (servers c)) in
  let parts := JS.join JS.LF (filter JS.truthy [directives; servers]) in
  parts ++ JS.LF.

(** [interface SiteConfigDefaults]. *)
Record DefaultServer := mkDefaultServer {
  port : Z + string;
  ssl : option bool;
  serverName : option (list string);
  root : option string;
  index : option (list string)
}.

Record SiteConfigDefaults := mkDefaults {
  includes : option (list string);
  defaultServer : option DefaultServer
}.

(** What the constructor does with the handle of the default server. *)
Definition constructServer (d : DefaultServer) (s : ServerBlock.t)
  : ServerBlock.t :=
  let s :=
    match serverName d with
    | Some names => ServerBlock.serverName names s
    | None => s
    end in
  let s :=
    match root d with
    | Some r => if JS.truthy r then ServerBlock.root r s else s
    | None => s
    end in
  match index d with
  | Some files => ServerBlock.index files s
  | None => s
  end.

(** [new SiteConfig(defaults)]; the server added by the constructor is the
    last one of the list. *)
Definition construct (defaults : option SiteConfigDefaults) : t :=
  let c := new in
  match defaults with
  | None => c
  | Some d =>
      let c :=
        match includes d with
        | Some incs => fold_left (fun c inc => include inc c) incs c
        | None => c
        end in
      match defaultServer d with
      | Some ds =>
          let c :=
            addServer (port ds)
              (match ssl ds with Some b => b | None => false end) c in
          onServer (Nat.pred (List.length (servers c))) (constructServer ds) c
      | None => c
      end
  end.

End SiteConfig.

(* ================================================================== *)
(** ** A complete document *)
(* ================================================================== *)

(** A document with [user("nginx")], an events section with
    [workerConnections(1024)], and an http section holding one server
    that listens on port 80 and has one location ["/"] with
    [root("/var/www/html")]. *)
Module Scenario.

Definition location : LocationBlock.t :=
  LocationBlock.root "/var/www/html" (LocationBlock.new "/" false).

Definition server : ServerBlock.t :=
  ServerBlock.onLocation 0 (LocationBlock.root "/var/www/html")
    (ServerBlock.addLocation "/" false
       (ServerBlock.listen (inl 80%Z) false ServerBlock.new)).

Definition http : HttpBlock.t :=
  HttpBlock.onServer 0
    (fun s =>
       ServerBlock.onLocation 0 (LocationBlock.root "/var/www/html")
         (ServerBlock.addLocation "/" false s))
    (HttpBlock.addServer (inl 80%Z) false HttpBlock.new).

Definition document : NginxConfig.t :=
  NginxConfig.http
    (fun h =>
       HttpBlock.onServer 0
         (fun s =>
            ServerBlock.onLocation 0 (LocationBlock.root "/var/www/html")
              (ServerBlock.addLocation "/" false s))
         (HttpBlock.addServer (inl 80%Z) false h))
    (NginxConfig.events (EventsBlock.workerConnections 1024)
       (NginxConfig.user "nginx" NginxConfig.new)).

End Scenario.

(* ================================================================== *)
(** ** A document with every kind of block *)
(* ================================================================== *)

(** An events section, and an http section with an upstream group, a
    variable map and a server whose location holds a conditional
    section; the same server in a server-only document. *)
Module Samples.

Definition configureLocation (l : LocationBlock.t) : LocationBlock.t :=
  LocationBlock.onIf 0 (addDirective "return 403")
    (LocationBlock.if_ "$bad" (LocationBlock.root "/var/www/html" l)).

Definition configureServer (s : ServerBlock.t) : ServerBlock.t :=
  ServerBlock.onLocation 0 configureLocation
    (ServerBlock.addLocation "/" false s).

Definition configureHttp (h : HttpBlock.t) : HttpBlock.t :=
  HttpBlock.onServer 0 configureServer
    (HttpBlock.addServer (inl 80%Z) false
       (HttpBlock.onMap 0 (MapBlock.set "~*bot" "1")
          (HttpBlock.addMap "$http_user_agent" "$bad"
             (HttpBlock.onUpstream 0
                (UpstreamBlock.server "127.0.0.1:8001" UpstreamBlock.noOptions)
                (HttpBlock.addUpstream "backend" h))))).

Definition conditional : IfBlock.t :=
  addDirective "return 403" (IfBlock.new "$bad").

Definition location : LocationBlock.t :=
  configureLocation (LocationBlock.new "/" false).

Definition server : ServerBlock.t :=
  configureServer (ServerBlock.listen (inl 80%Z) false ServerBlock.new).

Definition upstream : UpstreamBlock.t :=
  UpstreamBlock.server "127.0.0.1:8001" UpstreamBlock.noOptions
    (UpstreamBlock.new "backend").

Definition variableMap : MapBlock.t :=
  MapBlock.set "~*bot" "1" (MapBlock.new "$http_user_agent" "$bad").

Definition events : EventsBlock.t :=
  EventsBlock.workerConnections 1024 EventsBlock.new.

Definition http : HttpBlock.t := configureHttp HttpBlock.new.

Definition document : NginxConfig.t :=
  NginxConfig.http configureHttp
    (NginxConfig.events (EventsBlock.workerConnections 1024) NginxConfig.new).

Definition site : SiteConfig.t :=
  SiteConfig.onServer 0 configureServer
    (SiteConfig.addServer (inl 80%Z) false
       (SiteConfig.include "/etc/nginx/mime.types" SiteConfig.new)).

End Samples.

(* ================================================================== *)
(** ** Measures used in the statements *)
(* ================================================================== *)

(** How many copies of [c] the text ends with. *)
Fixpoint trailing (c : ascii) (s : string) : nat :=
  match s with
  | EmptyString => 0
  | String a s' =>
      let n := trailing c s' in
      if Ascii.eqb a c && Nat.eqb n (String.length s') then S n else n
  end.

(** Does the text hold a character that [trim] keeps? *)
Fixpoint hasInk (s : string) : bool :=
  match s with
  | EmptyString => false
  | String c s' => negb (JS.isWhiteSpace c) || hasInk s'
  end.

(** [sub] occurs in [s] as a contiguous piece. *)
Definition occursIn (sub s : string) : Prop :=
  exists pre post, s = pre ++ sub ++ post.

(** The same, decided. *)
Fixpoint occursInb (sub s : string) : bool :=
  String.prefix sub s ||
  match s with
  | EmptyString => false
  | String _ s' => occursInb sub s'
  end.

(** [n] copies of the 4-space indentation unit. *)
Fixpoint indentation (n : nat) : string :=
  match n with
  | O => ""
  | S n' => "    " ++ indentation n'
  end.

(* ================================================================== *)
(** ** Descriptions in the words of the specification *)
(* ================================================================== *)

(** The description of a pool-member line in the specification's words:
    the address, then the modifiers that were supplied, in the order
    weight, max_fails, fail_timeout, backup, down. *)
Module UpstreamSpec.

Definition numeric (name : string) (v : option Z) : list string :=
  match v with
  | Some n => [name ++ JS.numberToString n]
  | None => []
  end.

Definition textual (name : string) (v : option string) : list string :=
  match v with
  | Some s => if JS.truthy s then [name ++ s] else []
  | None => []
  end.

Definition flag (name : string) (v : option bool) : list string :=
  match v with
  | Some true => [name]
  | _ => []
  end.

Definition modifiers (o : UpstreamBlock.ServerOptions) : list string :=
  (numeric "weight=" (UpstreamBlock.weight o)
   ++ numeric "max_fails=" (UpstreamBlock.maxFails o)
   ++ textual "fail_timeout=" (UpstreamBlock.failTimeout o)
   ++ flag "backup" (UpstreamBlock.backup o)
   ++ flag "down" (UpstreamBlock.down o))%list.

Definition serverLine (call : string * UpstreamBlock.ServerOptions) : string :=
  Block.terminated
    ("server " ++ JS.join " " (fst call :: modifiers (snd call))).

End UpstreamSpec.

(** The header lines of the CORS helper in the specification's words:
    allow-origin, allow-methods, allow-headers, allow-credentials when
    asked for, max-age. *)
Module CorsSpec.

Definition header (name value : string) : string :=
  Block.terminated ("add_header " ++ name ++ " " ++ value).

Definition allowOrigin (o : LocationBlock.CorsOptions) : string :=
  header "Access-Control-Allow-Origin"
    (JS.join " " (LocationBlock.orDefault ["*"] (LocationBlock.origins o))).

Definition allowMethods (o : LocationBlock.CorsOptions) : string :=
  header "Access-Control-Allow-Methods"
    (JS.join " " (LocationBlock.orDefault ["GET"; "POST"; "OPTIONS"]
                                          (LocationBlock.methods o))).

Definition allowHeaders (o : LocationBlock.CorsOptions) : string :=
  header "Access-Control-Allow-Headers"
    (JS.join " "
       (LocationBlock.orDefault
          ["DNT"; "X-CustomHeader"; "Keep-Alive"; "User-Agent"]
          (LocationBlock.headers o))).

Definition allowCredentials (o : LocationBlock.CorsOptions) : list string :=
  match LocationBlock.credentials o with
  | Some true => [header "Access-Control-Allow-Credentials" "true"]
  | _ => []
  end.

Definition maxAge (o : LocationBlock.CorsOptions) : string :=
  header "Access-Control-Max-Age"
    (JS.numberToString
       (LocationBlock.orDefault 1728000%Z (LocationBlock.maxAge o))).

Definition lines (o : LocationBlock.CorsOptions) : list string :=
  ([allowOrigin o; allowMethods o; allowHeaders o]
   ++ allowCredentials o ++ [maxAge o])%list.

End CorsSpec.

(** The rendering of the typed option set in the specification's words:
    one line per present option, the fields taken in schema order. *)
Module TypedSpec.
Import HttpBlock.

Definition schema : list Key :=
  [sendfile; keepalive_timeout; client_max_body_size; default_type;
   gzip; gzip_types; tcp_nopush; tcp_nodelay].

(** The directive name of a field. *)
Definition keyName (k : Key) : string :=
  match k with
  | sendfile => "sendfile"
  | keepalive_timeout => "keepalive_timeout"
  | client_max_body_size => "client_max_body_size"
  | default_type => "default_type"
  | gzip => "gzip"
  | gzip_types => "gzip_types"
  | tcp_nopush => "tcp_nopush"
  | tcp_nodelay => "tcp_nodelay"
  end.

(** The rendered value of field [k], when the field yields a line. *)
Definition rendered (o : HttpTypedDirectives) (k : Key) : option string :=
  match k with
  | sendfile | gzip | tcp_nopush | tcp_nodelay =>
      option_map JS.onOff (readBoolean k o)
  | keepalive_timeout => option_map JS.numberToString (readNumber k o)
  | client_max_body_size | default_type =>
      match readString k o with
      | Some s => if JS.truthy s then Some s else None
      | None => None
      end
  | gzip_types =>
      match readStrings k o with
      | Some (t :: ts) => Some (JS.join " " (t :: ts))
      | _ => None
      end
  end.

(** The line of field [k]: none or one. *)
Definition line (o : HttpTypedDirectives) (k : Key) : list string :=
  match rendered o k with
  | Some v => [keyName k ++ " " ++ v ++ ";"]
  | None => []
  end.

Definition lines (o : HttpTypedDirectives) : list string :=
  flat_map (line o) schema.

(** Two objects hold the same properties with the same values, whatever
    the order in which the properties were inserted. *)
Definition sameProperties (o1 o2 : HttpTypedDirectives) : Prop :=
  forall k, getProperty k o1 = getProperty k o2.

(** No line of [ls] is a line of the directive [name]. *)
Definition noLineOf (name : string) (ls : list string) : Prop :=
  Forall (fun l => JS.startsWith l (name ++ " ") = false) ls.

End TypedSpec.

(** What holds of the three directive fields of a top-level document:
    each is unset or holds a text ending in the statement separator. *)
Module NginxConfigInv.

Definition field (x : option string) : bool :=
  match x with
  | Some s => JS.endsWith s ";"
  | None => true
  end.

Definition wellFormed (c : NginxConfig.t) : bool :=
  field (NginxConfig.userDirective c)
  && field (NginxConfig.workerProcessesDirective c)
  && field (NginxConfig.pidDirective c).

(** The states of a document: those its methods produce from a new
    document. *)
Inductive Reachable : NginxConfig.t -> Prop :=
| R_new : Reachable NginxConfig.new
| R_user u c : Reachable c -> Reachable (NginxConfig.user u c)
| R_workerProcesses v c :
    Reachable c -> Reachable (NginxConfig.workerProcesses v c)
| R_pid p c : Reachable c -> Reachable (NginxConfig.pid p c)
| R_events f c : Reachable c -> Reachable (NginxConfig.events f c)
| R_http f c : Reachable c -> Reachable (NginxConfig.http f c).

End NginxConfigInv.

(** The render algorithm of an HTTP-level block in the specification's
    words: five groups in a fixed order, the non-empty ones separated by
    one blank line, wrapped in the delimiters of the block. *)
Module HttpSpec.

Definition blankLine : string := JS.LF ++ JS.LF.

(** A group of lines, one per entry, each at the given indentation. *)
Definition linesGroup (indent : string) (ls : list string) : string :=
  JS.join JS.LF (map (fun d => indent ++ d) ls).

(** A child collection: its members in insertion order, one blank line
    between two of them. *)
Definition membersGroup {A} (render : string -> A -> string)
  (indent : string) (xs : list A) : string :=
  JS.join blankLine (map (render indent) xs).

Definition groups (indent : string) (h : HttpBlock.t) : list string :=
  let inner := indent ++ "    " in
  [ linesGroup inner (HttpBlock.buildTypedDirectives h);
    linesGroup inner (HttpBlock.directives h);
    membersGroup UpstreamBlock.build inner (HttpBlock.upstreams h);
    membersGroup MapBlock.build inner (HttpBlock.maps h);
    membersGroup ServerBlock.build inner (HttpBlock.servers h) ].

Definition nonEmpty (s : string) : bool := negb (s =? "").

Definition render (indent : string) (h : HttpBlock.t) : string :=
  match filter nonEmpty (groups indent h) with
  | [] => indent ++ "http {}"
  | gs =>
      indent ++ "http {" ++ JS.LF ++ JS.join blankLine gs ++ JS.LF
             ++ indent ++ "}"
  end.

(** Every free-form directive of the block is terminated, as
    [addDirective] leaves it. *)
Definition terminatedStore (ds : Block.store) : Prop :=
  Forall (fun d => JS.endsWith d ";" = true) ds.

End HttpSpec.

(** The text is not empty and its last character is not [c]. *)
Definition endsOther (c : ascii) (p : string) : Prop :=
  p <> "" /\ trailing c p = 0.

(** The text is empty or holds ink: [trim] then leaves it non-empty
    exactly when it is non-empty. *)
Definition tidy (g : string) : Prop := g = "" \/ hasInk g = true.

(** The store [ds'] is [ds] followed by at most [n] further lines, each
    ending in the statement separator. *)
Definition extendsBy (n : nat) (ds ds' : Block.store) : Prop :=
  exists new,
    ds' = (ds ++ new)%list
    /\ Forall (fun d => JS.endsWith d ";" = true) new
    /\ List.length new <= n.

(** A record of common directives with the fields that have no directive
    of their own left out. *)
Definition handledFields (d : CommonDirectives.t) : CommonDirectives.t :=
  CommonDirectives.mk
    (CommonDirectives.accessLog d) (CommonDirectives.errorLog d)
    (CommonDirectives.clientMaxBodySize d) (CommonDirectives.sendTimeout d)
    (CommonDirectives.sendfile d) (CommonDirectives.tcp_nopush d)
    (CommonDirectives.tcp_nodelay d)
    None None None None None None.

(** Cache options with the two modifiers of the cache path left out. *)
Definition withoutPathModifiers (o : CacheOptions.t) : CacheOptions.t :=
  CacheOptions.mk (CacheOptions.path o) None None (CacheOptions.validTime o)
                  (CacheOptions.useStale o) (CacheOptions.key o).

(** *** The public methods of each block kind, as calls

    A value of [Call] names one public method with its arguments;
    [call] performs it.  A method that hands out a child is followed by
    what the caller does with the handle ([On...]).  For the events and
    upstream blocks the calls are the methods the class itself defines
    and the inherited append operation; for the location, server and
    http blocks the three inherited option helpers are calls too. *)

Module EventsCalls.

Inductive Call :=
| WorkerConnections (num : Z)
| MultiAccept (on : bool)
| UseEpoll (on : bool)
| WorkerAioRequests (num : Z)
| AcceptMutex (on : bool)
| AcceptMutexDelay (delay : Z)
| DebugConnection (address : string)
| AddDirective (directive : string).

Definition call (c : Call) (b : EventsBlock.t) : EventsBlock.t :=
  match c with
  | WorkerConnections num => EventsBlock.workerConnections num b
  | MultiAccept on => EventsBlock.multiAccept on b
  | UseEpoll on => EventsBlock.useEpoll on b
  | WorkerAioRequests num => EventsBlock.workerAioRequests num b
  | AcceptMutex on => EventsBlock.acceptMutex on b
  | AcceptMutexDelay delay => EventsBlock.acceptMutexDelay delay b
  | DebugConnection address => EventsBlock.debugConnection address b
  | AddDirective directive => addDirective directive b
  end.

Definition run (cs : list Call) (b : EventsBlock.t) : EventsBlock.t :=
  fold_left (fun b c => call c b) cs b.

End EventsCalls.

Module UpstreamCalls.

Inductive Call :=
| Server (address : string) (options : UpstreamBlock.ServerOptions)
| LeastConn
| IpHash
| Hash (key : string) (consistent : bool)
| Random (two : bool)
| Keepalive (connections : Z)
| KeepaliveRequests (number : Z)
| KeepaliveTimeout (timeout : Z)
| Queue (number : Z) (timeout : option string)
| Zone (name size : string)
| State (file : string)
| SlowStart (time : string)
| Resolve
| AddDirective (directive : string).

Definition call (c : Call) (b : UpstreamBlock.t) : UpstreamBlock.t :=
  match c with
  | Server address options => UpstreamBlock.server address options b
  | LeastConn => UpstreamBlock.leastConn b
  | IpHash => UpstreamBlock.ipHash b
  | Hash key consistent => UpstreamBlock.hash key consistent b
  | Random two => UpstreamBlock.random two b
  | Keepalive connections => UpstreamBlock.keepalive connections b
  | KeepaliveRequests number => UpstreamBlock.keepaliveRequests number b
  | KeepaliveTimeout timeout => UpstreamBlock.keepaliveTimeout timeout b
  | Queue number timeout => UpstreamBlock.queue number timeout b
  | Zone name size => UpstreamBlock.zone name size b
  | State file => UpstreamBlock.state file b
  | SlowStart time => UpstreamBlock.slowStart time b
  | Resolve => UpstreamBlock.resolve b
  | AddDirective directive => addDirective directive b
  end.

Definition run (cs : list Call) (b : UpstreamBlock.t) : UpstreamBlock.t :=
  fold_left (fun b c => call c b) cs b.

End UpstreamCalls.

Module LocationCalls.

Inductive Call :=
| Root (path : string)
| Alias (path : string)
| Index (files : list string)
| AllowDeny (rules : list string)
| AuthBasic (realm : string)
| AuthBasicUserFile (file : string)
| TryFiles (files : list string)
| ProxyPass (url : string)
| ProxySetHeader (header value : string)
| ProxyBuffering (on : bool)
| ProxyBufferSize (size : string)
| ProxyBuffers (number : Z) (size : string)
| ProxyBusyBuffersSize (size : string)
| ProxyMaxTempFileSize (size : string)
| ProxyReadTimeout (timeout : string)
| ProxyConnectTimeout (timeout : string)
| ProxySendTimeout (timeout : string)
| ProxyRedirect (from to : string)
| FastcgiPass (address : string)
| FastcgiParam (param value : string)
| FastcgiIndex (index : string)
| AddHeader (name value : string)
| EnableCors (options : LocationBlock.CorsOptions)
| Expires (time : string)
| IncludeTypedDirective (filename : string)
| AddDirective (directive : string)
| ApplyCommonDirectives (d : CommonDirectives.t)
| ConfigureCompression (o : CompressionOptions.t)
| ConfigureCache (o : CacheOptions.t)
| If (condition : string)
| OnIf (i : nat) (f : IfBlock.t -> IfBlock.t).

Definition call (c : Call) (b : LocationBlock.t) : LocationBlock.t :=
  match c with
  | Root path => LocationBlock.root path b
  | Alias path => LocationBlock.alias path b
  | Index files => LocationBlock.index files b
  | AllowDeny rules => LocationBlock.allowDeny rules b
  | AuthBasic realm => LocationBlock.auth_basic realm b
  | AuthBasicUserFile file => LocationBlock.auth_basic_user_file file b
  | TryFiles files => LocationBlock.tryFiles files b
  | ProxyPass url => LocationBlock.proxyPass url b
  | ProxySetHeader header value => LocationBlock.proxySetHeader header value b
  | ProxyBuffering on => LocationBlock.proxyBuffering on b
  | ProxyBufferSize size => LocationBlock.proxyBufferSize size b
  | ProxyBuffers number size => LocationBlock.proxyBuffers number size b
  | ProxyBusyBuffersSize size => LocationBlock.proxyBusyBuffersSize size b
  | ProxyMaxTempFileSize size => LocationBlock.proxyMaxTempFileSize size b
  | ProxyReadTimeout timeout => LocationBlock.proxyReadTimeout timeout b
  | ProxyConnectTimeout timeout => LocationBlock.proxyConnectTimeout timeout b
  | ProxySendTimeout timeout => LocationBlock.proxySendTimeout timeout b
  | ProxyRedirect from to => LocationBlock.proxyRedirect from to b
  | FastcgiPass address => LocationBlock.fastcgiPass address b
  | FastcgiParam param value => LocationBlock.fastcgiParam param value b
  | FastcgiIndex index => LocationBlock.fastcgiIndex index b
  | AddHeader name value => LocationBlock.addHeader name value b
  | EnableCors options => LocationBlock.enableCors options b
  | Expires time => LocationBlock.expires time b
  | IncludeTypedDirective filename =>
      LocationBlock.includeTypedDirective filename b
  | AddDirective directive => addDirective directive b
  | ApplyCommonDirectives d => applyCommonDirectives d b
  | ConfigureCompression o => configureCompression o b
  | ConfigureCache o => configureCache o b
  | If condition => LocationBlock.if_ condition b
  | OnIf i f => LocationBlock.onIf i f b
  end.

Definition run (cs : list Call) (b : LocationBlock.t) : LocationBlock.t :=
  fold_left (fun b c => call c b) cs b.

End LocationCalls.

Module ServerCalls.

Inductive Call :=
| Listen (portOrUnix : Z + string) (ssl : bool)
| ServerName (names : list string)
| Root (path : string)
| Index (files : list string)
| SslCertificate (path : string)
| SslCertificateKey (path : string)
| SslCiphers (ciphers : string)
| SslProtocols (protocols : list string)
| SslPreferServerCiphers (on : bool)
| SslSessionCache (value : string)
| SslSessionTimeout (value : string)
| SslDhparam (path : string)
| AllowDeny (rules : list string)
| AuthBasic (realm : string)
| AuthBasicUserFile (file : string)
| AccessLog (path : string) (format : option string)
| ErrorLog (path : string) (level : option string)
| ErrorPage (code : Z + list Z) (uri : string)
| ClientMaxBodySize (size : string)
| ReturnDirective (code : Z) (url : string)
| TryFiles (files : list string)
| Rewrite (regex replacement : string) (flag : option string)
| AddDirective (directive : string)
| ApplyCommonDirectives (d : CommonDirectives.t)
| ConfigureCompression (o : CompressionOptions.t)
| ConfigureCache (o : CacheOptions.t)
| AddLocation (path : string) (exact : bool)
| OnLocation (i : nat) (f : LocationBlock.t -> LocationBlock.t).

Definition call (c : Call) (b : ServerBlock.t) : ServerBlock.t :=
  match c with
  | Listen portOrUnix ssl => ServerBlock.listen portOrUnix ssl b
  | ServerName names => ServerBlock.serverName names b
  | Root path => ServerBlock.root path b
  | Index files => ServerBlock.index files b
  | SslCertificate path => ServerBlock.sslCertificate path b
  | SslCertificateKey path => ServerBlock.sslCertificateKey path b
  | SslCiphers ciphers => ServerBlock.sslCiphers ciphers b
  | SslProtocols protocols => ServerBlock.sslProtocols protocols b
  | SslPreferServerCiphers on => ServerBlock.sslPreferServerCiphers on b
  | SslSessionCache value => ServerBlock.sslSessionCache value b
  | SslSessionTimeout value => ServerBlock.sslSessionTimeout value b
  | SslDhparam path => ServerBlock.sslDhparam path b
  | AllowDeny rules => ServerBlock.allowDeny rules b
  | AuthBasic realm => ServerBlock.auth_basic realm b
  | AuthBasicUserFile file => ServerBlock.auth_basic_user_file file b
  | AccessLog path format => ServerBlock.accessLog path format b
  | ErrorLog path level => ServerBlock.errorLog path level b
  | ErrorPage code uri => ServerBlock.errorPage code uri b
  | ClientMaxBodySize size => ServerBlock.clientMaxBodySize size b
  | ReturnDirective code url => ServerBlock.returnDirective code url b
  | TryFiles files => ServerBlock.tryFiles files b
  | Rewrite regex replacement flag =>
      ServerBlock.rewrite regex replacement flag b
  | AddDirective directive => addDirective directive b
  | ApplyCommonDirectives d => applyCommonDirectives d b
  | ConfigureCompression o => configureCompression o b
  | ConfigureCache o => configureCache o b
  | AddLocation path exact => ServerBlock.addLocation path exact b
  | OnLocation i f => ServerBlock.onLocation i f b
  end.

Definition run (cs : list Call) (b : ServerBlock.t) : ServerBlock.t :=
  fold_left (fun b c => call c b) cs b.

End ServerCalls.

Module HttpCalls.

Inductive Call :=
| KeepaliveTimeout (seconds : Z) (headerTimeout : option Z)
| Sendfile (on : bool)
| TcpNopush (on : bool)
| TcpNodelay (on : bool)
| DefaultType (type : string)
| Types (path : string)
| ClientMaxBodySize (size : string)
| ClientBodyBufferSize (size : string)
| ClientBodyTimeout (time : Z)
| ClientHeaderTimeout (time : Z)
| SendTimeout (time : Z)
| ClientHeaderBufferSize (size : string)
| LargeClientHeaderBuffers (number : Z) (size : string)
| Gzip (on : bool)
| GzipTypes (types : list string)
| GzipMinLength (length : string)
| GzipProxied (opt : string)
| GzipComp (level : Z)
| GzipVary (on : bool)
| SslSessionCache (type : string) (args : list string)
| SslSessionTimeout (time : string)
| AccessLog (path : string) (format : option string)
| ErrorLog (path : string) (level : option string)
| Include (path : string)
| LogFormat (name format : string)
| AddDirective (directive : string)
| ApplyCommonDirectives (d : CommonDirectives.t)
| ConfigureCompression (o : CompressionOptions.t)
| ConfigureCache (o : CacheOptions.t)
| ApplyTypedDirectives (d : HttpBlock.HttpTypedDirectives)
| AddServer (portOrUnix : Z + string) (ssl : bool)
| AddUpstream (name : string)
| AddMap (variable outputVar : string)
| OnServer (i : nat) (f : ServerBlock.t -> ServerBlock.t)
| OnUpstream (i : nat) (f : UpstreamBlock.t -> UpstreamBlock.t)
| OnMap (i : nat) (f : MapBlock.t -> MapBlock.t).

Definition call (c : Call) (b : HttpBlock.t) : HttpBlock.t :=
  match c with
  | KeepaliveTimeout seconds headerTimeout =>
      HttpBlock.keepaliveTimeout seconds headerTimeout b
  | Sendfile on => HttpBlock.sendfile_ on b
  | TcpNopush on => HttpBlock.tcpNopush on b
  | TcpNodelay on => HttpBlock.tcpNodelay on b
  | DefaultType type => HttpBlock.defaultType type b
  | Types path => HttpBlock.types path b
  | ClientMaxBodySize size => HttpBlock.clientMaxBodySize size b
  | ClientBodyBufferSize size => HttpBlock.clientBodyBufferSize size b
  | ClientBodyTimeout time => HttpBlock.clientBodyTimeout time b
  | ClientHeaderTimeout time => HttpBlock.clientHeaderTimeout time b
  | SendTimeout time => HttpBlock.sendTimeout time b
  | ClientHeaderBufferSize size => HttpBlock.clientHeaderBufferSize size b
  | LargeClientHeaderBuffers number size =>
      HttpBlock.largeClientHeaderBuffers number size b
  | Gzip on => HttpBlock.gzip_ on b
  | GzipTypes types => HttpBlock.gzipTypes types b
  | GzipMinLength length => HttpBlock.gzipMinLength length b
  | GzipProxied opt => HttpBlock.gzipProxied opt b
  | GzipComp level => HttpBlock.gzipComp level b
  | GzipVary on => HttpBlock.gzipVary on b
  | SslSessionCache type args => HttpBlock.sslSessionCache type args b
  | SslSessionTimeout time => HttpBlock.sslSessionTimeout time b
  | AccessLog path format => HttpBlock.accessLog path format b
  | ErrorLog path level => HttpBlock.errorLog path level b
  | Include path => HttpBlock.include path b
  | LogFormat name format => HttpBlock.logFormat name format b
  | AddDirective directive => addDirective directive b
  | ApplyCommonDirectives d => applyCommonDirectives d b
  | ConfigureCompression o => configureCompression o b
  | ConfigureCache o => configureCache o b
  | ApplyTypedDirectives d => HttpBlock.applyTypedDirectives d b
  | AddServer portOrUnix ssl => HttpBlock.addServer portOrUnix ssl b
  | AddUpstream name => HttpBlock.addUpstream name b
  | AddMap variable outputVar => HttpBlock.addMap variable outputVar b
  | OnServer i f => HttpBlock.onServer i f b
  | OnUpstream i f => HttpBlock.onUpstream i f b
  | OnMap i f => HttpBlock.onMap i f b
  end.

Definition run (cs : list Call) (b : HttpBlock.t) : HttpBlock.t :=
  fold_left (fun b c => call c b) cs b.

End HttpCalls.

(** The parts of a full document that are present, in the order user,
    worker processes, pid, events section, http section. *)
Module NginxSpec.

Definition present {A} (x : option A) : list A :=
  match x with
  | Some v => [v]
  | None => []
  end.

Definition parts (c : NginxConfig.t) : list string :=
  (present (NginxConfig.userDirective c)
   ++ present (NginxConfig.workerProcessesDirective c)
   ++ present (NginxConfig.pidDirective c)
   ++ present (option_map EventsBlock.build (NginxConfig.eventsBlock c))
   ++ present (option_map (HttpBlock.build "") (NginxConfig.httpBlock c)))%list.

End NginxSpec.

(* ================================================================== *)
(** ** Facts about strings *)
(* ================================================================== *)

Section StringFacts.

Lemma append_nil_r (s : string) : s ++ "" = s.
Proof. induction s as [|a s IH]; simpl; [reflexivity | now rewrite IH]. Qed.

Lemma append_assoc (a b c : string) : (a ++ b) ++ c = a ++ (b ++ c).
Proof. induction a as [|x a IH]; simpl; [reflexivity | now rewrite IH]. Qed.

Lemma append_length (a b : string) :
  String.length (a ++ b) = String.length a + String.length b.
Proof. induction a as [|x a IH]; simpl; [reflexivity | now rewrite IH]. Qed.

Lemma append_eq_nil (a b : string) : a ++ b = "" -> a = "" /\ b = "".
Proof. destruct a; simpl; [auto | discriminate]. Qed.

Lemma truthy_false (s : string) : JS.truthy s = false <-> s = "".
Proof.
  unfold JS.truthy. destruct (String.eqb_spec s ""); simpl; split; congruence.
Qed.

Lemma truthy_true (s : string) : JS.truthy s = true <-> s <> "".
Proof.
  unfold JS.truthy. destruct (String.eqb_spec s ""); simpl; split; congruence.
Qed.

Lemma prefix_append (p post : string) : String.prefix p (p ++ post) = true.
Proof.
  induction p as [|a p IH]; simpl; [now destruct post |].
  destruct (ascii_dec a a); [exact IH | congruence].
Qed.

(** *** [endsWith] *)

Lemma endsWith_append (a s suf : string) :
  JS.endsWith s suf = true -> JS.endsWith (a ++ s) suf = true.
Proof.
  intros H. induction a as [|x a IH]; simpl; [exact H |].
  rewrite IH. apply orb_true_r.
Qed.

Lemma endsWith_self (s : string) : JS.endsWith s s = true.
Proof. destruct s; simpl; [reflexivity | now rewrite Ascii.eqb_refl, String.eqb_refl]. Qed.

Lemma endsWith_append_self (a suf : string) : JS.endsWith (a ++ suf) suf = true.
Proof. apply endsWith_append, endsWith_self. Qed.

Lemma endsWith_split (s suf : string) :
  JS.endsWith s suf = true -> exists pre, s = pre ++ suf.
Proof.
  induction s as [|a s IH]; cbn [JS.endsWith]; intros H.
  - rewrite orb_false_r in H. apply String.eqb_eq in H. now exists "".
  - apply orb_true_iff in H as [H | H].
    + apply String.eqb_eq in H. exists "". now rewrite <- H.
    + destruct (IH H) as [pre ->]. now exists (String a pre).
Qed.

(** *** [trailing] *)

Lemma trailing_le_length (c : ascii) (s : string) :
  trailing c s <= String.length s.
Proof.
  induction s as [|a s IH]; simpl; [lia |].
  destruct (Ascii.eqb a c && Nat.eqb (trailing c s) (String.length s)); lia.
Qed.

Lemma trailing_snoc (c : ascii) (s : string) :
  trailing c (s ++ String c "") = S (trailing c s).
Proof.
  induction s as [|a s IH]; simpl.
  - now rewrite Ascii.eqb_refl.
  - rewrite IH, append_length. simpl String.length.
    replace (Nat.eqb (S (trailing c s)) (String.length s + 1))
      with (Nat.eqb (trailing c s) (String.length s)).
    + destruct (Ascii.eqb a c && Nat.eqb (trailing c s) (String.length s));
        reflexivity.
    + destruct (Nat.eqb_spec (trailing c s) (String.length s));
        symmetry; [apply Nat.eqb_eq | apply Nat.eqb_neq]; lia.
Qed.

Lemma trailing_snoc_other (c d : ascii) (s : string) :
  d <> c -> trailing c (s ++ String d "") = 0.
Proof.
  intros Hd. induction s as [|a s IH]; simpl.
  - apply Ascii.eqb_neq in Hd. now rewrite Hd.
  - rewrite IH, append_length. simpl String.length.
    replace (Nat.eqb 0 (String.length s + 1)) with false.
    + now rewrite andb_false_r.
    + symmetry. apply Nat.eqb_neq. lia.
Qed.

Lemma endsWith_char (c : ascii) (s : string) :
  JS.endsWith s (String c "") = Nat.ltb 0 (trailing c s).
Proof.
  induction s as [|a s IH]; [reflexivity |].
  change (JS.endsWith (String a s) (String c ""))
    with ((Ascii.eqb a c && (s =? "")) || JS.endsWith s (String c "")).
  change (trailing c (String a s))
    with (if Ascii.eqb a c && Nat.eqb (trailing c s) (String.length s)
          then S (trailing c s) else trailing c s).
  rewrite IH. clear IH.
  destruct (String.eqb_spec s "") as [-> | Hs].
  - simpl. destruct (Ascii.eqb a c); reflexivity.
  - rewrite andb_false_r. simpl orb.
    assert (0 < String.length s) by (destruct s; simpl; [congruence | lia]).
    destruct (Ascii.eqb a c); simpl andb; [| reflexivity].
    destruct (Nat.eqb_spec (trailing c s) (String.length s)) as [E | _];
      [| reflexivity].
    rewrite E. destruct (String.length s); [lia | reflexivity].
Qed.

Lemma trailing_zero (c : ascii) (s : string) :
  JS.endsWith s (String c "") = false -> trailing c s = 0.
Proof.
  rewrite endsWith_char. intros H. apply Nat.ltb_ge in H. lia.
Qed.

End StringFacts.

(* ================================================================== *)
(** ** The directive store *)
(* ================================================================== *)

Section DirectiveStore.

Lemma terminated_endsWith (s : string) :
  JS.endsWith (Block.terminated s) ";" = true.
Proof.
  unfold Block.terminated.
  destruct (JS.endsWith s ";") eqn:E; simpl; [exact E |].
  apply endsWith_append_self.
Qed.

Lemma terminated_trailing (s : string) :
  trailing ";" (Block.terminated s) = Nat.max 1 (trailing ";" s).
Proof.
  unfold Block.terminated.
  destruct (JS.endsWith s ";") eqn:E; simpl negb; cbv iota.
  - rewrite endsWith_char in E. apply Nat.ltb_lt in E. lia.
  - rewrite trailing_snoc, (trailing_zero _ _ E). reflexivity.
Qed.

(** C2, as amended. Appending [s] makes the store grow by exactly one
    line; the line is [s] followed by [;] when [s] does not end in [;],
    and [s] itself when it does, so the separator is never duplicated.
    The stored line always ends in [;]: when [s] ends in [n] separators,
    the line ends in the larger of 1 and [n], hence in exactly one when
    [s] ends in none or one.  The line is rendered as the indentation
    followed by the stored text. *)
Theorem addDirective_terminates_once (s : string) (ds : Block.store) :
  Block.addDirective s ds = (ds ++ [Block.terminated s])%list
  /\ Block.terminated s = (if JS.endsWith s ";" then s else s ++ ";")
  /\ JS.endsWith (Block.terminated s) ";" = true
  /\ trailing ";" (Block.terminated s) = Nat.max 1 (trailing ";" s)
  /\ forall indent,
       Block.formatDirectives indent [Block.terminated s]
       = indent ++ Block.terminated s.
Proof.
  split; [reflexivity |].
  split; [unfold Block.terminated; destruct (JS.endsWith s ";"); reflexivity |].
  split; [apply terminated_endsWith |].
  split; [apply terminated_trailing |].
  reflexivity.
Qed.

(** C2, as stated, fails on a text that already ends in two separators:
    the line is stored unchanged and ends in two [;], not in exactly
    one. *)
Lemma addDirective_keeps_doubled_separator :
  Block.addDirective "deny all;;" [] = ["deny all;;"]
  /\ trailing ";" "deny all;;" = 2
  /\ ~ (forall s, trailing ";" (Block.terminated s) = 1).
Proof.
  split; [reflexivity |]. split; [reflexivity |].
  intros H. specialize (H "deny all;;"). vm_compute in H. discriminate.
Qed.

End DirectiveStore.

(* ================================================================== *)
(** ** Server-pool members *)
(* ================================================================== *)

Section UpstreamFacts.

Lemma serverParts_modifiers (address : string) (o : UpstreamBlock.ServerOptions) :
  UpstreamBlock.serverParts address o = address :: UpstreamSpec.modifiers o.
Proof.
  destruct o as [[w|] [m|] [f|] [[|]|] [[|]|]];
    unfold UpstreamBlock.serverParts, UpstreamSpec.modifiers; cbn;
    try destruct (JS.truthy f); reflexivity.
Qed.

Lemma server_directives (address : string) (o : UpstreamBlock.ServerOptions)
  (u : UpstreamBlock.t) :
  UpstreamBlock.directives (UpstreamBlock.server address o u)
  = (UpstreamBlock.directives u ++ [UpstreamSpec.serverLine (address, o)])%list.
Proof.
  unfold UpstreamBlock.server, UpstreamSpec.serverLine.
  rewrite serverParts_modifiers. reflexivity.
Qed.

(** C7. Every pool-member addition appends exactly one directive to the
    pool; after any sequence of additions the new directives are the
    members' lines in call order; each line is [server], the address and
    the supplied modifiers in the order weight, max_fails, fail_timeout,
    backup, down, a modifier that is not supplied being left out. *)
Theorem upstream_server_lines
  (calls : list (string * UpstreamBlock.ServerOptions)) (u : UpstreamBlock.t) :
  UpstreamBlock.directives
    (fold_left (fun b call => UpstreamBlock.server (fst call) (snd call) b)
               calls u)
  = (UpstreamBlock.directives u ++ map UpstreamSpec.serverLine calls)%list
  /\ (forall address o,
        UpstreamBlock.serverParts address o
        = address :: UpstreamSpec.modifiers o)
  /\ UpstreamSpec.modifiers UpstreamBlock.noOptions = []
  /\ Forall (fun line => JS.startsWith line "server " = true)
            (map UpstreamSpec.serverLine calls).
Proof.
  split; [| split; [apply serverParts_modifiers | split; [reflexivity |]]].
  2:{ apply Forall_forall. intros line Hline.
      apply in_map_iff in Hline as [call [<- _]].
      unfold UpstreamSpec.serverLine, Block.terminated, JS.startsWith.
      destruct (negb _); rewrite ?append_assoc; apply prefix_append. }
  revert u. induction calls as [|[address o] calls IH]; intros u.
  - simpl. now rewrite app_nil_r.
  - cbn [fold_left map fst snd]. rewrite IH, server_directives.
    now rewrite <- app_assoc.
Qed.

End UpstreamFacts.

(* ================================================================== *)
(** ** The CORS helper *)
(* ================================================================== *)

Section CorsFacts.

(** C6, as amended. With the default options the CORS helper appends
    exactly four header directives, in the order allow-origin,
    allow-methods, allow-headers, max-age, the credentials line being
    left out.  For every options record the appended directives are, in
    this order, allow-origin, allow-methods, allow-headers,
    allow-credentials when the flag is true, and max-age. *)
Theorem enableCors_lines (o : LocationBlock.CorsOptions) (b : LocationBlock.t) :
  LocationBlock.directives (LocationBlock.enableCors o b)
  = (LocationBlock.directives b ++ CorsSpec.lines o)%list
  /\ CorsSpec.lines LocationBlock.noOptions
     = ["add_header Access-Control-Allow-Origin *;";
        "add_header Access-Control-Allow-Methods GET POST OPTIONS;";
        "add_header Access-Control-Allow-Headers DNT X-CustomHeader Keep-Alive User-Agent;";
        "add_header Access-Control-Max-Age 1728000;"]
  /\ List.length (CorsSpec.lines LocationBlock.noOptions) = 4.
Proof.
  split; [| split; reflexivity].
  unfold LocationBlock.enableCors, CorsSpec.lines, CorsSpec.allowCredentials.
  destruct (LocationBlock.credentials o) as [[|]|]; cbn;
    unfold JS.push; rewrite <- ?app_assoc; reflexivity.
Qed.

(** C6, as stated, fails on the default options: four header directives
    are appended, not five. *)
Lemma enableCors_default_has_four_lines :
  List.length
    (LocationBlock.directives
       (LocationBlock.enableCors LocationBlock.noOptions
                                 (LocationBlock.new "/" false))) = 4
  /\ List.length
       (LocationBlock.directives
          (LocationBlock.enableCors LocationBlock.noOptions
                                    (LocationBlock.new "/" false))) <> 5.
Proof. split; [reflexivity | vm_compute; discriminate]. Qed.

End CorsFacts.

(* ================================================================== *)
(** ** The typed option set *)
(* ================================================================== *)

Section TypedFacts.
Import HttpBlock.

Lemma Key_eqb_eq (a b : Key) : Key_eqb a b = true <-> a = b.
Proof. destruct a, b; simpl; split; congruence. Qed.

Lemma getProperty_setProperty (k : Key) (p : Property) (o : HttpTypedDirectives) :
  getProperty k (setProperty p o)
  = if Key_eqb (keyOf p) k then Some p else getProperty k o.
Proof.
  unfold getProperty. induction o as [|q o IH]; simpl.
  - destruct (Key_eqb (keyOf p) k); reflexivity.
  - destruct (Key_eqb (keyOf q) (keyOf p)) eqn:Eqp; simpl.
    + apply Key_eqb_eq in Eqp. rewrite Eqp.
      destruct (Key_eqb (keyOf p) k); reflexivity.
    + rewrite IH.
      destruct (Key_eqb (keyOf q) k) eqn:Eq, (Key_eqb (keyOf p) k) eqn:Ep;
        try reflexivity.
      apply Key_eqb_eq in Eq, Ep. rewrite Eq, Ep in Eqp.
      assert (Key_eqb k k = true) by now apply Key_eqb_eq.
      congruence.
Qed.

(** The lines are those of the eight fields, in schema order. *)
Lemma buildTypedLines_schema (o : HttpTypedDirectives) :
  buildTypedLines o = TypedSpec.lines o.
Proof.
  unfold buildTypedLines, TypedSpec.lines, TypedSpec.schema, TypedSpec.line,
    TypedSpec.rendered.
  cbn [flat_map].
  destruct (readBoolean sendfile o), (readNumber keepalive_timeout o),
    (readBoolean gzip o), (readBoolean tcp_nopush o),
    (readBoolean tcp_nodelay o); cbn [option_map];
  destruct (readString client_max_body_size o) as [s1|];
    try destruct (JS.truthy s1);
  destruct (readString default_type o) as [s2|];
    try destruct (JS.truthy s2);
  destruct (readStrings gzip_types o) as [[|t ts]|]; reflexivity.
Qed.

Lemma buildTypedLines_sameProperties (o1 o2 : HttpTypedDirectives) :
  TypedSpec.sameProperties o1 o2 -> buildTypedLines o1 = buildTypedLines o2.
Proof.
  intros H. unfold buildTypedLines, readBoolean, readNumber, readString,
    readStrings.
  now rewrite !H.
Qed.

(** C3. Merging two typed-option records into an HTTP-level block in one
    order or the other renders the same typed lines whenever the two
    final objects hold the same properties with the same values; the
    lines are those of the present options in the schema order sendfile,
    keepalive_timeout, client_max_body_size, default_type, gzip,
    gzip_types, tcp_nopush, tcp_nodelay, whatever the insertion order. *)
Theorem typed_lines_order_independent
  (a b : HttpTypedDirectives) (h : HttpBlock.t) :
  TypedSpec.sameProperties
    (typedDirectives (applyTypedDirectives b (applyTypedDirectives a h)))
    (typedDirectives (applyTypedDirectives a (applyTypedDirectives b h))) ->
  buildTypedDirectives (applyTypedDirectives b (applyTypedDirectives a h))
  = buildTypedDirectives (applyTypedDirectives a (applyTypedDirectives b h))
  /\ buildTypedDirectives (applyTypedDirectives b (applyTypedDirectives a h))
     = flat_map
         (TypedSpec.line
            (typedDirectives
               (applyTypedDirectives b (applyTypedDirectives a h))))
         [sendfile; keepalive_timeout; client_max_body_size; default_type;
          gzip; gzip_types; tcp_nopush; tcp_nodelay].
Proof.
  intros H. split.
  - unfold buildTypedDirectives. now apply buildTypedLines_sameProperties.
  - unfold buildTypedDirectives. apply buildTypedLines_schema.
Qed.

(** A witness for C3: [sendfile] and [gzip] merged before or after
    [tcp_nopush]; the two objects list their properties in different
    orders and render the same three lines. *)
Lemma typed_lines_order_independent_witness :
  TypedSpec.sameProperties
    (typedDirectives
       (applyTypedDirectives [P_tcp_nopush (Some true)]
          (applyTypedDirectives [P_sendfile (Some true); P_gzip (Some false)]
                                HttpBlock.new)))
    (typedDirectives
       (applyTypedDirectives [P_sendfile (Some true); P_gzip (Some false)]
          (applyTypedDirectives [P_tcp_nopush (Some true)] HttpBlock.new)))
  /\ buildTypedDirectives
       (applyTypedDirectives [P_tcp_nopush (Some true)]
          (applyTypedDirectives [P_sendfile (Some true); P_gzip (Some false)]
                                HttpBlock.new))
     = buildTypedDirectives
         (applyTypedDirectives [P_sendfile (Some true); P_gzip (Some false)]
            (applyTypedDirectives [P_tcp_nopush (Some true)] HttpBlock.new)).
Proof.
  assert (Hs : TypedSpec.sameProperties
    (typedDirectives
       (applyTypedDirectives [P_tcp_nopush (Some true)]
          (applyTypedDirectives [P_sendfile (Some true); P_gzip (Some false)]
                                HttpBlock.new)))
    (typedDirectives
       (applyTypedDirectives [P_sendfile (Some true); P_gzip (Some false)]
          (applyTypedDirectives [P_tcp_nopush (Some true)] HttpBlock.new))))
    by (intros k; destruct k; reflexivity).
  split; [exact Hs |].
  exact (proj1 (typed_lines_order_independent
                  [P_sendfile (Some true); P_gzip (Some false)]
                  [P_tcp_nopush (Some true)] HttpBlock.new Hs)).
Defined.

Lemma line_of_other_key (o : HttpTypedDirectives) (k k' : Key) :
  k <> k' -> TypedSpec.noLineOf (TypedSpec.keyName k') (TypedSpec.line o k).
Proof.
  intros Hk. unfold TypedSpec.noLineOf, TypedSpec.line.
  destruct (TypedSpec.rendered o k) as [v|]; [| constructor].
  constructor; [| constructor].
  destruct k, k'; try congruence; reflexivity.
Qed.

Lemma noLineOf_lines (o : HttpTypedDirectives) (k : Key) :
  TypedSpec.rendered o k = None ->
  TypedSpec.noLineOf (TypedSpec.keyName k) (buildTypedLines o).
Proof.
  intros Hnone. rewrite buildTypedLines_schema.
  unfold TypedSpec.lines, TypedSpec.noLineOf. apply Forall_flat_map.
  apply Forall_forall. intros k' _.
  destruct (Key_eqb k' k) eqn:E.
  - apply Key_eqb_eq in E. subst k'. unfold TypedSpec.line.
    rewrite Hnone. constructor.
  - apply line_of_other_key. intros ->.
    assert (Key_eqb k k = true) by now apply Key_eqb_eq. congruence.
Qed.

Lemma applyTypedDirectives_single (p : Property) (h : HttpBlock.t) :
  typedDirectives (applyTypedDirectives [p] h)
  = setProperty p (typedDirectives h).
Proof. reflexivity. Qed.

(** What a merge leaves under a key: the last property of the source
    with that key, or else what the target held. *)
Lemma find_append {A} (f : A -> bool) (l1 l2 : list A) :
  find f (l1 ++ l2)%list
  = match find f l1 with Some x => Some x | None => find f l2 end.
Proof.
  induction l1 as [|x l1 IH]; [reflexivity |].
  cbn [app find]. destruct (f x); [reflexivity | exact IH].
Qed.

Lemma getProperty_Object_assign (k : Key) (target source : HttpTypedDirectives) :
  getProperty k (Object_assign target source)
  = match getProperty k (rev source) with
    | Some p => Some p
    | None => getProperty k target
    end.
Proof.
  revert target. induction source as [|p source IH]; intros target;
    [reflexivity |].
  unfold Object_assign in *. cbn [fold_left rev]. rewrite IH.
  unfold getProperty at 3. rewrite find_append. fold (getProperty k (rev source)).
  destruct (getProperty k (rev source)); [reflexivity |].
  rewrite getProperty_setProperty. cbn [find].
  destruct (Key_eqb (keyOf p) k); reflexivity.
Qed.

Lemma getProperty_Some (k : Key) (o : HttpTypedDirectives) (p : Property) :
  getProperty k o = Some p -> In p o /\ keyOf p = k.
Proof.
  intros H. apply find_some in H as [Hin Hk]. split; [exact Hin |].
  now apply Key_eqb_eq.
Qed.

(** Two records that share no key can be merged in either order: the
    final objects hold the same properties. *)
Lemma disjoint_merges_sameProperties (a b o : HttpTypedDirectives) :
  (forall p q, In p a -> In q b -> keyOf p <> keyOf q) ->
  TypedSpec.sameProperties (Object_assign (Object_assign o a) b)
                           (Object_assign (Object_assign o b) a).
Proof.
  intros Hdisj k. rewrite !getProperty_Object_assign.
  destruct (getProperty k (rev a)) as [p|] eqn:Ea,
           (getProperty k (rev b)) as [q|] eqn:Eb; try reflexivity.
  apply getProperty_Some in Ea as [Hp Kp], Eb as [Hq Kq].
  apply in_rev in Hp, Hq. exfalso. apply (Hdisj p q Hp Hq). congruence.
Qed.

Lemma disjoint_merges_same_lines (a b : HttpTypedDirectives) (h : HttpBlock.t) :
  (forall p q, In p a -> In q b -> keyOf p <> keyOf q) ->
  buildTypedDirectives (applyTypedDirectives b (applyTypedDirectives a h))
  = buildTypedDirectives (applyTypedDirectives a (applyTypedDirectives b h)).
Proof.
  intros Hdisj. unfold buildTypedDirectives.
  apply buildTypedLines_sameProperties.
  now apply disjoint_merges_sameProperties.
Qed.

(** Writing a property changes the line of its own key only. *)
Lemma line_setProperty (p : Property) (o : HttpTypedDirectives) (k : Key) :
  TypedSpec.line (setProperty p o) k
  = if Key_eqb (keyOf p) k then TypedSpec.line [p] k else TypedSpec.line o k.
Proof.
  unfold TypedSpec.line, TypedSpec.rendered, readBoolean, readNumber,
    readString, readStrings.
  destruct k; rewrite getProperty_setProperty;
    destruct (Key_eqb (keyOf p) _) eqn:E; try reflexivity;
    unfold getProperty; cbn [find]; rewrite E; reflexivity.
Qed.

(** C9. In the typed option set of an HTTP-level block, an option merged
    with an empty value is rendered as absent: after merging
    [client_max_body_size] set to the empty string, or [gzip_types] set
    to the empty list, the key is a property of the set and no line of
    that directive is rendered: the typed lines are those of the other
    seven fields. *)
Theorem empty_typed_value_renders_nothing (h : HttpBlock.t) :
  (getProperty client_max_body_size
     (typedDirectives
        (applyTypedDirectives [P_client_max_body_size (Some "")] h))
   = Some (P_client_max_body_size (Some ""))
   /\ TypedSpec.noLineOf "client_max_body_size"
        (buildTypedDirectives
           (applyTypedDirectives [P_client_max_body_size (Some "")] h))
   /\ buildTypedDirectives
        (applyTypedDirectives [P_client_max_body_size (Some "")] h)
      = flat_map (TypedSpec.line (typedDirectives h))
          [sendfile; keepalive_timeout; default_type; gzip; gzip_types;
           tcp_nopush; tcp_nodelay])
  /\ (getProperty gzip_types
        (typedDirectives (applyTypedDirectives [P_gzip_types (Some [])] h))
      = Some (P_gzip_types (Some []))
      /\ TypedSpec.noLineOf "gzip_types"
           (buildTypedDirectives
              (applyTypedDirectives [P_gzip_types (Some [])] h))
      /\ buildTypedDirectives
           (applyTypedDirectives [P_gzip_types (Some [])] h)
         = flat_map (TypedSpec.line (typedDirectives h))
             [sendfile; keepalive_timeout; client_max_body_size; default_type;
              gzip; tcp_nopush; tcp_nodelay]).
Proof.
  unfold buildTypedDirectives. rewrite !applyTypedDirectives_single.
  split; (split; [now rewrite getProperty_setProperty |]); split.
  - apply (noLineOf_lines _ client_max_body_size).
    unfold TypedSpec.rendered, readString.
    now rewrite getProperty_setProperty.
  - rewrite buildTypedLines_schema.
    unfold TypedSpec.lines, TypedSpec.schema. cbn [flat_map].
    rewrite !line_setProperty. reflexivity.
  - apply (noLineOf_lines _ gzip_types).
    unfold TypedSpec.rendered, readStrings.
    now rewrite getProperty_setProperty.
  - rewrite buildTypedLines_schema.
    unfold TypedSpec.lines, TypedSpec.schema. cbn [flat_map].
    rewrite !line_setProperty. reflexivity.
Qed.

(** C10. A merge that maps a key to [undefined] clears the value merged
    before: after [applyTypedDirectives] with [sendfile] set to a boolean
    and then [applyTypedDirectives] with [sendfile] set to [undefined],
    the key reads as [undefined] and no [sendfile] line is rendered: the
    typed lines are those of the other seven fields, whereas after the
    first merge alone the [sendfile] line led them. *)
Theorem undefined_typed_value_clears (v : bool) (h : HttpBlock.t) :
  getProperty sendfile
    (typedDirectives
       (applyTypedDirectives [P_sendfile None]
          (applyTypedDirectives [P_sendfile (Some v)] h)))
  = Some (P_sendfile None)
  /\ TypedSpec.noLineOf "sendfile"
       (buildTypedDirectives
          (applyTypedDirectives [P_sendfile None]
             (applyTypedDirectives [P_sendfile (Some v)] h)))
  /\ buildTypedDirectives
       (applyTypedDirectives [P_sendfile None]
          (applyTypedDirectives [P_sendfile (Some v)] h))
     = flat_map (TypedSpec.line (typedDirectives h))
         [keepalive_timeout; client_max_body_size; default_type; gzip;
          gzip_types; tcp_nopush; tcp_nodelay]
  /\ buildTypedDirectives (applyTypedDirectives [P_sendfile (Some v)] h)
     = ("sendfile " ++ JS.onOff v ++ ";")
         :: flat_map (TypedSpec.line (typedDirectives h))
              [keepalive_timeout; client_max_body_size; default_type; gzip;
               gzip_types; tcp_nopush; tcp_nodelay].
Proof.
  unfold buildTypedDirectives. rewrite !applyTypedDirectives_single.
  split; [now rewrite getProperty_setProperty |]. split; [| split].
  - apply (noLineOf_lines _ sendfile).
    unfold TypedSpec.rendered, readBoolean.
    now rewrite getProperty_setProperty.
  - rewrite buildTypedLines_schema.
    unfold TypedSpec.lines, TypedSpec.schema. cbn [flat_map].
    rewrite !line_setProperty. reflexivity.
  - rewrite buildTypedLines_schema.
    unfold TypedSpec.lines, TypedSpec.schema. cbn [flat_map].
    rewrite !line_setProperty. reflexivity.
Qed.

End TypedFacts.

(* ================================================================== *)
(** ** Empty blocks *)
(* ================================================================== *)

Section EmptyBlocks.

(** C4, evaluated on the code. Of the six block kinds only the HTTP-level
    block renders the minimal form [name {}] when it holds nothing; the
    events, server, location, upstream and map blocks render the opening
    delimiter, an empty line and the closing delimiter. *)
Theorem empty_block_forms (indent name path variable outputVar : string)
  (exact : bool) :
  HttpBlock.build indent HttpBlock.new = indent ++ "http {}"
  /\ EventsBlock.build EventsBlock.new = "events {" ++ JS.LF ++ JS.LF ++ "}"
  /\ ServerBlock.build indent ServerBlock.new
     = indent ++ "server {" ++ JS.LF ++ JS.LF ++ indent ++ "}"
  /\ LocationBlock.build indent (LocationBlock.new path exact)
     = indent ++ "location " ++ (if exact then "=" else "") ++ " " ++ path
              ++ " {" ++ JS.LF ++ JS.LF ++ indent ++ "}"
  /\ UpstreamBlock.build indent (UpstreamBlock.new name)
     = indent ++ "upstream " ++ name ++ " {" ++ JS.LF ++ JS.LF ++ indent ++ "}"
  /\ MapBlock.build indent (MapBlock.new variable outputVar)
     = indent ++ "map " ++ variable ++ " " ++ outputVar ++ " {"
              ++ JS.LF ++ JS.LF ++ indent ++ "}".
Proof. repeat split; reflexivity. Qed.

End EmptyBlocks.

(* ================================================================== *)
(** ** Document roots *)
(* ================================================================== *)

Section DocumentRoots.

Lemma trailing_append (c : ascii) (a p : string) :
  trailing c p < String.length p -> trailing c (a ++ p) = trailing c p.
Proof.
  intros Hp. induction a as [|x a IH]; [reflexivity |].
  cbn [append trailing]. rewrite IH, append_length.
  replace (Nat.eqb (trailing c p) (String.length a + String.length p))
    with false by (symmetry; apply Nat.eqb_neq; lia).
  now rewrite andb_false_r.
Qed.

Lemma endsOther_append (c : ascii) (a p : string) :
  endsOther c p -> endsOther c (a ++ p).
Proof.
  intros [Hne Hz]. split.
  - intros E. now apply append_eq_nil in E.
  - rewrite trailing_append; [exact Hz |].
    destruct p; [congruence | simpl String.length; lia].
Qed.

Lemma endsOther_endsWith (c d : ascii) (s : string) :
  d <> c -> JS.endsWith s (String d "") = true -> endsOther c s.
Proof.
  intros Hd H. destruct (endsWith_split _ _ H) as [pre ->].
  apply endsOther_append. split; [discriminate |].
  simpl. apply Ascii.eqb_neq in Hd. now rewrite Hd.
Qed.

Lemma endsOther_join (c : ascii) (sep : string) (l : list string) :
  l <> [] -> Forall (endsOther c) l -> endsOther c (JS.join sep l).
Proof.
  induction l as [|x l IH]; [congruence |]. intros _ Hall.
  inversion Hall as [| ? ? Hx Hl]; subst.
  destruct l as [|y l]; [exact Hx |].
  change (JS.join sep (x :: y :: l)) with (x ++ sep ++ JS.join sep (y :: l)).
  do 2 apply endsOther_append. apply IH; [discriminate | exact Hl].
Qed.

Lemma one_newline_after (body : string) :
  body = "" \/ endsOther (ascii_of_nat 10) body ->
  trailing (ascii_of_nat 10) (body ++ JS.LF) = 1
  /\ JS.endsWith (body ++ JS.LF) JS.LF = true.
Proof.
  intros H. split; [| apply endsWith_append_self].
  unfold JS.LF. rewrite trailing_snoc.
  destruct H as [-> | [_ ->]]; reflexivity.
Qed.

Lemma join_tidy (c : ascii) (sep : string) (l : list string) :
  Forall (endsOther c) l ->
  JS.join sep l = "" \/ endsOther c (JS.join sep l).
Proof.
  intros H. destruct l as [|x l]; [now left | right].
  apply endsOther_join; [discriminate | exact H].
Qed.

Lemma Forall_push {A} (P : A -> Prop) (l : list A) (x : A) :
  Forall P l -> P x -> Forall P (JS.push l x).
Proof.
  intros Hl Hx. unfold JS.push. apply Forall_app. split; [exact Hl |].
  now constructor.
Qed.

Lemma pushTruthy_endsOther (x : option string) (parts : list string) :
  NginxConfigInv.field x = true ->
  Forall (endsOther (ascii_of_nat 10)) parts ->
  Forall (endsOther (ascii_of_nat 10)) (NginxConfig.pushTruthy x parts).
Proof.
  intros Hx Hparts. destruct x as [s|]; [| exact Hparts].
  simpl in *. destruct (JS.truthy s); [| exact Hparts].
  apply Forall_push; [exact Hparts |].
  apply (endsOther_endsWith _ ";"%char); [discriminate | exact Hx].
Qed.

Lemma closing_brace_endsOther :
  endsOther (ascii_of_nat 10) "}".
Proof. split; [discriminate | reflexivity]. Qed.

Lemma EventsBlock_build_endsOther (e : EventsBlock.t) :
  endsOther (ascii_of_nat 10) (EventsBlock.build e).
Proof.
  unfold EventsBlock.build. repeat apply endsOther_append.
  apply closing_brace_endsOther.
Qed.

Lemma HttpBlock_build_endsOther (indent : string) (h : HttpBlock.t) :
  endsOther (ascii_of_nat 10) (HttpBlock.build indent h).
Proof.
  unfold HttpBlock.build. cbv zeta.
  match goal with |- context [if ?b then _ else _] => destruct b end.
  - repeat apply endsOther_append. apply closing_brace_endsOther.
  - apply endsOther_append. split; [discriminate | reflexivity].
Qed.

Lemma ServerBlock_build_endsOther (indent : string) (s : ServerBlock.t) :
  endsOther (ascii_of_nat 10) (ServerBlock.build indent s).
Proof.
  unfold ServerBlock.build. cbv zeta.
  rewrite <- !append_assoc. apply endsOther_append.
  apply closing_brace_endsOther.
Qed.

(** The invariant holds of a new document and is kept by every method. *)
Lemma wellFormed_new : NginxConfigInv.wellFormed NginxConfig.new = true.
Proof. reflexivity. Qed.

Lemma semicolon_last (s : string) : JS.endsWith (s ++ ";") ";" = true.
Proof. apply endsWith_append_self. Qed.

Lemma wellFormed_user (u : string) (c : NginxConfig.t) :
  NginxConfigInv.wellFormed c = true ->
  NginxConfigInv.wellFormed (NginxConfig.user u c) = true.
Proof.
  unfold NginxConfigInv.wellFormed. cbn [NginxConfig.user
    NginxConfig.userDirective NginxConfig.workerProcessesDirective
    NginxConfig.pidDirective NginxConfigInv.field].
  intros H. apply andb_true_iff in H as [H H3].
  apply andb_true_iff in H as [_ H2]. rewrite H2, H3.
  rewrite (endsWith_append "user " (u ++ ";") ";" (semicolon_last u)).
  reflexivity.
Qed.

Lemma wellFormed_workerProcesses (v : string + Z) (c : NginxConfig.t) :
  NginxConfigInv.wellFormed c = true ->
  NginxConfigInv.wellFormed (NginxConfig.workerProcesses v c) = true.
Proof.
  unfold NginxConfigInv.wellFormed. cbn [NginxConfig.workerProcesses
    NginxConfig.userDirective NginxConfig.workerProcessesDirective
    NginxConfig.pidDirective NginxConfigInv.field].
  intros H. apply andb_true_iff in H as [H H3].
  apply andb_true_iff in H as [H1 _]. rewrite H1, H3.
  rewrite (endsWith_append "worker_processes " _ ";" (semicolon_last _)).
  reflexivity.
Qed.

Lemma wellFormed_pid (p : string) (c : NginxConfig.t) :
  NginxConfigInv.wellFormed c = true ->
  NginxConfigInv.wellFormed (NginxConfig.pid p c) = true.
Proof.
  unfold NginxConfigInv.wellFormed. cbn [NginxConfig.pid
    NginxConfig.userDirective NginxConfig.workerProcessesDirective
    NginxConfig.pidDirective NginxConfigInv.field].
  intros H. apply andb_true_iff in H as [H _]. rewrite H.
  rewrite (endsWith_append "pid " (p ++ ";") ";" (semicolon_last p)).
  reflexivity.
Qed.

Lemma wellFormed_events f (c : NginxConfig.t) :
  NginxConfigInv.wellFormed (NginxConfig.events f c)
  = NginxConfigInv.wellFormed c.
Proof. reflexivity. Qed.

Lemma wellFormed_http f (c : NginxConfig.t) :
  NginxConfigInv.wellFormed (NginxConfig.http f c)
  = NginxConfigInv.wellFormed c.
Proof. reflexivity. Qed.

Lemma Reachable_wellFormed (c : NginxConfig.t) :
  NginxConfigInv.Reachable c -> NginxConfigInv.wellFormed c = true.
Proof.
  induction 1;
    auto using wellFormed_new, wellFormed_user, wellFormed_workerProcesses,
               wellFormed_pid.
Qed.

Lemma NginxConfig_parts_endsOther (c : NginxConfig.t) :
  NginxConfigInv.wellFormed c = true ->
  exists parts,
    NginxConfig.build c = JS.join (JS.LF ++ JS.LF) parts ++ JS.LF
    /\ Forall (endsOther (ascii_of_nat 10)) parts.
Proof.
  unfold NginxConfigInv.wellFormed. intros H.
  apply andb_true_iff in H as [H H3]. apply andb_true_iff in H as [H1 H2].
  unfold NginxConfig.build. cbv zeta.
  eexists. split; [reflexivity |].
  assert (Hdirs : Forall (endsOther (ascii_of_nat 10))
            (NginxConfig.pushTruthy (NginxConfig.pidDirective c)
               (NginxConfig.pushTruthy (NginxConfig.workerProcessesDirective c)
                  (NginxConfig.pushTruthy (NginxConfig.userDirective c) []))))
    by (repeat apply pushTruthy_endsOther; auto).
  destruct (NginxConfig.eventsBlock c) as [e|], (NginxConfig.httpBlock c) as [h|];
    repeat apply Forall_push;
    auto using EventsBlock_build_endsOther, HttpBlock_build_endsOther.
Qed.

Lemma SiteConfig_build_tidy (c : SiteConfig.t) :
  exists body,
    SiteConfig.build c = body ++ JS.LF
    /\ (body = "" \/ endsOther (ascii_of_nat 10) body).
Proof.
  unfold SiteConfig.build. cbv zeta. eexists. split; [reflexivity |].
  apply join_tidy.
  assert (Hd : forall l, Forall (endsOther (ascii_of_nat 10))
            (map (fun d => if JS.endsWith d ";" then d else d ++ ";") l)).
  { intros l. apply Forall_forall. intros x Hx.
    apply in_map_iff in Hx as [d [<- _]].
    apply (endsOther_endsWith _ ";"%char); [discriminate |].
    destruct (JS.endsWith d ";") eqn:E; [exact E | apply semicolon_last]. }
  assert (Hs : forall l, Forall (endsOther (ascii_of_nat 10))
            (map (ServerBlock.build "") l)).
  { intros l. apply Forall_forall. intros x Hx.
    apply in_map_iff in Hx as [s [<- _]]. apply ServerBlock_build_endsOther. }
  pose proof (join_tidy _ JS.LF _ (Hd (SiteConfig.directives c))) as H1.
  pose proof (join_tidy _ JS.LF _ (Hs (SiteConfig.servers c))) as H2.
  assert (Hf : forall x, x = "" \/ endsOther (ascii_of_nat 10) x ->
             forall l, Forall (endsOther (ascii_of_nat 10)) l ->
             Forall (endsOther (ascii_of_nat 10))
                    (if JS.truthy x then x :: l else l)).
  { intros x [-> | Hx] l Hl; [exact Hl |].
    destruct (JS.truthy x); [now constructor | exact Hl]. }
  cbn [filter]. apply Hf; [exact H1 |]. apply Hf; [exact H2 | constructor].
Qed.

(** C8. Both document roots render text that ends in exactly one newline:
    the full top-level document in every state its methods produce (each
    of the user, worker-processes and pid fields unset or holding a
    terminated directive), the server-only document in every state; an
    empty document of either kind renders as a single newline. *)
Theorem documents_end_in_one_newline (c : NginxConfig.t) (s : SiteConfig.t) :
  NginxConfigInv.wellFormed c = true ->
  (trailing (ascii_of_nat 10) (NginxConfig.build c) = 1
   /\ JS.endsWith (NginxConfig.build c) JS.LF = true)
  /\ (trailing (ascii_of_nat 10) (SiteConfig.build s) = 1
      /\ JS.endsWith (SiteConfig.build s) JS.LF = true)
  /\ NginxConfig.build NginxConfig.new = JS.LF
  /\ SiteConfig.build SiteConfig.new = JS.LF.
Proof.
  intros Hwf. split; [| split; [| split; reflexivity]].
  - destruct (NginxConfig_parts_endsOther c Hwf) as [parts [-> Hparts]].
    apply one_newline_after. now apply join_tidy.
  - destruct (SiteConfig_build_tidy s) as [body [-> Hbody]].
    now apply one_newline_after.
Qed.

(** A witness for C8: a document with a user directive, an events
    section and an http section holding one server, and an empty
    server-only document. *)
Lemma documents_end_in_one_newline_witness :
  NginxConfigInv.wellFormed
    (NginxConfig.http (HttpBlock.addServer (inl 80%Z) false)
       (NginxConfig.events (EventsBlock.workerConnections 1024)
          (NginxConfig.user "nginx" NginxConfig.new))) = true
  /\ trailing (ascii_of_nat 10)
       (NginxConfig.build
          (NginxConfig.http (HttpBlock.addServer (inl 80%Z) false)
             (NginxConfig.events (EventsBlock.workerConnections 1024)
                (NginxConfig.user "nginx" NginxConfig.new)))) = 1.
Proof.
  split; [reflexivity |].
  exact (proj1 (proj1 (documents_end_in_one_newline
    (NginxConfig.http (HttpBlock.addServer (inl 80%Z) false)
       (NginxConfig.events (EventsBlock.workerConnections 1024)
          (NginxConfig.user "nginx" NginxConfig.new)))
    SiteConfig.new eq_refl))).
Defined.

End DocumentRoots.

(* ================================================================== *)
(** ** Rendering an HTTP-level block *)
(* ================================================================== *)

Section HttpRender.

(** *** [trim] and ink *)

Lemma hasInk_append (a b : string) : hasInk (a ++ b) = hasInk a || hasInk b.
Proof.
  induction a as [|x a IH]; [reflexivity |].
  cbn [append hasInk]. now rewrite IH, orb_assoc.
Qed.

Lemma hasInk_nonempty (s : string) : hasInk s = true -> s <> "".
Proof. destruct s; [discriminate | discriminate]. Qed.

Lemma trimStart_ink (s : string) : hasInk (JS.trimStart s) = hasInk s.
Proof.
  induction s as [|c s IH]; [reflexivity |].
  cbn [JS.trimStart]. destruct (JS.isWhiteSpace c) eqn:E.
  - rewrite IH. cbn [hasInk]. now rewrite E.
  - reflexivity.
Qed.

Lemma trimEnd_ink (s : string) : JS.truthy (JS.trimEnd s) = hasInk s.
Proof.
  induction s as [|c s IH]; [reflexivity |].
  cbn [JS.trimEnd hasInk]. unfold JS.truthy in IH.
  destruct (JS.trimEnd s =? "") eqn:E; simpl in IH; rewrite <- IH.
  - destruct (JS.isWhiteSpace c); reflexivity.
  - rewrite orb_true_r. reflexivity.
Qed.

Lemma trim_ink (s : string) : JS.truthy (JS.trim s) = hasInk s.
Proof. unfold JS.trim. now rewrite trimEnd_ink, trimStart_ink. Qed.

Lemma endsWith_semicolon_ink (s : string) :
  JS.endsWith s ";" = true -> hasInk s = true.
Proof.
  intros H. destruct (endsWith_split _ _ H) as [pre ->].
  rewrite hasInk_append. apply orb_true_r.
Qed.

Lemma hasInk_join (sep : string) (l : list string) :
  l <> [] -> Forall (fun x => hasInk x = true) l ->
  hasInk (JS.join sep l) = true.
Proof.
  intros Hne Hall. destruct l as [|x l]; [congruence |].
  inversion Hall as [| ? ? Hx _]; subst.
  destruct l as [|y l]; [exact Hx |].
  change (JS.join sep (x :: y :: l)) with (x ++ sep ++ JS.join sep (y :: l)).
  now rewrite hasInk_append, Hx.
Qed.

(** A group is either empty, its collection being empty, or holds ink. *)
Lemma group_empty_or_ink {A} (f : A -> string) (sep : string) (xs : list A) :
  (forall x, In x xs -> hasInk (f x) = true) ->
  (xs = [] /\ JS.join sep (map f xs) = "")
  \/ (xs <> [] /\ hasInk (JS.join sep (map f xs)) = true).
Proof.
  intros Hink. destruct xs as [|x xs]; [now left | right].
  split; [discriminate |].
  apply hasInk_join; [discriminate |].
  apply Forall_forall. intros y Hy.
  apply in_map_iff in Hy as [z [<- Hz]]. now apply Hink.
Qed.

Lemma buildTypedLines_terminated (o : HttpBlock.HttpTypedDirectives) :
  Forall (fun d => JS.endsWith d ";" = true) (HttpBlock.buildTypedLines o).
Proof.
  rewrite buildTypedLines_schema. unfold TypedSpec.lines.
  apply Forall_flat_map, Forall_forall. intros k _.
  unfold TypedSpec.line. destruct (TypedSpec.rendered o k); constructor;
    [| constructor].
  rewrite <- !append_assoc. apply endsWith_append_self.
Qed.

Lemma UpstreamBlock_build_ink (indent : string) (u : UpstreamBlock.t) :
  hasInk (UpstreamBlock.build indent u) = true.
Proof.
  unfold UpstreamBlock.build. cbv zeta. rewrite hasInk_append.
  apply orb_true_r.
Qed.

Lemma MapBlock_build_ink (indent : string) (m : MapBlock.t) :
  hasInk (MapBlock.build indent m) = true.
Proof.
  unfold MapBlock.build. cbv zeta. rewrite hasInk_append. apply orb_true_r.
Qed.

Lemma ServerBlock_build_ink (indent : string) (s : ServerBlock.t) :
  hasInk (ServerBlock.build indent s) = true.
Proof.
  unfold ServerBlock.build. cbv zeta. rewrite hasInk_append.
  apply orb_true_r.
Qed.

Lemma tidy_trim (g : string) :
  tidy g -> JS.truthy (JS.trim g) = HttpSpec.nonEmpty g.
Proof.
  rewrite trim_ink. intros [-> | H]; [reflexivity |].
  rewrite H. symmetry. apply truthy_true. now apply hasInk_nonempty.
Qed.

Lemma filter_trim_tidy (gs : list string) :
  Forall tidy gs ->
  filter (fun part => JS.truthy (JS.trim part)) gs = filter HttpSpec.nonEmpty gs.
Proof.
  intros H. apply filter_ext_in. intros g Hg. apply tidy_trim.
  rewrite Forall_forall in H. now apply H.
Qed.

Lemma wrap_groups {R} (A : string -> R) (B : R) (gs : list string) :
  Forall tidy gs ->
  (if JS.truthy
        (JS.trim
           (JS.join (JS.LF ++ JS.LF)
              (filter (fun part => JS.truthy (JS.trim part)) gs)))
   then A (JS.join (JS.LF ++ JS.LF)
             (filter (fun part => JS.truthy (JS.trim part)) gs))
   else B)
  = match filter HttpSpec.nonEmpty gs with
    | [] => B
    | fs => A (JS.join HttpSpec.blankLine fs)
    end.
Proof.
  intros H. rewrite (filter_trim_tidy gs H).
  destruct (filter HttpSpec.nonEmpty gs) as [|x fs] eqn:E; [reflexivity |].
  rewrite trim_ink, hasInk_join; [reflexivity | discriminate |].
  rewrite <- E. apply Forall_forall. intros g Hg.
  apply filter_In in Hg as [Hin Hne].
  rewrite Forall_forall in H. destruct (H g Hin) as [-> | Hink];
    [discriminate | exact Hink].
Qed.

Lemma group_tidy {A} (f : A -> string) (sep : string) (xs : list A) :
  (forall x, In x xs -> hasInk (f x) = true) ->
  tidy (JS.join sep (map f xs)) /\ (JS.join sep (map f xs) = "" <-> xs = []).
Proof.
  intros Hink.
  destruct (group_empty_or_ink f sep xs Hink) as [[Hxs Hg] | [Hxs Hg]].
  - split; [now left | now split].
  - split; [now right |]. split; [| congruence].
    intros E. rewrite E in Hg. discriminate.
Qed.

Lemma indented_ink (indent : string) (ds : list string) :
  Forall (fun d => JS.endsWith d ";" = true) ds ->
  forall d, In d ds -> hasInk (indent ++ d) = true.
Proof.
  intros H d Hd. rewrite Forall_forall in H.
  rewrite hasInk_append, (endsWith_semicolon_ink d (H d Hd)).
  apply orb_true_r.
Qed.

(** The store of a new block is terminated, and the append operation
    keeps it so; the other operations of the block leave it alone. *)
Lemma terminatedStore_new : HttpSpec.terminatedStore (HttpBlock.directives HttpBlock.new).
Proof. constructor. Qed.

Lemma terminatedStore_addDirective (d : string) (h : HttpBlock.t) :
  HttpSpec.terminatedStore (HttpBlock.directives h) ->
  HttpSpec.terminatedStore (HttpBlock.directives (addDirective d h)).
Proof.
  intros H. unfold HttpSpec.terminatedStore. cbn. unfold JS.push.
  apply Forall_app. split; [exact H |].
  constructor; [apply terminated_endsWith | constructor].
Qed.

(** C1. An HTTP-level block whose free-form directives were stored by the
    append operation renders its five groups in the fixed order typed
    options, free-form directives, upstream groups, variable maps,
    servers; the entries of a group are in insertion order; one blank
    line separates two non-empty groups and two members of a collection;
    a group is empty exactly when its collection is, and then it
    contributes nothing; children and directives are added at the end of
    their collection. *)
Theorem http_build_groups (indent : string) (h : HttpBlock.t) :
  HttpSpec.terminatedStore (HttpBlock.directives h) ->
  HttpBlock.build indent h = HttpSpec.render indent h
  /\ (HttpSpec.linesGroup (indent ++ "    ") (HttpBlock.buildTypedDirectives h)
        = "" <-> HttpBlock.buildTypedDirectives h = [])
  /\ (HttpSpec.linesGroup (indent ++ "    ") (HttpBlock.directives h) = ""
      <-> HttpBlock.directives h = [])
  /\ (HttpSpec.membersGroup UpstreamBlock.build (indent ++ "    ")
        (HttpBlock.upstreams h) = "" <-> HttpBlock.upstreams h = [])
  /\ (HttpSpec.membersGroup MapBlock.build (indent ++ "    ")
        (HttpBlock.maps h) = "" <-> HttpBlock.maps h = [])
  /\ (HttpSpec.membersGroup ServerBlock.build (indent ++ "    ")
        (HttpBlock.servers h) = "" <-> HttpBlock.servers h = [])
  /\ (forall name,
        HttpBlock.upstreams (HttpBlock.addUpstream name h)
        = (HttpBlock.upstreams h ++ [UpstreamBlock.new name])%list)
  /\ (forall variable outputVar,
        HttpBlock.maps (HttpBlock.addMap variable outputVar h)
        = (HttpBlock.maps h ++ [MapBlock.new variable outputVar])%list)
  /\ (forall portOrUnix ssl,
        HttpBlock.servers (HttpBlock.addServer portOrUnix ssl h)
        = (HttpBlock.servers h
           ++ [ServerBlock.listen portOrUnix ssl ServerBlock.new])%list)
  /\ (forall d,
        HttpBlock.directives (addDirective d h)
        = (HttpBlock.directives h ++ [Block.terminated d])%list).
Proof.
  intros Hstore.
  pose proof (group_tidy (fun d => (indent ++ "    ") ++ d) JS.LF
                (HttpBlock.buildTypedDirectives h)
                (indented_ink _ _ (buildTypedLines_terminated _)))
    as [T1 E1].
  pose proof (group_tidy (fun d => (indent ++ "    ") ++ d) JS.LF
                (HttpBlock.directives h) (indented_ink _ _ Hstore))
    as [T2 E2].
  pose proof (group_tidy (UpstreamBlock.build (indent ++ "    "))
                (JS.LF ++ JS.LF) (HttpBlock.upstreams h)
                (fun u _ => UpstreamBlock_build_ink _ u)) as [T3 E3].
  pose proof (group_tidy (MapBlock.build (indent ++ "    "))
                (JS.LF ++ JS.LF) (HttpBlock.maps h)
                (fun m _ => MapBlock_build_ink _ m)) as [T4 E4].
  pose proof (group_tidy (ServerBlock.build (indent ++ "    "))
                (JS.LF ++ JS.LF) (HttpBlock.servers h)
                (fun s _ => ServerBlock_build_ink _ s)) as [T5 E5].
  split; [| repeat split; solve [apply E1 | apply E2 | apply E3 | apply E4
                                | apply E5 | reflexivity]].
  unfold HttpBlock.build, HttpSpec.render, HttpSpec.groups. cbv zeta.
  apply (wrap_groups
           (fun parts => indent ++ "http {" ++ JS.LF ++ parts ++ JS.LF
                                ++ indent ++ "}")
           (indent ++ "http {}")).
  repeat (constructor; [assumption |]). constructor.
Qed.

(** A witness for C1: a block with typed options, one free-form
    directive, one upstream group and one server, and no variable map;
    four groups are rendered, one blank line apart. *)
Lemma http_build_groups_witness :
  HttpSpec.terminatedStore
    (HttpBlock.directives
       (HttpBlock.addServer (inl 80%Z) false
          (HttpBlock.addUpstream "backend"
             (HttpBlock.include "mime.types"
                (HttpBlock.applyTypedDirectives
                   [HttpBlock.P_sendfile (Some true)] HttpBlock.new)))))
  /\ HttpBlock.build ""
       (HttpBlock.addServer (inl 80%Z) false
          (HttpBlock.addUpstream "backend"
             (HttpBlock.include "mime.types"
                (HttpBlock.applyTypedDirectives
                   [HttpBlock.P_sendfile (Some true)] HttpBlock.new))))
     = HttpSpec.render ""
         (HttpBlock.addServer (inl 80%Z) false
            (HttpBlock.addUpstream "backend"
               (HttpBlock.include "mime.types"
                  (HttpBlock.applyTypedDirectives
                     [HttpBlock.P_sendfile (Some true)] HttpBlock.new)))).
Proof.
  assert (Hs : HttpSpec.terminatedStore
    (HttpBlock.directives
       (HttpBlock.addServer (inl 80%Z) false
          (HttpBlock.addUpstream "backend"
             (HttpBlock.include "mime.types"
                (HttpBlock.applyTypedDirectives
                   [HttpBlock.P_sendfile (Some true)] HttpBlock.new))))))
    by (repeat constructor).
  split; [exact Hs |].
  exact (proj1 (http_build_groups "" _ Hs)).
Defined.

End HttpRender.

(* ================================================================== *)
(** ** Indentation and nesting depth *)
(* ================================================================== *)

Section Indentation.

Lemma occursIn_refl (s : string) : occursIn s s.
Proof. exists "", "". now rewrite append_nil_r. Qed.

Lemma occursIn_append_l (x a s : string) :
  occursIn x s -> occursIn x (a ++ s).
Proof.
  intros [pre [post ->]]. exists (a ++ pre), post. now rewrite append_assoc.
Qed.

Lemma occursIn_append_r (x s b : string) :
  occursIn x s -> occursIn x (s ++ b).
Proof.
  intros [pre [post ->]]. exists pre, (post ++ b).
  now rewrite !append_assoc.
Qed.

Lemma occursIn_trans (a b c : string) :
  occursIn a b -> occursIn b c -> occursIn a c.
Proof.
  intros [p1 [q1 ->]] [p2 [q2 ->]]. exists (p2 ++ p1), (q1 ++ q2).
  now rewrite !append_assoc.
Qed.

Lemma occursIn_join (x sep : string) (l : list string) :
  In x l -> occursIn x (JS.join sep l).
Proof.
  induction l as [|y l IH]; [intros [] |]. intros Hin.
  destruct l as [|z l].
  - destruct Hin as [-> | []]. apply occursIn_refl.
  - change (JS.join sep (y :: z :: l)) with (y ++ sep ++ JS.join sep (z :: l)).
    destruct Hin as [-> | Hin].
    + apply occursIn_append_r, occursIn_refl.
    + do 2 apply occursIn_append_l. now apply IH.
Qed.

Lemma occursIn_ink (x s : string) :
  occursIn x s -> hasInk x = true -> hasInk s = true.
Proof.
  intros [pre [post ->]] H. rewrite !hasInk_append, H.
  now rewrite orb_true_r.
Qed.

(** A member of a group of lines is a whole line of the group, once the
    group is put between two line feeds. *)
Lemma line_of_join (x : string) (l : list string) :
  In x l -> occursIn (JS.LF ++ x ++ JS.LF) (JS.LF ++ JS.join JS.LF l ++ JS.LF).
Proof.
  induction l as [|y l IH]; [intros [] |]. intros Hin.
  destruct l as [|z l].
  - destruct Hin as [-> | []]. apply occursIn_refl.
  - change (JS.join JS.LF (y :: z :: l))
      with (y ++ JS.LF ++ JS.join JS.LF (z :: l)).
    destruct Hin as [-> | Hin].
    + exists "", (JS.join JS.LF (z :: l) ++ JS.LF).
      now rewrite !append_assoc.
    + specialize (IH Hin). destruct IH as [pre [post E]].
      exists (JS.LF ++ y ++ pre), post.
      rewrite !append_assoc. do 2 f_equal.
      rewrite <- !append_assoc. rewrite <- !append_assoc in E.
      now rewrite E.
Qed.

Lemma occursInb_complete (sub s : string) :
  occursIn sub s -> occursInb sub s = true.
Proof.
  intros [pre [post ->]]. induction pre as [|a pre IH].
  - cbn [append]. destruct (sub ++ post) eqn:E; cbn [occursInb];
      rewrite <- E, prefix_append; reflexivity.
  - cbn [append occursInb]. rewrite IH. apply orb_true_r.
Qed.

Lemma LocationBlock_build_ink (indent : string) (l : LocationBlock.t) :
  hasInk (LocationBlock.build indent l) = true.
Proof.
  unfold LocationBlock.build. cbv zeta. rewrite hasInk_append.
  apply orb_true_r.
Qed.

(** One level: a directive of a location is a line of the location, one
    unit deeper than the location itself. *)
Lemma LocationBlock_directive_line (indent d : string) (l : LocationBlock.t) :
  In d (LocationBlock.directives l) ->
  occursIn (JS.LF ++ ((indent ++ "    ") ++ d) ++ JS.LF)
           (LocationBlock.build indent l).
Proof.
  intros Hd. unfold LocationBlock.build, Block.formatDirectives. cbv zeta.
  set (ds := JS.join JS.LF
               (map (fun d0 => (indent ++ "    ") ++ d0)
                    (LocationBlock.directives l))).
  assert (Hline : occursIn (JS.LF ++ ((indent ++ "    ") ++ d) ++ JS.LF)
                           (JS.LF ++ ds ++ JS.LF)).
  { apply line_of_join. apply in_map_iff. now exists d. }
  apply (occursIn_trans _ _ _ Hline).
  do 6 apply occursIn_append_l.
  destruct (JS.truthy _); exists ""; eexists;
    rewrite ?append_assoc; cbn [append]; reflexivity.
Qed.

(** Two levels: a location is rendered inside its server one unit deeper
    than the server. *)
Lemma ServerBlock_location (indent : string) (s : ServerBlock.t)
  (l : LocationBlock.t) :
  In l (ServerBlock.locations s) ->
  occursIn (LocationBlock.build (indent ++ "    ") l)
           (ServerBlock.build indent s).
Proof.
  intros Hl. unfold ServerBlock.build. cbv zeta.
  set (ls := JS.join (JS.LF ++ JS.LF)
               (map (LocationBlock.build (indent ++ "    "))
                    (ServerBlock.locations s))).
  assert (Hin : occursIn (LocationBlock.build (indent ++ "    ") l) ls).
  { apply occursIn_join. apply in_map_iff. now exists l. }
  assert (Ht : JS.truthy ls = true).
  { apply truthy_true, hasInk_nonempty.
    apply (occursIn_ink _ _ Hin), LocationBlock_build_ink. }
  rewrite Ht. apply (occursIn_trans _ _ _ Hin).
  exists (indent ++ "server {" ++ JS.LF
            ++ Block.formatDirectives (indent ++ "    ")
                 (ServerBlock.directives s) ++ JS.LF ++ JS.LF).
  eexists. rewrite !append_assoc. reflexivity.
Qed.

(** Three levels: a server is rendered inside its HTTP-level block one
    unit deeper than the block. *)
Lemma HttpBlock_server (indent : string) (h : HttpBlock.t) (s : ServerBlock.t) :
  In s (HttpBlock.servers h) ->
  occursIn (ServerBlock.build (indent ++ "    ") s) (HttpBlock.build indent h).
Proof.
  intros Hs. unfold HttpBlock.build. cbv zeta.
  set (srv := JS.join (JS.LF ++ JS.LF)
                (map (ServerBlock.build (indent ++ "    "))
                     (HttpBlock.servers h))).
  assert (Hin : occursIn (ServerBlock.build (indent ++ "    ") s) srv).
  { apply occursIn_join. apply in_map_iff. now exists s. }
  assert (Hink : hasInk srv = true)
    by apply (occursIn_ink _ _ Hin), ServerBlock_build_ink.
  match goal with
  | |- context [JS.join (JS.LF ++ JS.LF) (filter ?f ?gs)] =>
      set (parts := JS.join (JS.LF ++ JS.LF) (filter f gs));
      assert (Hparts : occursIn srv parts)
  end.
  { apply occursIn_join, filter_In. split.
    - right. right. right. right. now left.
    - now rewrite trim_ink. }
  rewrite trim_ink, (occursIn_ink _ _ Hparts Hink).
  apply (occursIn_trans _ _ _ Hin), (occursIn_trans _ _ _ Hparts).
  exists (indent ++ "http {" ++ JS.LF). eexists.
  rewrite !append_assoc. reflexivity.
Qed.

Lemma NginxConfig_http (c : NginxConfig.t) (h : HttpBlock.t) :
  NginxConfig.httpBlock c = Some h ->
  occursIn (HttpBlock.build "" h) (NginxConfig.build c).
Proof.
  intros Hh. unfold NginxConfig.build. cbv zeta. rewrite Hh.
  apply occursIn_append_r, occursIn_join.
  unfold JS.push. apply in_or_app. right. now left.
Qed.

(** C5, as amended. In every document, a directive inside a location
    inside a server inside the http section is a line indented by three
    units of indentation, twelve spaces, a unit being four spaces. *)
Theorem location_directive_indentation
  (c : NginxConfig.t) (h : HttpBlock.t) (s : ServerBlock.t)
  (l : LocationBlock.t) (d : string) :
  NginxConfig.httpBlock c = Some h ->
  In s (HttpBlock.servers h) ->
  In l (ServerBlock.locations s) ->
  In d (LocationBlock.directives l) ->
  occursIn (JS.LF ++ indentation 3 ++ d ++ JS.LF) (NginxConfig.build c)
  /\ indentation 3 = "            "
  /\ forall n, String.length (indentation n) = 4 * n.
Proof.
  intros Hh Hs Hl Hd. split; [| split; [reflexivity |]].
  - apply (occursIn_trans _ _ _ (LocationBlock_directive_line "        " d l Hd)).
    apply (occursIn_trans _ _ _ (ServerBlock_location "    " s l Hl)).
    apply (occursIn_trans _ _ _ (HttpBlock_server "" h s Hs)).
    now apply NginxConfig_http.
  - induction n as [|n IH]; [reflexivity |].
    cbn [indentation]. rewrite append_length, IH. simpl String.length. lia.
Qed.

(** The end-to-end scenario: the document, its rendering, and where the
    directive of the location stands. *)
Example scenario_text :
  NginxConfig.build Scenario.document =
"user nginx;

events {
    worker_connections 1024;
}

http {
    server {
        listen 80;

        location  / {
            root /var/www/html;
        }
    }
}
".
Proof. reflexivity. Qed.

(** A witness for C5: the scenario. *)
Lemma location_directive_indentation_witness :
  NginxConfig.httpBlock Scenario.document = Some Scenario.http
  /\ In Scenario.server (HttpBlock.servers Scenario.http)
  /\ In Scenario.location (ServerBlock.locations Scenario.server)
  /\ In "root /var/www/html;" (LocationBlock.directives Scenario.location)
  /\ occursIn (JS.LF ++ indentation 3 ++ "root /var/www/html;" ++ JS.LF)
              (NginxConfig.build Scenario.document).
Proof.
  repeat split; try (left; reflexivity).
  exact (proj1 (location_directive_indentation
    Scenario.document Scenario.http Scenario.server Scenario.location
    "root /var/www/html;" eq_refl (or_introl eq_refl) (or_introl eq_refl)
    (or_introl eq_refl))).
Defined.

(** C5, as stated, fails on the scenario: the directive of the location
    inside the server inside the http section of the document is not
    rendered at four units of indentation. *)
Lemma location_directive_not_at_four_units :
  NginxConfig.httpBlock Scenario.document = Some Scenario.http
  /\ In Scenario.server (HttpBlock.servers Scenario.http)
  /\ In Scenario.location (ServerBlock.locations Scenario.server)
  /\ In "root /var/www/html;" (LocationBlock.directives Scenario.location)
  /\ ~ occursIn (JS.LF ++ indentation 4 ++ "root /var/www/html;" ++ JS.LF)
                (NginxConfig.build Scenario.document).
Proof.
  repeat split; try (left; reflexivity).
  intros H. apply occursInb_complete in H. vm_compute in H. discriminate.
Qed.

End Indentation.

(* ================================================================== *)
(** ** The option helpers of [Block] *)
(* ================================================================== *)

Section OptionHelpers.

Lemma extendsBy_refl (n : nat) (ds : Block.store) : extendsBy n ds ds.
Proof.
  exists []. rewrite app_nil_r. repeat split; [constructor | simpl; lia].
Qed.

Lemma extendsBy_addDirective (n : nat) (s : string) (ds ds' : Block.store) :
  extendsBy n ds ds' -> extendsBy (S n) ds (Block.addDirective s ds').
Proof.
  intros [new [-> [Hall Hlen]]]. exists (new ++ [Block.terminated s])%list.
  unfold Block.addDirective, JS.push. rewrite app_assoc. repeat split.
  - apply Forall_app. split; [exact Hall |].
    constructor; [apply terminated_endsWith | constructor].
  - rewrite length_app. simpl. lia.
Qed.

Lemma extendsBy_trans (n m : nat) (a b c : Block.store) :
  extendsBy n a b -> extendsBy m b c -> extendsBy (n + m) a c.
Proof.
  intros [x [-> [Hx Lx]]] [y [-> [Hy Ly]]]. exists (x ++ y)%list.
  rewrite app_assoc. repeat split.
  - apply Forall_app. now split.
  - rewrite length_app. lia.
Qed.

Lemma extendsBy_le (n m : nat) (a b : Block.store) :
  n <= m -> extendsBy n a b -> extendsBy m a b.
Proof.
  intros Hle [x [-> [Hx Lx]]]. exists x. repeat split; [exact Hx | lia].
Qed.

(** One step of a helper: the outermost test is decided, or the
    outermost append is accounted for. *)
Ltac extends_step :=
  match goal with
  | |- extendsBy _ ?ds ?ds => apply extendsBy_refl
  | |- extendsBy _ _ (Block.addDirective _ _) => apply extendsBy_addDirective
  | |- extendsBy _ _ (match ?x with _ => _ end) => destruct x
  end.

Lemma applyCommonDirectives_extends (d : CommonDirectives.t) (ds : Block.store) :
  extendsBy 7 ds (Block.applyCommonDirectives d ds).
Proof.
  unfold Block.applyCommonDirectives. cbv zeta. repeat extends_step.
Qed.

Lemma configureCompression_extends (o : CompressionOptions.t) (ds : Block.store) :
  extendsBy 7 ds (Block.configureCompression o ds).
Proof.
  unfold Block.configureCompression. cbv zeta. repeat extends_step.
Qed.

Lemma configureCache_extends (o : CacheOptions.t) (ds : Block.store) :
  extendsBy 4 ds (Block.configureCache o ds).
Proof.
  unfold Block.configureCache. cbv zeta. repeat extends_step.
Qed.

(** X1. [applyCommonDirectives] reads seven fields of its record only:
    what it appends is unchanged when keepaliveTimeout,
    keepaliveRequests, resetTimedoutConnection, serverTokens,
    hideNginxVersion and expires are dropped from the record, and a
    record that sets nothing but these six leaves the store as it was. *)
Theorem applyCommonDirectives_unhandled_fields
  (d : CommonDirectives.t) (ds : Block.store) :
  Block.applyCommonDirectives d ds
  = Block.applyCommonDirectives (handledFields d) ds
  /\ forall kt kr rc st hv ex,
       Block.applyCommonDirectives
         (CommonDirectives.mk None None None None None None None
                              kt kr rc st hv ex) ds
       = ds.
Proof. split; [reflexivity | intros; reflexivity]. Qed.

(** X2. Each of the three option helpers only appends to the store: the
    directives already stored stay first and unchanged, at most seven
    (common directives, compression) or four (cache) lines follow, and
    every appended line ends in the statement separator. *)
Theorem option_helpers_append_only
  (d : CommonDirectives.t) (c : CompressionOptions.t) (k : CacheOptions.t)
  (ds : Block.store) :
  extendsBy 7 ds (Block.applyCommonDirectives d ds)
  /\ extendsBy 7 ds (Block.configureCompression c ds)
  /\ extendsBy 4 ds (Block.configureCache k ds).
Proof.
  split; [apply applyCommonDirectives_extends |].
  split; [apply configureCompression_extends | apply configureCache_extends].
Qed.

(** X3. [configureCache] uses the maximal size and the inactivity time
    only as modifiers of the cache path: when the path is missing or
    empty they are dropped without a directive. *)
Theorem configureCache_modifiers_need_path
  (o : CacheOptions.t) (ds : Block.store) :
  JS.truthyOpt (CacheOptions.path o) = false ->
  Block.configureCache o ds = Block.configureCache (withoutPathModifiers o) ds.
Proof.
  intros H. unfold Block.configureCache, withoutPathModifiers. cbv zeta.
  cbn [CacheOptions.path CacheOptions.maxSize CacheOptions.inactiveTime
       CacheOptions.validTime CacheOptions.useStale CacheOptions.key].
  destruct (CacheOptions.path o) as [p|]; [| reflexivity].
  simpl in H. rewrite H. reflexivity.
Qed.

(** A witness for X3: a size and a time without a path. *)
Lemma configureCache_modifiers_need_path_witness :
  JS.truthyOpt
    (CacheOptions.path
       (CacheOptions.mk None (Some "1g") (Some "60m") None None None)) = false
  /\ Block.configureCache
       (CacheOptions.mk None (Some "1g") (Some "60m") None None None)
       ["proxy_pass http://backend;"]
     = Block.configureCache
         (withoutPathModifiers
            (CacheOptions.mk None (Some "1g") (Some "60m") None None None))
         ["proxy_pass http://backend;"].
Proof.
  split; [reflexivity |].
  exact (configureCache_modifiers_need_path
           (CacheOptions.mk None (Some "1g") (Some "60m") None None None)
           ["proxy_pass http://backend;"] eq_refl).
Defined.

End OptionHelpers.

(* ================================================================== *)
(** ** What the public methods do to the directive store *)
(* ================================================================== *)

Section StoreInvariants.

Lemma extendsBy_fold_addDirective (rules : list string) (ds : Block.store) :
  extendsBy (List.length rules) ds
    (fold_left (fun ds rule => Block.addDirective rule ds) rules ds).
Proof.
  revert ds. induction rules as [|r rules IH]; intros ds;
    [apply extendsBy_refl |].
  cbn [fold_left List.length].
  apply (extendsBy_trans 1 (List.length rules) ds (Block.addDirective r ds)).
  - apply extendsBy_addDirective, extendsBy_refl.
  - apply IH.
Qed.

Lemma LocationBlock_allowDeny_directives (rules : list string)
  (b : LocationBlock.t) :
  LocationBlock.allowDeny rules b
  = LocationBlock.mk (LocationBlock.path b) (LocationBlock.exact b)
      (LocationBlock.ifBlocks b)
      (fold_left (fun ds rule => Block.addDirective rule ds) rules
                 (LocationBlock.directives b)).
Proof.
  unfold LocationBlock.allowDeny. revert b.
  induction rules as [|r rules IH]; intros b; [now destruct b |].
  cbn [fold_left]. rewrite IH. reflexivity.
Qed.

Lemma ServerBlock_allowDeny_directives (rules : list string)
  (b : ServerBlock.t) :
  ServerBlock.allowDeny rules b
  = ServerBlock.mk (ServerBlock.locations b)
      (fold_left (fun ds rule => Block.addDirective rule ds) rules
                 (ServerBlock.directives b)).
Proof.
  unfold ServerBlock.allowDeny. revert b.
  induction rules as [|r rules IH]; intros b; [now destruct b |].
  cbn [fold_left]. rewrite IH. reflexivity.
Qed.

(** Settles the effect of one call on the store, helper by helper. *)
Ltac store_step :=
  match goal with
  | |- extendsBy _ ?ds ?ds => apply extendsBy_refl
  | |- extendsBy _ _ (Block.addDirective _ _) => apply extendsBy_addDirective
  | |- extendsBy _ _ (Block.applyCommonDirectives _ _) =>
      apply applyCommonDirectives_extends
  | |- extendsBy _ _ (Block.configureCompression _ _) =>
      apply configureCompression_extends
  | |- extendsBy _ _ (Block.configureCache _ _) =>
      apply configureCache_extends
  | |- extendsBy _ _ (fold_left _ _ _) => apply extendsBy_fold_addDirective
  | |- extendsBy _ _ (match ?x with _ => _ end) => destruct x
  end.

Lemma EventsCalls_call_directives (c : EventsCalls.Call) (b : EventsBlock.t) :
  exists text,
    EventsBlock.directives (EventsCalls.call c b)
    = (EventsBlock.directives b ++ [Block.terminated text])%list.
Proof. destruct c; eexists; reflexivity. Qed.

Lemma UpstreamCalls_call_directives (c : UpstreamCalls.Call)
  (b : UpstreamBlock.t) :
  UpstreamBlock.name (UpstreamCalls.call c b) = UpstreamBlock.name b
  /\ exists text,
       UpstreamBlock.directives (UpstreamCalls.call c b)
       = (UpstreamBlock.directives b ++ [Block.terminated text])%list.
Proof. destruct c; (split; [reflexivity | eexists; reflexivity]). Qed.

Lemma LocationCalls_call_directives (c : LocationCalls.Call)
  (b : LocationBlock.t) :
  exists n,
    extendsBy n (LocationBlock.directives b)
                (LocationBlock.directives (LocationCalls.call c b)).
Proof.
  destruct c;
    try (exists 1; apply (extendsBy_addDirective 0), extendsBy_refl);
    try (exists 0; apply extendsBy_refl).
  - exists (List.length rules). cbn [LocationCalls.call].
    rewrite LocationBlock_allowDeny_directives. apply extendsBy_fold_addDirective.
  - exists 5. cbn [LocationCalls.call].
    unfold LocationBlock.enableCors. cbv zeta.
    destruct (LocationBlock.orDefault false _);
      unfold LocationBlock.addHeader, addDirective;
      cbn [directivesOf withDirectives LocationBlock.blockLike
           LocationBlock.directives];
      repeat store_step.
  - exists 7. apply applyCommonDirectives_extends.
  - exists 7. apply configureCompression_extends.
  - exists 4. apply configureCache_extends.
Qed.

Lemma ServerCalls_call_directives (c : ServerCalls.Call) (b : ServerBlock.t) :
  exists n,
    extendsBy n (ServerBlock.directives b)
                (ServerBlock.directives (ServerCalls.call c b)).
Proof.
  destruct c;
    try (exists 1; apply (extendsBy_addDirective 0), extendsBy_refl);
    try (exists 0; apply extendsBy_refl).
  - exists 1. destruct portOrUnix;
      apply (extendsBy_addDirective 0), extendsBy_refl.
  - exists (List.length rules). cbn [ServerCalls.call].
    rewrite ServerBlock_allowDeny_directives. apply extendsBy_fold_addDirective.
  - exists 1. cbn [ServerCalls.call]. unfold ServerBlock.accessLog.
    destruct format as [f|]; [destruct (JS.truthy f) |];
      apply (extendsBy_addDirective 0), extendsBy_refl.
  - exists 1. cbn [ServerCalls.call]. unfold ServerBlock.errorLog.
    destruct level as [l|]; [destruct (JS.truthy l) |];
      apply (extendsBy_addDirective 0), extendsBy_refl.
  - exists 7. apply applyCommonDirectives_extends.
  - exists 7. apply configureCompression_extends.
  - exists 4. apply configureCache_extends.
Qed.

Lemma HttpCalls_call_directives (c : HttpCalls.Call) (b : HttpBlock.t) :
  exists n,
    extendsBy n (HttpBlock.directives b)
                (HttpBlock.directives (HttpCalls.call c b)).
Proof.
  destruct c;
    try (exists 1; apply (extendsBy_addDirective 0), extendsBy_refl);
    try (exists 0; apply extendsBy_refl).
  - exists 1. destruct headerTimeout;
      apply (extendsBy_addDirective 0), extendsBy_refl.
  - exists 1. cbn [HttpCalls.call]. unfold HttpBlock.accessLog.
    destruct format as [f|]; [destruct (JS.truthy f) |];
      apply (extendsBy_addDirective 0), extendsBy_refl.
  - exists 1. cbn [HttpCalls.call]. unfold HttpBlock.errorLog.
    destruct level as [l|]; [destruct (JS.truthy l) |];
      apply (extendsBy_addDirective 0), extendsBy_refl.
  - exists 7. apply applyCommonDirectives_extends.
  - exists 7. apply configureCompression_extends.
  - exists 4. apply configureCache_extends.
Qed.

Lemma extendsBy_terminated (n : nat) (ds ds' : Block.store) :
  extendsBy n ds ds' ->
  Forall (fun d => JS.endsWith d ";" = true) ds ->
  Forall (fun d => JS.endsWith d ";" = true) ds'.
Proof.
  intros [new [-> [Hnew _]]] Hds. apply Forall_app. now split.
Qed.

(** X4. Every method that the upstream block defines (pool member,
    load-balancing method, keepalive, queue, zone, state, slow start,
    resolve), like the inherited append operation, appends exactly one
    directive ending in the statement separator, keeps the directives
    stored before and keeps the name of the pool: after any sequence of
    such calls the store holds its former lines followed by one line
    per call. *)
Theorem upstream_calls_append_one_line
  (cs : list UpstreamCalls.Call) (b : UpstreamBlock.t) :
  UpstreamBlock.name (UpstreamCalls.run cs b) = UpstreamBlock.name b
  /\ exists new,
       UpstreamBlock.directives (UpstreamCalls.run cs b)
       = (UpstreamBlock.directives b ++ new)%list
       /\ List.length new = List.length cs
       /\ Forall (fun d => JS.endsWith d ";" = true) new.
Proof.
  revert b. induction cs as [|c cs IH]; intros b.
  - split; [reflexivity |]. exists []. rewrite app_nil_r.
    repeat split. constructor.
  - cbn [UpstreamCalls.run fold_left].
    destruct (IH (UpstreamCalls.call c b)) as [Hname [new [Hd [Hlen Hall]]]].
    destruct (UpstreamCalls_call_directives c b) as [Hn1 [text Ht]].
    unfold UpstreamCalls.run in *. split; [congruence |].
    exists (Block.terminated text :: new). rewrite Hd, Ht, <- app_assoc.
    repeat split; [simpl; lia |].
    constructor; [apply terminated_endsWith | exact Hall].
Qed.

(** X5. Every method that the events block defines, like the inherited
    append operation, appends exactly one directive ending in the
    statement separator and keeps the directives stored before: after
    any sequence of such calls the store holds its former lines followed
    by one line per call. *)
Theorem events_calls_append_one_line
  (cs : list EventsCalls.Call) (b : EventsBlock.t) :
  exists new,
    EventsBlock.directives (EventsCalls.run cs b)
    = (EventsBlock.directives b ++ new)%list
    /\ List.length new = List.length cs
    /\ Forall (fun d => JS.endsWith d ";" = true) new.
Proof.
  revert b. induction cs as [|c cs IH]; intros b.
  - exists []. rewrite app_nil_r. repeat split. constructor.
  - cbn [EventsCalls.run fold_left].
    destruct (IH (EventsCalls.call c b)) as [new [Hd [Hlen Hall]]].
    destruct (EventsCalls_call_directives c b) as [text Ht].
    unfold EventsCalls.run in *.
    exists (Block.terminated text :: new). rewrite Hd, Ht, <- app_assoc.
    repeat split; [simpl; lia |].
    constructor; [apply terminated_endsWith | exact Hall].
Qed.

(** X6. The public methods of a location and of a server only append to
    the directive store: after any sequence of calls, child additions
    and option helpers included, the lines stored before are still
    first and unchanged, and every line that follows them ends in the
    statement separator. *)
Theorem structural_calls_append_only
  (lc : list LocationCalls.Call) (l : LocationBlock.t)
  (sc : list ServerCalls.Call) (s : ServerBlock.t) :
  (exists n,
     extendsBy n (LocationBlock.directives l)
                 (LocationBlock.directives (LocationCalls.run lc l)))
  /\ (exists n,
        extendsBy n (ServerBlock.directives s)
                    (ServerBlock.directives (ServerCalls.run sc s))).
Proof.
  split.
  - revert l. induction lc as [|c lc IH]; intros l.
    + exists 0. apply extendsBy_refl.
    + cbn [LocationCalls.run fold_left].
      destruct (IH (LocationCalls.call c l)) as [m Hm].
      destruct (LocationCalls_call_directives c l) as [n Hn].
      exists (n + m). exact (extendsBy_trans _ _ _ _ _ Hn Hm).
  - revert s. induction sc as [|c sc IH]; intros s.
    + exists 0. apply extendsBy_refl.
    + cbn [ServerCalls.run fold_left].
      destruct (IH (ServerCalls.call c s)) as [m Hm].
      destruct (ServerCalls_call_directives c s) as [n Hn].
      exists (n + m). exact (extendsBy_trans _ _ _ _ _ Hn Hm).
Qed.

Lemma HttpCalls_run_directives (cs : list HttpCalls.Call) (b : HttpBlock.t) :
  exists n,
    extendsBy n (HttpBlock.directives b)
                (HttpBlock.directives (HttpCalls.run cs b)).
Proof.
  revert b. induction cs as [|c cs IH]; intros b.
  - exists 0. apply extendsBy_refl.
  - cbn [HttpCalls.run fold_left].
    destruct (IH (HttpCalls.call c b)) as [m Hm].
    destruct (HttpCalls_call_directives c b) as [n Hn].
    exists (n + m). exact (extendsBy_trans _ _ _ _ _ Hn Hm).
Qed.

Lemma HttpBlock_build_render (indent : string) (h : HttpBlock.t) :
  HttpSpec.terminatedStore (HttpBlock.directives h) ->
  HttpBlock.build indent h = HttpSpec.render indent h.
Proof.
  intros Hstore.
  pose proof (group_tidy (fun d => (indent ++ "    ") ++ d) JS.LF
                (HttpBlock.buildTypedDirectives h)
                (indented_ink _ _ (buildTypedLines_terminated _)))
    as [T1 _].
  pose proof (group_tidy (fun d => (indent ++ "    ") ++ d) JS.LF
                (HttpBlock.directives h) (indented_ink _ _ Hstore))
    as [T2 _].
  pose proof (group_tidy (UpstreamBlock.build (indent ++ "    "))
                (JS.LF ++ JS.LF) (HttpBlock.upstreams h)
                (fun u _ => UpstreamBlock_build_ink _ u)) as [T3 _].
  pose proof (group_tidy (MapBlock.build (indent ++ "    "))
                (JS.LF ++ JS.LF) (HttpBlock.maps h)
                (fun m _ => MapBlock_build_ink _ m)) as [T4 _].
  pose proof (group_tidy (ServerBlock.build (indent ++ "    "))
                (JS.LF ++ JS.LF) (HttpBlock.servers h)
                (fun s _ => ServerBlock_build_ink _ s)) as [T5 _].
  unfold HttpBlock.build, HttpSpec.render, HttpSpec.groups. cbv zeta.
  apply (wrap_groups
           (fun parts => indent ++ "http {" ++ JS.LF ++ parts ++ JS.LF
                                ++ indent ++ "}")
           (indent ++ "http {}")).
  repeat (constructor; [assumption |]). constructor.
Qed.

(** X7. Whatever public methods are called on a new HTTP-level block,
    in whatever order, every stored directive ends in the statement
    separator, and the block renders as its five groups in the fixed
    order, the non-empty ones one blank line apart. *)
Theorem http_calls_render (cs : list HttpCalls.Call) (indent : string) :
  HttpSpec.terminatedStore
    (HttpBlock.directives (HttpCalls.run cs HttpBlock.new))
  /\ HttpBlock.build indent (HttpCalls.run cs HttpBlock.new)
     = HttpSpec.render indent (HttpCalls.run cs HttpBlock.new).
Proof.
  assert (Hstore : HttpSpec.terminatedStore
            (HttpBlock.directives (HttpCalls.run cs HttpBlock.new))).
  { destruct (HttpCalls_run_directives cs HttpBlock.new) as [n Hn].
    apply (extendsBy_terminated _ _ _ Hn). constructor. }
  split; [exact Hstore | now apply HttpBlock_build_render].
Qed.

End StoreInvariants.

(* ================================================================== *)
(** ** Merging typed options *)
(* ================================================================== *)

Section TypedMerges.
Import HttpBlock.

Lemma build_same_typed_lines (indent : string) (h h' : HttpBlock.t) :
  servers h' = servers h -> upstreams h' = upstreams h -> maps h' = maps h ->
  directives h' = directives h ->
  buildTypedDirectives h' = buildTypedDirectives h ->
  build indent h' = build indent h.
Proof.
  intros Hs Hu Hm Hd Ht. unfold build. cbv zeta.
  now rewrite Hs, Hu, Hm, Hd, Ht.
Qed.

(** X8. Reading a typed option after a merge: the block holds, under
    each key, the last property of the merged record with that key, be
    its value [undefined], and what it held before when the record has
    no such property. *)
Theorem applyTypedDirectives_last_write
  (d : HttpTypedDirectives) (h : HttpBlock.t) (k : Key) :
  getProperty k (typedDirectives (applyTypedDirectives d h))
  = match getProperty k (rev d) with
    | Some p => Some p
    | None => getProperty k (typedDirectives h)
    end.
Proof. apply getProperty_Object_assign. Qed.

(** X9. Merging the same record of typed options twice changes nothing:
    the block holds the same properties and renders the same text as
    after the first merge. *)
Theorem applyTypedDirectives_idempotent
  (d : HttpTypedDirectives) (h : HttpBlock.t) (indent : string) :
  TypedSpec.sameProperties
    (typedDirectives (applyTypedDirectives d (applyTypedDirectives d h)))
    (typedDirectives (applyTypedDirectives d h))
  /\ build indent (applyTypedDirectives d (applyTypedDirectives d h))
     = build indent (applyTypedDirectives d h).
Proof.
  assert (Hsame : TypedSpec.sameProperties
            (typedDirectives (applyTypedDirectives d (applyTypedDirectives d h)))
            (typedDirectives (applyTypedDirectives d h))).
  { intros k. cbn [typedDirectives applyTypedDirectives].
    rewrite !getProperty_Object_assign.
    destruct (getProperty k (rev d)); reflexivity. }
  split; [exact Hsame |].
  apply build_same_typed_lines; try reflexivity.
  unfold buildTypedDirectives. now apply buildTypedLines_sameProperties.
Qed.

(** X10. Two records of typed options that share no key can be merged
    in either order: the block renders the same text. *)
Theorem disjoint_merges_render_alike
  (a b : HttpTypedDirectives) (h : HttpBlock.t) (indent : string) :
  (forall p q, In p a -> In q b -> keyOf p <> keyOf q) ->
  build indent (applyTypedDirectives b (applyTypedDirectives a h))
  = build indent (applyTypedDirectives a (applyTypedDirectives b h)).
Proof.
  intros Hdisj. apply build_same_typed_lines; try reflexivity.
  now apply disjoint_merges_same_lines.
Qed.

(** A witness for X10: [gzip] and [gzip_types] merged before or after
    [sendfile], on a block that holds a free-form directive. *)
Lemma disjoint_merges_render_alike_witness :
  (forall p q,
     In p [P_gzip (Some true); P_gzip_types (Some ["text/css"])] ->
     In q [P_sendfile (Some true)] -> keyOf p <> keyOf q)
  /\ build ""
       (applyTypedDirectives [P_sendfile (Some true)]
          (applyTypedDirectives
             [P_gzip (Some true); P_gzip_types (Some ["text/css"])]
             (HttpBlock.include "mime.types" HttpBlock.new)))
     = build ""
         (applyTypedDirectives
            [P_gzip (Some true); P_gzip_types (Some ["text/css"])]
            (applyTypedDirectives [P_sendfile (Some true)]
               (HttpBlock.include "mime.types" HttpBlock.new))).
Proof.
  assert (Hd : forall p q,
     In p [P_gzip (Some true); P_gzip_types (Some ["text/css"])] ->
     In q [P_sendfile (Some true)] -> keyOf p <> keyOf q).
  { intros p q [<- | [<- | []]] [<- | []]; discriminate. }
  split; [exact Hd |].
  exact (disjoint_merges_render_alike
           [P_gzip (Some true); P_gzip_types (Some ["text/css"])]
           [P_sendfile (Some true)]
           (HttpBlock.include "mime.types" HttpBlock.new) "" Hd).
Defined.

(** X11. [types(path)] stores a line that closes the braces and then
    adds a statement separator: the text handed to the append operation
    ends in a closing brace, not in a separator, whatever the path. *)
Theorem types_line_ends_after_brace (p : string) (h : HttpBlock.t) :
  directives (types p h)
  = (directives h ++ [("types { include " ++ p ++ "; };")%string])%list.
Proof.
  unfold types, addDirective. cbn [directivesOf withDirectives blockLike
    directives]. unfold Block.addDirective, JS.push. f_equal. f_equal.
  unfold Block.terminated.
  assert (E : JS.endsWith ("types { include " ++ p ++ "; }") ";" = false).
  { rewrite endsWith_char.
    replace ("types { include " ++ p ++ "; }")
      with (("types { include " ++ p ++ "; ") ++ "}")
      by (rewrite !append_assoc; reflexivity).
    rewrite trailing_snoc_other; [reflexivity | discriminate]. }
  rewrite E. cbn [negb]. rewrite !append_assoc. reflexivity.
Qed.

Lemma line_filter_bound (o : HttpTypedDirectives) (k k' : Key) :
  List.length
    (filter (fun l => JS.startsWith l (TypedSpec.keyName k ++ " "))
            (TypedSpec.line o k'))
  <= if Key_eqb k' k then 1 else 0.
Proof.
  destruct (Key_eqb k' k) eqn:E.
  - unfold TypedSpec.line. destruct (TypedSpec.rendered o k'); cbn [filter];
      [destruct (JS.startsWith _ _) |]; simpl; lia.
  - assert (Hne : k' <> k).
    { intros ->. assert (Key_eqb k k = true) by now apply Key_eqb_eq.
      congruence. }
    pose proof (line_of_other_key o k' k Hne) as Hno.
    unfold TypedSpec.noLineOf in Hno.
    induction Hno as [|l ls Hl _ IH]; [simpl; lia |].
    cbn [filter]. rewrite Hl. exact IH.
Qed.

(** X27. However many merges an HTTP-level block has received, its typed
    options render at most eight lines and at most one line per
    directive name, whereas each call of a free-form setter adds a line
    of its own: [sendfile(a)] then [sendfile(b)] stores two lines. *)
Theorem typed_lines_at_most_once (h : HttpBlock.t) (k : Key) (a b : bool) :
  List.length (buildTypedDirectives h) <= 8
  /\ List.length
       (filter (fun l => JS.startsWith l (TypedSpec.keyName k ++ " "))
               (buildTypedDirectives h)) <= 1
  /\ directives (sendfile_ b (sendfile_ a h))
     = (directives h
        ++ [("sendfile " ++ JS.onOff a ++ ";")%string;
            ("sendfile " ++ JS.onOff b ++ ";")%string])%list.
Proof.
  unfold buildTypedDirectives. rewrite buildTypedLines_schema.
  unfold TypedSpec.lines, TypedSpec.schema. cbn [flat_map].
  split; [| split].
  - rewrite !length_app. unfold TypedSpec.line.
    repeat match goal with
           | |- context [match ?x with _ => _ end] => destruct x
           end; simpl; lia.
  - rewrite !filter_app, !length_app.
    pose proof (line_filter_bound (typedDirectives h) k sendfile).
    pose proof (line_filter_bound (typedDirectives h) k keepalive_timeout).
    pose proof (line_filter_bound (typedDirectives h) k client_max_body_size).
    pose proof (line_filter_bound (typedDirectives h) k default_type).
    pose proof (line_filter_bound (typedDirectives h) k gzip).
    pose proof (line_filter_bound (typedDirectives h) k gzip_types).
    pose proof (line_filter_bound (typedDirectives h) k tcp_nopush).
    pose proof (line_filter_bound (typedDirectives h) k tcp_nodelay).
    destruct k; cbn [Key_eqb filter List.length] in *; lia.
  - unfold sendfile_, addDirective.
    cbn [directivesOf withDirectives blockLike directives].
    unfold Block.addDirective, JS.push. rewrite <- app_assoc. cbn [app].
    destruct a, b; reflexivity.
Qed.

End TypedMerges.

(* ================================================================== *)
(** ** Servers, locations and conditional sections *)
(* ================================================================== *)

Section StructuralBlocks.

Lemma IfBlock_build_ink (indent : string) (i : IfBlock.t) :
  hasInk (IfBlock.build indent i) = true.
Proof.
  unfold IfBlock.build. cbv zeta. rewrite hasInk_append. apply orb_true_r.
Qed.

Lemma truthy_members {A} (f : A -> string) (sep : string) (x : A)
  (xs : list A) :
  (forall y, hasInk (f y) = true) ->
  JS.truthy (JS.join sep (map f (x :: xs))) = true.
Proof.
  intros Hink. apply truthy_true, hasInk_nonempty, hasInk_join;
    [discriminate |].
  apply Forall_forall. intros y Hy.
  apply in_map_iff in Hy as [z [<- _]]. apply Hink.
Qed.

(** X12. A server renders its directives, one per line, and then its
    locations in insertion order, one blank line before each; a server
    without location adds nothing after its directives.  A server that
    holds locations but no directive therefore starts with two empty
    lines. *)
Theorem ServerBlock_build_structure (indent : string) (s : ServerBlock.t) :
  ServerBlock.build indent s
  = indent ++ "server {" ++ JS.LF
      ++ Block.formatDirectives (indent ++ "    ") (ServerBlock.directives s)
      ++ match ServerBlock.locations s with
         | [] => ""
         | ls =>
             JS.LF ++ JS.LF
               ++ JS.join (JS.LF ++ JS.LF)
                    (map (LocationBlock.build (indent ++ "    ")) ls)
         end
      ++ JS.LF ++ indent ++ "}"
  /\ forall l ls,
       ServerBlock.build indent (ServerBlock.mk (l :: ls) [])
       = indent ++ "server {" ++ JS.LF ++ JS.LF ++ JS.LF
           ++ JS.join (JS.LF ++ JS.LF)
                (map (LocationBlock.build (indent ++ "    ")) (l :: ls))
           ++ JS.LF ++ indent ++ "}".
Proof.
  split.
  - unfold ServerBlock.build. cbv zeta.
    destruct (ServerBlock.locations s) as [|l ls]; [reflexivity |].
    now rewrite (truthy_members _ _ l ls (LocationBlock_build_ink _)).
  - intros l ls. unfold ServerBlock.build. cbv zeta.
    cbn [ServerBlock.locations ServerBlock.directives].
    now rewrite (truthy_members _ _ l ls (LocationBlock_build_ink _)).
Qed.

(** X13. A location renders its directives and then its conditional
    sections in insertion order, one blank line before each; the exact
    flag only puts [=] in the opening line, whose modifier and path are
    always two spaces apart otherwise.  A location that holds
    conditional sections but no directive starts with two empty
    lines. *)
Theorem LocationBlock_build_structure (indent : string) (l : LocationBlock.t) :
  LocationBlock.build indent l
  = indent
      ++ (if LocationBlock.exact l then "location = " else "location  ")
      ++ LocationBlock.path l ++ " {" ++ JS.LF
      ++ Block.formatDirectives (indent ++ "    ") (LocationBlock.directives l)
      ++ match LocationBlock.ifBlocks l with
         | [] => ""
         | ifs =>
             JS.LF ++ JS.LF
               ++ JS.join (JS.LF ++ JS.LF)
                    (map (IfBlock.build (indent ++ "    ")) ifs)
         end
      ++ JS.LF ++ indent ++ "}"
  /\ forall path exact i ifs,
       LocationBlock.build indent (LocationBlock.mk path exact (i :: ifs) [])
       = indent
           ++ (if exact then "location = " else "location  ")
           ++ path ++ " {" ++ JS.LF ++ JS.LF ++ JS.LF
           ++ JS.join (JS.LF ++ JS.LF)
                (map (IfBlock.build (indent ++ "    ")) (i :: ifs))
           ++ JS.LF ++ indent ++ "}".
Proof.
  split.
  - unfold LocationBlock.build. cbv zeta.
    destruct (LocationBlock.ifBlocks l) as [|i ifs].
    + destruct (LocationBlock.exact l); reflexivity.
    + rewrite (truthy_members _ _ i ifs (IfBlock_build_ink _)).
      destruct (LocationBlock.exact l); reflexivity.
  - intros path exact i ifs. unfold LocationBlock.build. cbv zeta.
    cbn [LocationBlock.ifBlocks LocationBlock.directives LocationBlock.exact
         LocationBlock.path].
    rewrite (truthy_members _ _ i ifs (IfBlock_build_ink _)).
    destruct exact; reflexivity.
Qed.

Lemma fold_addDirective (rules : list string) (ds : Block.store) :
  fold_left (fun ds rule => Block.addDirective rule ds) rules ds
  = (ds ++ map Block.terminated rules)%list.
Proof.
  revert ds. induction rules as [|r rules IH]; intros ds.
  - simpl. now rewrite app_nil_r.
  - cbn [fold_left map]. rewrite IH. unfold Block.addDirective, JS.push.
    now rewrite <- app_assoc.
Qed.

(** X14. [allowDeny] stores its rules as so many directives, in the
    order given, each given a statement separator when it has none; it
    touches nothing else, and without a rule it does nothing.  This
    holds of a server and of a location alike. *)
Theorem allowDeny_appends_each_rule
  (rules : list string) (s : ServerBlock.t) (l : LocationBlock.t) :
  ServerBlock.allowDeny rules s
  = ServerBlock.mk (ServerBlock.locations s)
      (ServerBlock.directives s ++ map Block.terminated rules)%list
  /\ LocationBlock.allowDeny rules l
     = LocationBlock.mk (LocationBlock.path l) (LocationBlock.exact l)
         (LocationBlock.ifBlocks l)
         (LocationBlock.directives l ++ map Block.terminated rules)%list.
Proof.
  rewrite ServerBlock_allowDeny_directives, LocationBlock_allowDeny_directives.
  now rewrite !fold_addDirective.
Qed.

End StructuralBlocks.

(* ================================================================== *)
(** ** Where the lines of a document stand *)
(* ================================================================== *)

Section Depths.

Lemma IfBlock_directive_line (indent d : string) (i : IfBlock.t) :
  In d (IfBlock.directives i) ->
  occursIn (JS.LF ++ (indent ++ "    " ++ d) ++ JS.LF) (IfBlock.build indent i).
Proof.
  intros Hd. unfold IfBlock.build. cbv zeta.
  do 4 apply occursIn_append_l.
  assert (Hline : occursIn (JS.LF ++ (indent ++ "    " ++ d) ++ JS.LF)
            (JS.LF ++ JS.join JS.LF
                        (map (fun d0 => indent ++ "    " ++ d0)
                             (IfBlock.directives i)) ++ JS.LF)).
  { apply line_of_join. apply in_map_iff. now exists d. }
  apply (occursIn_trans _ _ _ Hline).
  exists "". eexists. rewrite ?append_assoc. cbn [append]. reflexivity.
Qed.

Lemma LocationBlock_if (indent : string) (l : LocationBlock.t) (i : IfBlock.t) :
  In i (LocationBlock.ifBlocks l) ->
  occursIn (IfBlock.build (indent ++ "    ") i) (LocationBlock.build indent l).
Proof.
  intros Hi. unfold LocationBlock.build. cbv zeta.
  set (ifs := JS.join (JS.LF ++ JS.LF)
                (map (IfBlock.build (indent ++ "    "))
                     (LocationBlock.ifBlocks l))).
  assert (Hin : occursIn (IfBlock.build (indent ++ "    ") i) ifs).
  { apply occursIn_join. apply in_map_iff. now exists i. }
  assert (Ht : JS.truthy ifs = true).
  { apply truthy_true, hasInk_nonempty.
    apply (occursIn_ink _ _ Hin), IfBlock_build_ink. }
  rewrite Ht. apply (occursIn_trans _ _ _ Hin).
  do 8 apply occursIn_append_l.
  exists (JS.LF ++ JS.LF). eexists. rewrite ?append_assoc. reflexivity.
Qed.

Lemma ServerBlock_directive_line (indent d : string) (s : ServerBlock.t) :
  In d (ServerBlock.directives s) ->
  occursIn (JS.LF ++ ((indent ++ "    ") ++ d) ++ JS.LF)
           (ServerBlock.build indent s).
Proof.
  intros Hd. unfold ServerBlock.build, Block.formatDirectives. cbv zeta.
  assert (Hline : occursIn (JS.LF ++ ((indent ++ "    ") ++ d) ++ JS.LF)
            (JS.LF ++ JS.join JS.LF
                        (map (fun d0 => (indent ++ "    ") ++ d0)
                             (ServerBlock.directives s)) ++ JS.LF)).
  { apply line_of_join. apply in_map_iff. now exists d. }
  apply (occursIn_trans _ _ _ Hline).
  do 2 apply occursIn_append_l.
  destruct (JS.truthy _); exists ""; eexists;
    rewrite ?append_assoc; cbn [append]; reflexivity.
Qed.

Lemma UpstreamBlock_directive_line (indent d : string) (u : UpstreamBlock.t) :
  In d (UpstreamBlock.directives u) ->
  occursIn (JS.LF ++ ((indent ++ "    ") ++ d) ++ JS.LF)
           (UpstreamBlock.build indent u).
Proof.
  intros Hd. unfold UpstreamBlock.build, Block.formatDirectives. cbv zeta.
  assert (Hline : occursIn (JS.LF ++ ((indent ++ "    ") ++ d) ++ JS.LF)
            (JS.LF ++ JS.join JS.LF
                        (map (fun d0 => (indent ++ "    ") ++ d0)
                             (UpstreamBlock.directives u)) ++ JS.LF)).
  { apply line_of_join. apply in_map_iff. now exists d. }
  apply (occursIn_trans _ _ _ Hline).
  do 4 apply occursIn_append_l.
  exists "". eexists. rewrite ?append_assoc. cbn [append]. reflexivity.
Qed.

Lemma EventsBlock_directive_line (d : string) (e : EventsBlock.t) :
  In d (EventsBlock.directives e) ->
  occursIn (JS.LF ++ ("    " ++ d) ++ JS.LF) (EventsBlock.build e).
Proof.
  intros Hd. unfold EventsBlock.build, Block.formatDirectives. cbv zeta.
  assert (Hline : occursIn (JS.LF ++ ("    " ++ d) ++ JS.LF)
            (JS.LF ++ JS.join JS.LF
                        (map (fun d0 => "    " ++ d0)
                             (EventsBlock.directives e)) ++ JS.LF)).
  { apply line_of_join. apply in_map_iff. now exists d. }
  apply (occursIn_trans _ _ _ Hline).
  apply occursIn_append_l.
  exists "". eexists. rewrite ?append_assoc. cbn [append]. reflexivity.
Qed.

Lemma HttpBlock_upstream (indent : string) (h : HttpBlock.t)
  (u : UpstreamBlock.t) :
  In u (HttpBlock.upstreams h) ->
  occursIn (UpstreamBlock.build (indent ++ "    ") u)
           (HttpBlock.build indent h).
Proof.
  intros Hu. unfold HttpBlock.build. cbv zeta.
  set (ups := JS.join (JS.LF ++ JS.LF)
                (map (UpstreamBlock.build (indent ++ "    "))
                     (HttpBlock.upstreams h))).
  assert (Hin : occursIn (UpstreamBlock.build (indent ++ "    ") u) ups).
  { apply occursIn_join. apply in_map_iff. now exists u. }
  assert (Hink : hasInk ups = true)
    by apply (occursIn_ink _ _ Hin), UpstreamBlock_build_ink.
  match goal with
  | |- context [JS.join (JS.LF ++ JS.LF) (filter ?f ?gs)] =>
      set (parts := JS.join (JS.LF ++ JS.LF) (filter f gs));
      assert (Hparts : occursIn ups parts)
  end.
  { apply occursIn_join, filter_In. split.
    - right. right. now left.
    - now rewrite trim_ink. }
  rewrite trim_ink, (occursIn_ink _ _ Hparts Hink).
  apply (occursIn_trans _ _ _ Hin), (occursIn_trans _ _ _ Hparts).
  exists (indent ++ "http {" ++ JS.LF). eexists.
  rewrite !append_assoc. reflexivity.
Qed.

Lemma NginxConfig_events (c : NginxConfig.t) (e : EventsBlock.t) :
  NginxConfig.eventsBlock c = Some e ->
  occursIn (EventsBlock.build e) (NginxConfig.build c).
Proof.
  intros He. unfold NginxConfig.build. cbv zeta. rewrite He.
  apply occursIn_append_r, occursIn_join.
  destruct (NginxConfig.httpBlock c); unfold JS.push;
    repeat (apply in_or_app; try (right; now left); left).
Qed.

Lemma SiteConfig_server (c : SiteConfig.t) (s : ServerBlock.t) :
  In s (SiteConfig.servers c) ->
  occursIn (ServerBlock.build "" s) (SiteConfig.build c).
Proof.
  intros Hs. unfold SiteConfig.build. cbv zeta.
  set (srv := JS.join JS.LF (map (ServerBlock.build "") (SiteConfig.servers c))).
  assert (Hin : occursIn (ServerBlock.build "" s) srv).
  { apply occursIn_join. apply in_map_iff. now exists s. }
  assert (Ht : JS.truthy srv = true).
  { apply truthy_true, hasInk_nonempty.
    apply (occursIn_ink _ _ Hin), ServerBlock_build_ink. }
  apply (occursIn_trans _ _ _ Hin).
  apply occursIn_append_r, occursIn_join, filter_In. split; [| exact Ht].
  right. now left.
Qed.

Lemma MapBlock_item_line (indent : string) (m : MapBlock.t)
  (it : MapBlock.MapItem) :
  In it (MapBlock.items m) ->
  occursIn
    (JS.LF ++ (indent ++ MapBlock.key it ++ " " ++ MapBlock.value it ++ ";")
           ++ JS.LF)
    (MapBlock.build indent m).
Proof.
  intros Hit. unfold MapBlock.build. cbv zeta.
  do 6 apply occursIn_append_l.
  assert (Hline : occursIn
            (JS.LF ++ (indent ++ MapBlock.key it ++ " " ++ MapBlock.value it
                              ++ ";") ++ JS.LF)
            (JS.LF ++ JS.join JS.LF
                        (map (fun i => indent ++ MapBlock.key i ++ " "
                                              ++ MapBlock.value i ++ ";")
                             (MapBlock.items m)) ++ JS.LF)).
  { apply line_of_join. apply in_map_iff. now exists it. }
  apply (occursIn_trans _ _ _ Hline).
  exists "". eexists. rewrite ?append_assoc. cbn [append]. reflexivity.
Qed.

(** X15. In every full document, a directive inside a conditional
    section inside a location inside a server inside the http section
    is a line indented by four units, sixteen spaces: the conditional
    section adds one unit to the three of the location's own
    directives. *)
Theorem conditional_directive_indentation
  (c : NginxConfig.t) (h : HttpBlock.t) (s : ServerBlock.t)
  (l : LocationBlock.t) (i : IfBlock.t) (d : string) :
  NginxConfig.httpBlock c = Some h ->
  In s (HttpBlock.servers h) ->
  In l (ServerBlock.locations s) ->
  In i (LocationBlock.ifBlocks l) ->
  In d (IfBlock.directives i) ->
  occursIn (JS.LF ++ indentation 4 ++ d ++ JS.LF) (NginxConfig.build c).
Proof.
  intros Hh Hs Hl Hi Hd.
  apply (occursIn_trans _ _ _ (IfBlock_directive_line "            " d i Hd)).
  apply (occursIn_trans _ _ _ (LocationBlock_if "        " l i Hi)).
  apply (occursIn_trans _ _ _ (ServerBlock_location "    " s l Hl)).
  apply (occursIn_trans _ _ _ (HttpBlock_server "" h s Hs)).
  now apply NginxConfig_http.
Qed.

(** A witness for X15: the sample document. *)
Lemma conditional_directive_indentation_witness :
  NginxConfig.httpBlock Samples.document = Some Samples.http
  /\ In Samples.server (HttpBlock.servers Samples.http)
  /\ In Samples.location (ServerBlock.locations Samples.server)
  /\ In Samples.conditional (LocationBlock.ifBlocks Samples.location)
  /\ In "return 403;" (IfBlock.directives Samples.conditional)
  /\ occursIn (JS.LF ++ indentation 4 ++ "return 403;" ++ JS.LF)
              (NginxConfig.build Samples.document).
Proof.
  repeat split; try (left; reflexivity).
  exact (conditional_directive_indentation
    Samples.document Samples.http Samples.server Samples.location
    Samples.conditional "return 403;" eq_refl (or_introl eq_refl)
    (or_introl eq_refl) (or_introl eq_refl) (or_introl eq_refl)).
Defined.

(** X16. In every full document, a directive of the events section is a
    line indented by one unit; a directive of an upstream group of the
    http section is a line indented by two units; and so is a directive
    of a server of the http section.  Each of the three holds on its
    own, whatever else the document holds. *)
Theorem document_directive_depths (c : NginxConfig.t) :
  (forall e de,
     NginxConfig.eventsBlock c = Some e ->
     In de (EventsBlock.directives e) ->
     occursIn (JS.LF ++ indentation 1 ++ de ++ JS.LF) (NginxConfig.build c))
  /\ (forall h u du,
        NginxConfig.httpBlock c = Some h ->
        In u (HttpBlock.upstreams h) ->
        In du (UpstreamBlock.directives u) ->
        occursIn (JS.LF ++ indentation 2 ++ du ++ JS.LF) (NginxConfig.build c))
  /\ (forall h s ds,
        NginxConfig.httpBlock c = Some h ->
        In s (HttpBlock.servers h) ->
        In ds (ServerBlock.directives s) ->
        occursIn (JS.LF ++ indentation 2 ++ ds ++ JS.LF) (NginxConfig.build c)).
Proof.
  repeat split.
  - intros e de He Hde.
    apply (occursIn_trans _ _ _ (EventsBlock_directive_line de e Hde)).
    now apply NginxConfig_events.
  - intros h u du Hh Hu Hdu.
    apply (occursIn_trans _ _ _ (UpstreamBlock_directive_line "    " du u Hdu)).
    apply (occursIn_trans _ _ _ (HttpBlock_upstream "" h u Hu)).
    now apply NginxConfig_http.
  - intros h s ds Hh Hs Hds.
    apply (occursIn_trans _ _ _ (ServerBlock_directive_line "    " ds s Hds)).
    apply (occursIn_trans _ _ _ (HttpBlock_server "" h s Hs)).
    now apply NginxConfig_http.
Qed.

(** A witness for X16: the sample document, and a document that holds
    an events section only. *)
Lemma document_directive_depths_witness :
  (NginxConfig.eventsBlock Samples.document = Some Samples.events
   /\ In "worker_connections 1024;" (EventsBlock.directives Samples.events)
   /\ occursIn (JS.LF ++ indentation 1 ++ "worker_connections 1024;" ++ JS.LF)
              (NginxConfig.build Samples.document))
  /\ (NginxConfig.httpBlock Samples.document = Some Samples.http
      /\ In Samples.upstream (HttpBlock.upstreams Samples.http)
      /\ In "server 127.0.0.1:8001;" (UpstreamBlock.directives Samples.upstream)
      /\ occursIn (JS.LF ++ indentation 2 ++ "server 127.0.0.1:8001;" ++ JS.LF)
                  (NginxConfig.build Samples.document))
  /\ (NginxConfig.httpBlock Samples.document = Some Samples.http
      /\ In Samples.server (HttpBlock.servers Samples.http)
      /\ In "listen 80;" (ServerBlock.directives Samples.server)
      /\ occursIn (JS.LF ++ indentation 2 ++ "listen 80;" ++ JS.LF)
                  (NginxConfig.build Samples.document))
  /\ (NginxConfig.eventsBlock
        (NginxConfig.events (EventsBlock.workerConnections 1024)
                            NginxConfig.new) = Some Samples.events
      /\ occursIn (JS.LF ++ indentation 1 ++ "worker_connections 1024;" ++ JS.LF)
                  (NginxConfig.build
                     (NginxConfig.events (EventsBlock.workerConnections 1024)
                                         NginxConfig.new))).
Proof.
  split; [| split; [| split]].
  - split; [reflexivity | split; [left; reflexivity |]].
    exact (proj1 (document_directive_depths Samples.document)
             Samples.events "worker_connections 1024;" eq_refl
             (or_introl eq_refl)).
  - split; [reflexivity | split; [left; reflexivity |
                                  split; [left; reflexivity |]]].
    exact (proj1 (proj2 (document_directive_depths Samples.document))
             Samples.http Samples.upstream "server 127.0.0.1:8001;" eq_refl
             (or_introl eq_refl) (or_introl eq_refl)).
  - split; [reflexivity | split; [left; reflexivity |
                                  split; [left; reflexivity |]]].
    exact (proj2 (proj2 (document_directive_depths Samples.document))
             Samples.http Samples.server "listen 80;" eq_refl
             (or_introl eq_refl) (or_introl eq_refl)).
  - split; [reflexivity |].
    exact (proj1 (document_directive_depths
                    (NginxConfig.events (EventsBlock.workerConnections 1024)
                                        NginxConfig.new))
             Samples.events "worker_connections 1024;" eq_refl
             (or_introl eq_refl)).
Defined.

(** X17. A variable map renders each of its pairs as a line [key value;]
    at the indentation of its own opening line, not one unit deeper.
    Whether it holds pairs or not, its text starts with its indentation
    and [map], and it never renders its directive store: a directive
    appended to a map leaves no trace in the text. *)
Theorem map_entries_and_store (indent : string) (m : MapBlock.t) :
  (forall it,
     In it (MapBlock.items m) ->
     occursIn
       (JS.LF ++ indent ++ MapBlock.key it ++ " " ++ MapBlock.value it ++ ";"
              ++ JS.LF)
       (MapBlock.build indent m))
  /\ JS.startsWith (MapBlock.build indent m) (indent ++ "map ") = true
  /\ (forall s, MapBlock.build indent (addDirective s m)
               = MapBlock.build indent m)
  /\ (forall d c k,
        MapBlock.build indent (applyCommonDirectives d m)
        = MapBlock.build indent m
        /\ MapBlock.build indent (configureCompression c m)
           = MapBlock.build indent m
        /\ MapBlock.build indent (configureCache k m)
           = MapBlock.build indent m).
Proof.
  split; [| split; [| split; [reflexivity | repeat split; reflexivity]]].
  - intros it Hit. pose proof (MapBlock_item_line indent m it Hit) as H.
    now rewrite !append_assoc in H.
  - unfold MapBlock.build, JS.startsWith. cbv zeta.
    rewrite <- (append_assoc indent "map "). apply prefix_append.
Qed.

(** A witness for X17: the map of the sample document. *)
Lemma map_entries_and_store_witness :
  In (MapBlock.mkItem "~*bot" "1") (MapBlock.items Samples.variableMap)
  /\ occursIn (JS.LF ++ "    " ++ "~*bot" ++ " " ++ "1" ++ ";" ++ JS.LF)
              (MapBlock.build "    " Samples.variableMap).
Proof.
  split; [left; reflexivity |].
  exact (proj1 (map_entries_and_store "    " Samples.variableMap)
           (MapBlock.mkItem "~*bot" "1") (or_introl eq_refl)).
Defined.

(** X18. In every server-only document, servers stand at the left
    margin: a directive of a server is a line indented by one unit,
    whether the server holds locations or not, and a directive inside a
    location of a server is a line indented by two units. *)
Theorem site_directive_depths (c : SiteConfig.t) :
  (forall s ds,
     In s (SiteConfig.servers c) ->
     In ds (ServerBlock.directives s) ->
     occursIn (JS.LF ++ indentation 1 ++ ds ++ JS.LF) (SiteConfig.build c))
  /\ (forall s l dl,
        In s (SiteConfig.servers c) ->
        In l (ServerBlock.locations s) ->
        In dl (LocationBlock.directives l) ->
        occursIn (JS.LF ++ indentation 2 ++ dl ++ JS.LF) (SiteConfig.build c)).
Proof.
  split.
  - intros s ds Hs Hds.
    apply (occursIn_trans _ _ _ (ServerBlock_directive_line "" ds s Hds)).
    now apply SiteConfig_server.
  - intros s l dl Hs Hl Hdl.
    apply (occursIn_trans _ _ _ (LocationBlock_directive_line "    " dl l Hdl)).
    apply (occursIn_trans _ _ _ (ServerBlock_location "" s l Hl)).
    now apply SiteConfig_server.
Qed.

(** A witness for X18: the sample server-only document, and a document
    whose only server holds no location. *)
Lemma site_directive_depths_witness :
  (In Samples.server (SiteConfig.servers Samples.site)
   /\ In "listen 80;" (ServerBlock.directives Samples.server)
   /\ occursIn (JS.LF ++ indentation 1 ++ "listen 80;" ++ JS.LF)
              (SiteConfig.build Samples.site))
  /\ (In Samples.server (SiteConfig.servers Samples.site)
      /\ In Samples.location (ServerBlock.locations Samples.server)
      /\ In "root /var/www/html;" (LocationBlock.directives Samples.location)
      /\ occursIn (JS.LF ++ indentation 2 ++ "root /var/www/html;" ++ JS.LF)
                  (SiteConfig.build Samples.site))
  /\ occursIn (JS.LF ++ indentation 1 ++ "listen 80;" ++ JS.LF)
              (SiteConfig.build
                 (SiteConfig.addServer (inl 80%Z) false SiteConfig.new)).
Proof.
  split; [| split].
  - split; [left; reflexivity | split; [left; reflexivity |]].
    exact (proj1 (site_directive_depths Samples.site)
             Samples.server "listen 80;" (or_introl eq_refl)
             (or_introl eq_refl)).
  - split; [left; reflexivity | split; [left; reflexivity |
                                        split; [left; reflexivity |]]].
    exact (proj2 (site_directive_depths Samples.site)
             Samples.server Samples.location "root /var/www/html;"
             (or_introl eq_refl) (or_introl eq_refl) (or_introl eq_refl)).
  - exact (proj1 (site_directive_depths
                    (SiteConfig.addServer (inl 80%Z) false SiteConfig.new))
             (ServerBlock.listen (inl 80%Z) false ServerBlock.new)
             "listen 80;" (or_introl eq_refl) (or_introl eq_refl)).
Defined.

End Depths.

(* ================================================================== *)
(** ** The full document *)
(* ================================================================== *)

Section FullDocument.

(** X19. The events and http sections are singletons: a second call of
    [events()] or [http()] hands out the block the first one created,
    with what was put into it, so that two rounds of calls on the handle
    amount to one; and the two sections do not disturb each other. *)
Theorem sections_are_singletons
  (f g : HttpBlock.t -> HttpBlock.t) (p q : EventsBlock.t -> EventsBlock.t)
  (c : NginxConfig.t) :
  NginxConfig.http f (NginxConfig.http g c)
  = NginxConfig.http (fun h => f (g h)) c
  /\ NginxConfig.events p (NginxConfig.events q c)
     = NginxConfig.events (fun e => p (q e)) c
  /\ NginxConfig.http f (NginxConfig.events p c)
     = NginxConfig.events p (NginxConfig.http f c).
Proof.
  destruct c as [u w pd [e|] [h|]]; repeat split; reflexivity.
Qed.

(** X20. The user, worker-processes and pid directives are single
    slots: setting one again replaces it, the last call winning, and
    setting different ones in either order leaves the same document. *)
Theorem document_directives_are_slots
  (u1 u2 p1 p2 : string) (w1 w2 : string + Z) (c : NginxConfig.t) :
  NginxConfig.user u2 (NginxConfig.user u1 c) = NginxConfig.user u2 c
  /\ NginxConfig.workerProcesses w2 (NginxConfig.workerProcesses w1 c)
     = NginxConfig.workerProcesses w2 c
  /\ NginxConfig.pid p2 (NginxConfig.pid p1 c) = NginxConfig.pid p2 c
  /\ NginxConfig.user u1 (NginxConfig.pid p1 c)
     = NginxConfig.pid p1 (NginxConfig.user u1 c)
  /\ NginxConfig.user u1 (NginxConfig.workerProcesses w1 c)
     = NginxConfig.workerProcesses w1 (NginxConfig.user u1 c)
  /\ NginxConfig.pid p1 (NginxConfig.workerProcesses w1 c)
     = NginxConfig.workerProcesses w1 (NginxConfig.pid p1 c).
Proof. repeat split; reflexivity. Qed.

Lemma pushTruthy_present (x : option string) (parts : list string) :
  NginxConfigInv.field x = true ->
  NginxConfig.pushTruthy x parts = (parts ++ NginxSpec.present x)%list.
Proof.
  destruct x as [s|]; cbn; intros H; [| now rewrite app_nil_r].
  destruct (endsWith_split _ _ H) as [pre ->].
  assert (Ht : JS.truthy (pre ++ ";") = true).
  { apply truthy_true. intros E. apply append_eq_nil in E as [_ E].
    discriminate. }
  now rewrite Ht.
Qed.

(** X21. A full document whose directive slots were set by its methods
    renders the parts that are present in the fixed order user, worker
    processes, pid, events section, http section, one blank line between
    two of them and one newline at the end, whatever the order of the
    calls that built it. *)
Theorem NginxConfig_build_structure (c : NginxConfig.t) :
  NginxConfigInv.wellFormed c = true ->
  NginxConfig.build c
  = JS.join (JS.LF ++ JS.LF) (NginxSpec.parts c) ++ JS.LF.
Proof.
  unfold NginxConfigInv.wellFormed. intros H.
  apply andb_true_iff in H as [H H3]. apply andb_true_iff in H as [H1 H2].
  unfold NginxConfig.build, NginxSpec.parts. cbv zeta.
  rewrite !pushTruthy_present by assumption. cbn [app].
  destruct (NginxConfig.eventsBlock c), (NginxConfig.httpBlock c);
    cbn [option_map NginxSpec.present]; unfold JS.push;
    rewrite <- ?app_assoc, ?app_nil_r; reflexivity.
Qed.

(** A witness for X21: pid set before user, the http section asked for
    before the events section. *)
Lemma NginxConfig_build_structure_witness :
  NginxConfigInv.wellFormed
    (NginxConfig.events (EventsBlock.workerConnections 1024)
       (NginxConfig.http (HttpBlock.include "mime.types")
          (NginxConfig.user "nginx"
             (NginxConfig.pid "/run/nginx.pid" NginxConfig.new)))) = true
  /\ NginxConfig.build
       (NginxConfig.events (EventsBlock.workerConnections 1024)
          (NginxConfig.http (HttpBlock.include "mime.types")
             (NginxConfig.user "nginx"
                (NginxConfig.pid "/run/nginx.pid" NginxConfig.new))))
     = JS.join (JS.LF ++ JS.LF)
         (NginxSpec.parts
            (NginxConfig.events (EventsBlock.workerConnections 1024)
               (NginxConfig.http (HttpBlock.include "mime.types")
                  (NginxConfig.user "nginx"
                     (NginxConfig.pid "/run/nginx.pid" NginxConfig.new)))))
         ++ JS.LF.
Proof.
  split; [reflexivity |].
  exact (NginxConfig_build_structure
    (NginxConfig.events (EventsBlock.workerConnections 1024)
       (NginxConfig.http (HttpBlock.include "mime.types")
          (NginxConfig.user "nginx"
             (NginxConfig.pid "/run/nginx.pid" NginxConfig.new))))
    eq_refl).
Defined.

Lemma construct_wellFormed (d : option NginxConfig.NginxConfigDefaults) :
  NginxConfigInv.wellFormed (NginxConfig.construct d) = true.
Proof.
  apply Reachable_wellFormed. unfold NginxConfig.construct. cbv zeta.
  destruct d as [d|]; [| constructor].
  repeat match goal with
         | |- NginxConfigInv.Reachable (match ?x with _ => _ end) => destruct x
         | |- NginxConfigInv.Reachable _ => constructor
         end.
Qed.

Lemma NginxConfig_build_parts (c : NginxConfig.t) :
  NginxConfigInv.wellFormed c = true ->
  NginxConfig.build c
  = JS.join (JS.LF ++ JS.LF) (NginxSpec.parts c) ++ JS.LF.
Proof.
  unfold NginxConfigInv.wellFormed. intros H.
  apply andb_true_iff in H as [H H3]. apply andb_true_iff in H as [H1 H2].
  unfold NginxConfig.build, NginxSpec.parts. cbv zeta.
  rewrite !pushTruthy_present by assumption. cbn [app].
  destruct (NginxConfig.eventsBlock c), (NginxConfig.httpBlock c);
    cbn [option_map NginxSpec.present]; unfold JS.push;
    rewrite <- ?app_assoc, ?app_nil_r; reflexivity.
Qed.

(** X22. A document made by the constructor from a record of defaults,
    whatever the record, ends in exactly one newline and renders the
    parts it holds in the fixed order, one blank line apart.  For every
    record, the user and pid slots are set when the record gives a text
    that is not empty and stay unset when the text is missing or empty,
    whereas the worker-processes slot is set whenever the record gives
    a value, the number zero and the empty text included. *)
Theorem constructed_document_ends_in_one_newline
  (d : option NginxConfig.NginxConfigDefaults) :
  trailing (ascii_of_nat 10) (NginxConfig.build (NginxConfig.construct d)) = 1
  /\ NginxConfig.build (NginxConfig.construct d)
     = JS.join (JS.LF ++ JS.LF) (NginxSpec.parts (NginxConfig.construct d))
         ++ JS.LF
  /\ forall r : NginxConfig.NginxConfigDefaults,
       NginxConfig.userDirective (NginxConfig.construct (Some r))
       = match NginxConfig.defaultUser r with
         | Some u => if JS.truthy u then Some ("user " ++ u ++ ";") else None
         | None => None
         end
       /\ NginxConfig.pidDirective (NginxConfig.construct (Some r))
          = match NginxConfig.defaultPid r with
            | Some p => if JS.truthy p then Some ("pid " ++ p ++ ";") else None
            | None => None
            end
       /\ NginxConfig.workerProcessesDirective (NginxConfig.construct (Some r))
          = match NginxConfig.defaultWorkerProcesses r with
            | Some (inl text) => Some ("worker_processes " ++ text ++ ";")
            | Some (inr n) =>
                Some ("worker_processes " ++ JS.numberToString n ++ ";")
            | None => None
            end.
Proof.
  split; [| split].
  - destruct (NginxConfig_parts_endsOther _ (construct_wellFormed d))
      as [parts [-> Hparts]].
    apply one_newline_after. now apply join_tidy.
  - apply NginxConfig_build_parts, construct_wellFormed.
  - intros [u w p e h]. unfold NginxConfig.construct. cbv zeta.
    cbn [NginxConfig.defaultUser NginxConfig.defaultWorkerProcesses
         NginxConfig.defaultPid NginxConfig.defaultEvents
         NginxConfig.defaultHttp].
    destruct u as [u|]; [destruct (JS.truthy u) |];
      (destruct w as [[text|n]|];
       (destruct p as [p|]; [destruct (JS.truthy p) |];
        (destruct e, h; repeat split; reflexivity))).
Qed.

Lemma include_fold_typedDirectives (paths : list string) (h : HttpBlock.t) :
  HttpBlock.typedDirectives
    (fold_left (fun h p => HttpBlock.include p h) paths h)
  = HttpBlock.typedDirectives h.
Proof.
  revert h. induction paths as [|p paths IH]; intros h; [reflexivity |].
  cbn [fold_left]. now rewrite IH.
Qed.

(** X23. When the record of defaults has an http part, the constructor
    merges exactly six typed options into the new http section,
    sendfile, keepalive_timeout, client_max_body_size, default_type,
    gzip and gzip_types, each present even when the record leaves it
    [undefined]; tcp_nopush and tcp_nodelay are never merged, so a
    document fresh from the constructor has no typed line for them. *)
Theorem constructed_http_typed_options
  (d : NginxConfig.NginxConfigDefaults) (hd : NginxConfig.HttpDefaults) :
  NginxConfig.defaultHttp d = Some hd ->
  NginxConfig.httpBlock (NginxConfig.construct (Some d))
  = Some (NginxConfig.constructHttp hd HttpBlock.new)
  /\ HttpBlock.typedDirectives (NginxConfig.constructHttp hd HttpBlock.new)
     = [ HttpBlock.P_sendfile (NginxConfig.sendfile hd);
         HttpBlock.P_keepalive_timeout (NginxConfig.keepalive_timeout hd);
         HttpBlock.P_client_max_body_size (NginxConfig.client_max_body_size hd);
         HttpBlock.P_default_type (NginxConfig.default_type hd);
         HttpBlock.P_gzip (NginxConfig.gzip hd);
         HttpBlock.P_gzip_types (NginxConfig.gzip_types hd) ]
  /\ TypedSpec.noLineOf "tcp_nopush"
       (HttpBlock.buildTypedDirectives
          (NginxConfig.constructHttp hd HttpBlock.new))
  /\ TypedSpec.noLineOf "tcp_nodelay"
       (HttpBlock.buildTypedDirectives
          (NginxConfig.constructHttp hd HttpBlock.new)).
Proof.
  intros Hd.
  assert (Ht : HttpBlock.typedDirectives
                 (NginxConfig.constructHttp hd HttpBlock.new)
               = [ HttpBlock.P_sendfile (NginxConfig.sendfile hd);
                   HttpBlock.P_keepalive_timeout
                     (NginxConfig.keepalive_timeout hd);
                   HttpBlock.P_client_max_body_size
                     (NginxConfig.client_max_body_size hd);
                   HttpBlock.P_default_type (NginxConfig.default_type hd);
                   HttpBlock.P_gzip (NginxConfig.gzip hd);
                   HttpBlock.P_gzip_types (NginxConfig.gzip_types hd) ]).
  { unfold NginxConfig.constructHttp. cbv zeta.
    cbn [HttpBlock.applyTypedDirectives HttpBlock.typedDirectives].
    destruct (NginxConfig.logFormat hd), (NginxConfig.include hd);
      cbn [HttpBlock.logFormat addDirective withDirectives
           HttpBlock.blockLike HttpBlock.typedDirectives];
      rewrite ?include_fold_typedDirectives; reflexivity. }
  split; [| split; [exact Ht | split]].
  - unfold NginxConfig.construct. cbv zeta. rewrite Hd.
    destruct (NginxConfig.defaultUser d) as [u|];
      [destruct (JS.truthy u) |];
      (destruct (NginxConfig.defaultWorkerProcesses d);
       (destruct (NginxConfig.defaultPid d) as [p|];
          [destruct (JS.truthy p) |];
          (destruct (NginxConfig.defaultEvents d); reflexivity))).
  - unfold HttpBlock.buildTypedDirectives. rewrite Ht.
    apply (noLineOf_lines _ HttpBlock.tcp_nopush). reflexivity.
  - unfold HttpBlock.buildTypedDirectives. rewrite Ht.
    apply (noLineOf_lines _ HttpBlock.tcp_nodelay). reflexivity.
Qed.

(** A witness for X23: defaults that only ask for gzip. *)
Lemma constructed_http_typed_options_witness :
  NginxConfig.defaultHttp
    (NginxConfig.mkDefaults None None None None
       (Some (NginxConfig.mkHttpDefaults None None None None None None
                                         (Some true) None)))
  = Some (NginxConfig.mkHttpDefaults None None None None None None
                                     (Some true) None)
  /\ TypedSpec.noLineOf "tcp_nopush"
       (HttpBlock.buildTypedDirectives
          (NginxConfig.constructHttp
             (NginxConfig.mkHttpDefaults None None None None None None
                                         (Some true) None)
             HttpBlock.new)).
Proof.
  split; [reflexivity |].
  exact (proj1 (proj2 (proj2 (constructed_http_typed_options
    (NginxConfig.mkDefaults None None None None
       (Some (NginxConfig.mkHttpDefaults None None None None None None
                                         (Some true) None)))
    (NginxConfig.mkHttpDefaults None None None None None None
                                (Some true) None)
    eq_refl)))).
Defined.

End FullDocument.

(* ================================================================== *)
(** ** The server-only document *)
(* ================================================================== *)

Section SiteDocument.

Lemma join_append (sep : string) (a b : list string) :
  a <> [] -> b <> [] ->
  JS.join sep (a ++ b)%list = JS.join sep a ++ sep ++ JS.join sep b.
Proof.
  intros Ha Hb. induction a as [|x a IH]; [congruence |].
  destruct a as [|y a].
  - destruct b as [|z b]; [congruence | reflexivity].
  - change (JS.join sep ((x :: y :: a) ++ b)%list)
      with (x ++ sep ++ JS.join sep ((y :: a) ++ b)%list).
    rewrite IH by discriminate.
    change (JS.join sep (x :: y :: a)) with (x ++ sep ++ JS.join sep (y :: a)).
    now rewrite !append_assoc.
Qed.

Lemma normalized_terminated (ds : list string) :
  map (fun d => if JS.endsWith d ";" then d else d ++ ";") ds
  = map Block.terminated ds.
Proof.
  apply map_ext. intros d. unfold Block.terminated.
  destruct (JS.endsWith d ";"); reflexivity.
Qed.

Lemma terminated_ink (d : string) : hasInk (Block.terminated d) = true.
Proof. apply endsWith_semicolon_ink, terminated_endsWith. Qed.

(** X24. A server-only document renders one line per global directive,
    then its servers in insertion order, every server starting on the
    line after what precedes it: there is no blank line between the
    directives and the first server, nor between two servers. *)
Theorem SiteConfig_build_structure (c : SiteConfig.t) :
  SiteConfig.build c
  = JS.join JS.LF
      (map Block.terminated (SiteConfig.directives c)
       ++ map (ServerBlock.build "") (SiteConfig.servers c))%list
    ++ JS.LF.
Proof.
  unfold SiteConfig.build. cbv zeta. rewrite normalized_terminated.
  f_equal.
  assert (E0 : forall A (f : A -> string),
             JS.truthy (JS.join JS.LF (map f [])) = false) by reflexivity.
  destruct (SiteConfig.directives c) as [|d ds],
           (SiteConfig.servers c) as [|s ss]; cbn [filter].
  - reflexivity.
  - rewrite E0.
    now rewrite (truthy_members (ServerBlock.build "") JS.LF s ss
                   (ServerBlock_build_ink "")).
  - rewrite E0, app_nil_r.
    now rewrite (truthy_members Block.terminated JS.LF d ds terminated_ink).
  - rewrite (truthy_members Block.terminated JS.LF d ds terminated_ink).
    rewrite (truthy_members (ServerBlock.build "") JS.LF s ss
               (ServerBlock_build_ink "")).
    rewrite join_append by discriminate. reflexivity.
Qed.

(** X25. [include] of a server-only document always adds a statement
    separator, doubling one that the path already ends in, where the
    [include] of an http section, which goes through the common append
    operation, adds one only when it is missing; the line a server-only
    document stores is left as it is by the rendering. *)
Theorem site_include_always_terminates
  (p : string) (c : SiteConfig.t) (h : HttpBlock.t) :
  SiteConfig.directives (SiteConfig.include p c)
  = (SiteConfig.directives c ++ [("include " ++ p ++ ";")%string])%list
  /\ trailing ";" ("include " ++ p ++ ";") = S (trailing ";" ("include " ++ p))
  /\ Block.terminated ("include " ++ p ++ ";") = "include " ++ p ++ ";"
  /\ HttpBlock.directives (HttpBlock.include p h)
     = (HttpBlock.directives h ++ [Block.terminated ("include " ++ p)])%list
  /\ trailing ";" (Block.terminated ("include " ++ p))
     = Nat.max 1 (trailing ";" ("include " ++ p)).
Proof.
  split; [reflexivity |]. split.
  { rewrite <- (append_assoc "include " p ";"). apply trailing_snoc. }
  split.
  { unfold Block.terminated.
    rewrite <- (append_assoc "include " p ";"), endsWith_append_self.
    reflexivity. }
  split; [reflexivity | apply terminated_trailing].
Qed.

Lemma site_include_fold (paths : list string) (c : SiteConfig.t) :
  fold_left (fun c inc => SiteConfig.include inc c) paths c
  = SiteConfig.mk
      (SiteConfig.directives c
       ++ map (fun p => ("include " ++ p ++ ";")%string) paths)%list
      (SiteConfig.servers c).
Proof.
  revert c. induction paths as [|p paths IH]; intros c.
  - cbn. rewrite app_nil_r. now destruct c.
  - cbn [fold_left map]. rewrite IH. cbn. unfold JS.push.
    now rewrite <- app_assoc.
Qed.

(** X26. The constructor of a server-only document stores one include
    line per entry of the record, in order, and at most one server, the
    default server.  That server holds no location, and its directives
    are exactly: the listen line, then the server_name line when names
    are given, then the root line when a root is given and not empty,
    then the index line when index files are given. *)
Theorem constructed_site
  (incs : option (list string)) (ds : option SiteConfig.DefaultServer) :
  SiteConfig.directives
    (SiteConfig.construct (Some (SiteConfig.mkDefaults incs ds)))
  = map (fun p => ("include " ++ p ++ ";")%string)
        (match incs with Some l => l | None => [] end)
  /\ SiteConfig.servers
       (SiteConfig.construct (Some (SiteConfig.mkDefaults incs ds)))
     = match ds with
       | None => []
       | Some d =>
           [ ServerBlock.mk []
               (Block.terminated
                  ("listen " ++ ServerBlock.portOrUnixToString (SiteConfig.port d)
                     ++ (if match SiteConfig.ssl d with
                            | Some b => b
                            | None => false
                            end
                         then " ssl" else ""))%string
                :: (match SiteConfig.serverName d with
                    | Some names =>
                        [Block.terminated
                           ("server_name " ++ JS.join " " names)%string]
                    | None => []
                    end
                    ++ match SiteConfig.root d with
                       | Some r =>
                           if JS.truthy r
                           then [Block.terminated ("root " ++ r)%string]
                           else []
                       | None => []
                       end
                    ++ match SiteConfig.index d with
                       | Some files =>
                           [Block.terminated
                              ("index " ++ JS.join " " files)%string]
                       | None => []
                       end)%list) ]
       end.
Proof.
  split.
  - unfold SiteConfig.construct. cbv zeta.
    cbn [SiteConfig.includes SiteConfig.defaultServer].
    destruct incs as [l|]; destruct ds as [d|];
      rewrite ?site_include_fold; reflexivity.
  - unfold SiteConfig.construct. cbv zeta.
    cbn [SiteConfig.includes SiteConfig.defaultServer].
    destruct ds as [[port ssl names r files]|];
      [| destruct incs; rewrite ?site_include_fold; reflexivity].
    cbn [SiteConfig.port SiteConfig.ssl SiteConfig.serverName SiteConfig.root
         SiteConfig.index].
    destruct incs as [l|]; rewrite ?site_include_fold;
      (destruct port as [n|u], names as [names|], r as [r|], files as [files|];
       unfold SiteConfig.constructServer; cbv zeta;
       cbn [SiteConfig.serverName SiteConfig.root SiteConfig.index];
       try destruct (JS.truthy r); reflexivity).
Qed.

End SiteDocument.
